(** * Loan-application fraud-report agent: model and verified properties

    A shallow embedding of
      - [agents/narrative_agent.py]  (the request builder, the report client
        and its post-processing of the model's answer),
      - [mcp.py]                     (the two stub tool endpoints),
      - [data_schemas/*.py]          (the validated records),
    together with the parts of the Python run-time they call
    ([str.strip], [in] on strings, [json.dumps], [json.loads]).

    Python strings are sequences of Unicode code points; they are modelled
    as lists of [N].  Python values are finite trees, and an object that
    [json] cannot serialize comes with the text that its [str()] returns:
    a container that holds itself and an object whose [__str__] raises are
    outside the model, and so is the exhaustion of memory.  The two limits
    of the interpreter on which the result of [json] depends, the
    integer-digit limit and the recursion limit, are parameters of the
    model (see [Interpreter]). *)

From Stdlib Require Import NArith ZArith Ascii String List Lia Bool.
From Stdlib Require Import DecimalZ DecimalN DecimalPos DecimalFacts.
From stdpp Require Import base option list gmap.

Local Open Scope N_scope.
Local Open Scope list_scope.

(** ** Python strings *)

Module PyStr.

Definition pystr := list N.

(** An ASCII literal of the source as a Python string. *)
Definition str (s : string) : pystr :=
  List.map N_of_ascii (list_ascii_of_string s).

Definition NL : N := 10.       (* "\n" *)
Definition QUOTE : N := 34.    (* the double quote *)
Definition BACKSLASH : N := 92.

(** [str.isspace] on one code point (CPython's [_PyUnicode_IsWhitespace]). *)
Definition isspace (c : N) : bool :=
  ((9 <=? c) && (c <=? 13)) || ((28 <=? c) && (c <=? 32))
  || (c =? 133) || (c =? 160) || (c =? 5760)
  || ((8192 <=? c) && (c <=? 8202))
  || (c =? 8232) || (c =? 8233) || (c =? 8239) || (c =? 8287) || (c =? 12288).

Fixpoint lstrip (s : pystr) : pystr :=
  match s with
  | c :: t => if isspace c then lstrip t else s
  | [] => []
  end.

Definition rstrip (s : pystr) : pystr := rev (lstrip (rev s)).

(** [s.strip()] with no argument. *)
Definition strip (s : pystr) : pystr := rstrip (lstrip s).

Fixpoint startswith (p s : pystr) : bool :=
  match p, s with
  | [], _ => true
  | a :: p', b :: s' => (a =? b) && startswith p' s'
  | _ :: _, [] => false
  end.

(** [needle in hay] for two strings. *)
Fixpoint contains (needle hay : pystr) : bool :=
  startswith needle hay ||
  match hay with
  | [] => false
  | _ :: t => contains needle t
  end.

(** A text between double quotes. *)
Definition quoted (s : pystr) : pystr := [QUOTE] ++ s ++ [QUOTE].

End PyStr.
Import PyStr.

(** ** Exceptions and results *)

Inductive exception :=
| RuntimeError (msg : pystr)
| TypeError (msg : pystr)
| ValueError                     (* of the integer-digit limit; message not modelled *)
| RecursionError                 (* message not modelled *)
| IndexError
| JSONDecodeError                (* message and position are not modelled *)
| ValidationError (field : pystr)
| RemoteError (detail : pystr).  (* whatever the HTTP client raises *)

Inductive result (A : Type) :=
| Ok (a : A)
| Raise (e : exception).
Arguments Ok {A} a.
Arguments Raise {A} e.

#[global] Instance result_ret : MRet result := fun _ a => Ok a.
#[global] Instance result_bind : MBind result := fun _ _ k r =>
  match r with
  | Ok a => k a
  | Raise e => Raise e
  end.

(** ** Post-processing of the model's answer (narrative_agent.py, 111-121) *)

Definition REQUIRED_SECTIONS : list pystr :=
  [ str "Identity Fraud Risk"; str "Paystub Fraud Risk";
    str "Overall Application Risk" ].

Definition wrap_sections (content : pystr) : pystr :=
  str "Identity Fraud Risk:" ++ [NL] ++ content ++ [NL; NL]
  ++ str "Paystub Fraud Risk:" ++ [NL] ++ str "(see analysis above)" ++ [NL; NL]
  ++ str "Overall Application Risk:" ++ [NL] ++ str "(see analysis above)" ++ [NL].

(** [x or ""] for [x] a string or [None]. *)
Definition or_empty (x : option pystr) : pystr :=
  match x with
  | Some (c :: t) => c :: t
  | Some [] | None => []
  end.

(** [message_content] is [resp.choices[0].message.content], [None] when the
    API returns a null content. *)
Definition ensure_sections (message_content : option pystr) : pystr :=
  let content := strip (or_empty message_content) in
  if negb (existsb (fun h => contains h content) REQUIRED_SECTIONS)
  then wrap_sections content
  else content.

(** ** Python values *)

(** Floating point is not modelled: a float is an element of an unspecified
    type, with Python's [float(text)] and the encoder's [floatstr] (which is
    [float.__repr__] except for [NaN], [Infinity] and [-Infinity]). *)
Class FloatOps := {
  pyfloat : Type;
  float_of_str : pystr -> pyfloat;
  floatstr : pyfloat -> pystr
}.

#[warnings="-register-all"] Inductive pyval `{FloatOps} :=
| PNone
| PBool (b : bool)
| PInt (z : Z)
| PFloat (f : pyfloat)
| PStr (s : pystr)
| PList (items : list pyval)
| PTuple (items : list pyval)
| PDict (items : list (pyval * pyval))   (* in insertion order *)
| PObject (cls : pystr) (text : pystr).  (* any other object; [str(o)] returns [text] *)

(** ** The limits of the interpreter

    Whether [json] raises on a value or on a text depends on two limits of
    the interpreter that runs it.  The conversions between [int] and [str]
    refuse an integer of more than [sys.get_int_max_str_digits()] digits
    (4300 unless it was set; zero for no limit, as in the versions without
    the limit).  The C encoder and the C scanner call
    [Py_EnterRecursiveCall] when they enter a list, a tuple, a dict, an
    array or an object, and once more around the value that [default]
    returned; [dumps_room] and [loads_room] say how many of these calls
    inside one another the interpreter still allows when the source calls
    [json.dumps] and [json.loads], which depends on the depth of its own
    caller. *)
Class Interpreter := {
  int_max_str_digits : nat;
  dumps_room : nat;
  loads_room : nat
}.

(** ** [json]: the encoder ([json.dumps]) *)

Module json.
Section Json.
Context `{FloatOps} {limits : Interpreter}.

Definition hexdigit (d : N) : N := if d <? 10 then 48 + d else 87 + d.

(** ['{0:04x}'.format(n)] for [n < 0x10000]. *)
Definition hex4 (n : N) : pystr :=
  [ hexdigit (N.shiftr n 12 mod 16); hexdigit (N.shiftr n 8 mod 16);
    hexdigit (N.shiftr n 4 mod 16); hexdigit (n mod 16) ].

Definition u_escape (n : N) : pystr := [BACKSLASH; 117] ++ hex4 n.

(** The [replace] function of [py_encode_basestring_ascii]: [ESCAPE_DCT]
    first, then [\uXXXX], a surrogate pair above the basic plane.  Code
    points from the space to the tilde, other than the quote and the
    backslash, are not matched by [ESCAPE_ASCII] and stay as they are. *)
Definition escape_char (c : N) : pystr :=
  if c =? BACKSLASH then [BACKSLASH; BACKSLASH]
  else if c =? QUOTE then [BACKSLASH; QUOTE]
  else if c =? 8 then [BACKSLASH; 98]
  else if c =? 12 then [BACKSLASH; 102]
  else if c =? 10 then [BACKSLASH; 110]
  else if c =? 13 then [BACKSLASH; 114]
  else if c =? 9 then [BACKSLASH; 116]
  else if (32 <=? c) && (c <=? 126) then [c]
  else if c <? 65536 then u_escape c
  else
    let n := c - 65536 in
    let s1 := N.lor 55296 (N.land (N.shiftr n 10) 1023) in
    let s2 := N.lor 56320 (N.land n 1023) in
    u_escape s1 ++ u_escape s2.

Definition encode_basestring_ascii (s : pystr) : pystr :=
  [QUOTE] ++ flat_map escape_char s ++ [QUOTE].

Fixpoint uint_digits (u : Decimal.uint) : pystr :=
  match u with
  | Decimal.Nil => []
  | Decimal.D0 u => 48 :: uint_digits u
  | Decimal.D1 u => 49 :: uint_digits u
  | Decimal.D2 u => 50 :: uint_digits u
  | Decimal.D3 u => 51 :: uint_digits u
  | Decimal.D4 u => 52 :: uint_digits u
  | Decimal.D5 u => 53 :: uint_digits u
  | Decimal.D6 u => 54 :: uint_digits u
  | Decimal.D7 u => 55 :: uint_digits u
  | Decimal.D8 u => 56 :: uint_digits u
  | Decimal.D9 u => 57 :: uint_digits u
  end.

(** The decimal text of an integer. *)
Definition int_repr (z : Z) : pystr :=
  match Z.to_int z with
  | Decimal.Pos u => uint_digits u
  | Decimal.Neg u => 45 :: uint_digits u
  end.

(** The number of digits of the text of an integer, its sign apart. *)
Definition digit_count (text : pystr) : nat :=
  match text with
  | c :: t => if c =? 45 then length t else length text
  | [] => O
  end.

(** The text has more digits than the interpreter converts. *)
Definition over_digit_limit (text : pystr) : bool :=
  (0 <? int_max_str_digits)%nat && (int_max_str_digits <? digit_count text)%nat.

(** [int.__repr__]. *)
Definition int_to_str (z : Z) : result pystr :=
  if over_digit_limit (int_repr z) then Raise ValueError else Ok (int_repr z).

(** The [default=] argument: the source passes [str] or nothing. *)
Inductive default_fn := builtin_str.

(** The key of a dict item as the encoder writes it; a key of another type
    is a [TypeError] ([skipkeys] is off), and [default] is not consulted. *)
Definition key_text (k : pyval) : result pystr :=
  match k with
  | PStr s => Ok s
  | PFloat f => Ok (floatstr f)
  | PBool true => Ok (str "true")
  | PBool false => Ok (str "false")
  | PNone => Ok (str "null")
  | PInt z => int_to_str z
  | PList _ => Raise (TypeError (str "keys must be str, int, float, bool or None, not list"))
  | PTuple _ => Raise (TypeError (str "keys must be str, int, float, bool or None, not tuple"))
  | PDict _ => Raise (TypeError (str "keys must be str, int, float, bool or None, not dict"))
  | PObject cls _ =>
      Raise (TypeError (str "keys must be str, int, float, bool or None, not " ++ cls))
  end.

(** [", ".join] of already encoded items, raising what the first failing
    item raised. *)
Fixpoint join_items (items : list (result pystr)) : result pystr :=
  match items with
  | [] => Ok []
  | [r] => r
  | r :: rest =>
      match r with
      | Raise e => Raise e
      | Ok a =>
          match join_items rest with
          | Raise e => Raise e
          | Ok b => Ok (a ++ str ", " ++ b)
          end
      end
  end.

(** [JSONEncoder(default=default).encode(o)] with the default separators,
    [ensure_ascii] and [allow_nan] on, as the C encoder does it
    ([encoder_listencode_obj]); [room] is the number of recursive calls
    that the interpreter still allows.  A list, a tuple and a dict take one
    of them, before their items are looked at; so does the text that
    [default] returned for an object of another type. *)
Fixpoint encode (default : option default_fn) (room : nat) (o : pyval) {struct o}
  : result pystr :=
  match o with
  | PNone => Ok (str "null")
  | PBool true => Ok (str "true")
  | PBool false => Ok (str "false")
  | PInt z => int_to_str z
  | PFloat f => Ok (floatstr f)
  | PStr s => Ok (encode_basestring_ascii s)
  | PList items | PTuple items =>
      match room with
      | O => Raise RecursionError
      | S room =>
          match join_items (List.map (encode default room) items) with
          | Raise e => Raise e
          | Ok body => Ok (str "[" ++ body ++ str "]")
          end
      end
  | PDict items =>
      match room with
      | O => Raise RecursionError
      | S room =>
          match join_items
                  (List.map (fun kv =>
                     match key_text (fst kv) with
                     | Raise e => Raise e
                     | Ok k =>
                         match encode default room (snd kv) with
                         | Raise e => Raise e
                         | Ok v => Ok (encode_basestring_ascii k ++ str ": " ++ v)
                         end
                     end) items) with
          | Raise e => Raise e
          | Ok body => Ok (str "{" ++ body ++ str "}")
          end
      end
  | PObject cls text =>
      match default with
      | Some builtin_str =>
          match room with
          | O => Raise RecursionError
          | S _ => Ok (encode_basestring_ascii text)
          end
      | None =>
          Raise (TypeError (str "Object of type " ++ cls ++ str " is not JSON serializable"))
      end
  end.

Definition dumps (obj : pyval) (default : option default_fn) : result pystr :=
  encode default dumps_room obj.

(** ** [json]: the decoder ([json.loads])

    The decoder works on the text that remains to be read instead of on the
    pair of the whole text and an index.  Every [WHITESPACE.match] of the
    source, fast paths included, is [skip_ws].  The recursive functions take
    a fuel argument; [None] means the fuel ran out, which [loads] never
    meets (see [scan_once_fuel]).  Their [room] argument is the number of
    recursive calls that the interpreter still allows: the C scanner, which
    the interpreter runs in place of [py_make_scanner], takes one of them
    when it enters an object or an array ([scan_once_unicode]). *)

Definition is_ws (c : N) : bool :=
  (c =? 32) || (c =? 9) || (c =? 10) || (c =? 13).

Fixpoint skip_ws (s : pystr) : pystr :=
  match s with
  | c :: t => if is_ws c then skip_ws t else s
  | [] => []
  end.

Definition is_digit (c : N) : bool := (48 <=? c) && (c <=? 57).

(** The value of one character of [[0-9A-Fa-f]]. *)
Definition hexval (c : N) : option N :=
  if is_digit c then Some (c - 48)
  else if (97 <=? c) && (c <=? 102) then Some (c - 87)
  else if (65 <=? c) && (c <=? 70) then Some (c - 55)
  else None.

(** [_decode_uXXXX], given the text after the [u]. *)
Definition decode_uXXXX (s : pystr) : result (N * pystr) :=
  match s with
  | a :: b :: c :: d :: rest =>
      match hexval a, hexval b, hexval c, hexval d with
      | Some x, Some y, Some z, Some w =>
          Ok (4096 * x + 256 * y + 16 * z + w, rest)
      | _, _, _, _ => Raise JSONDecodeError
      end
  | _ => Raise JSONDecodeError
  end.

(** The [BACKSLASH] table. *)
Definition unescape (c : N) : option N :=
  if c =? QUOTE then Some QUOTE
  else if c =? BACKSLASH then Some BACKSLASH
  else if c =? 47 then Some 47
  else if c =? 98 then Some 8
  else if c =? 102 then Some 12
  else if c =? 110 then Some 10
  else if c =? 114 then Some 13
  else if c =? 116 then Some 9
  else None.

(** [py_scanstring] in strict mode, given the text after the opening quote
    and the characters decoded so far. *)
Fixpoint scanstring (fuel : nat) (s : pystr) (chunks : pystr)
  : option (result (pystr * pystr)) :=
  match fuel with
  | O => None
  | S fuel =>
      match s with
      | [] => Some (Raise JSONDecodeError)              (* unterminated *)
      | c :: t =>
          if c =? QUOTE then Some (Ok (chunks, t))
          else if c <? 32 then Some (Raise JSONDecodeError) (* control character *)
          else if negb (c =? BACKSLASH) then scanstring fuel t (chunks ++ [c])
          else
            match t with
            | [] => Some (Raise JSONDecodeError)
            | esc :: t' =>
                if negb (esc =? 117) then
                  match unescape esc with
                  | None => Some (Raise JSONDecodeError)
                  | Some char => scanstring fuel t' (chunks ++ [char])
                  end
                else
                  match decode_uXXXX t' with
                  | Raise e => Some (Raise e)
                  | Ok (uni, t2) =>
                      if (55296 <=? uni) && (uni <=? 56319)
                         && startswith [BACKSLASH; 117] t2
                      then
                        match decode_uXXXX (drop 2 t2) with
                        | Raise e => Some (Raise e)
                        | Ok (uni2, t3) =>
                            if (56320 <=? uni2) && (uni2 <=? 57343) then
                              let uni' :=
                                65536 + N.lor (N.shiftl (uni - 55296) 10)
                                              (uni2 - 56320) in
                              scanstring fuel t3 (chunks ++ [uni'])
                            else scanstring fuel t2 (chunks ++ [uni])
                        end
                      else scanstring fuel t2 (chunks ++ [uni])
                  end
            end
      end
  end.

Fixpoint span_digits (s : pystr) : pystr * pystr :=
  match s with
  | c :: t =>
      if is_digit c then let (ds, r) := span_digits t in (c :: ds, r)
      else ([], s)
  | [] => ([], [])
  end.

(** [NUMBER_RE], group by group: each function gives the text matched and
    the text after it.  The integer group: an optional minus sign, then
    either a zero or a digit other than zero followed by digits. *)
Definition match_integer (s : pystr) : option (pystr * pystr) :=
  let (sign, s1) :=
    match s with
    | c :: t => if c =? 45 then ([c], t) else ([], s)
    | [] => ([], s)
    end in
  match s1 with
  | c :: t =>
      if c =? 48 then Some (sign ++ [c], t)
      else if is_digit c then
        let (ds, r) := span_digits t in Some (sign ++ c :: ds, r)
      else None
  | [] => None
  end.

(** The optional fraction group: a point and at least one digit. *)
Definition match_frac (s : pystr) : pystr * pystr :=
  match s with
  | c :: t =>
      if c =? 46 then
        match span_digits t with
        | ([], _) => ([], s)
        | (ds, r) => (c :: ds, r)
        end
      else ([], s)
  | [] => ([], s)
  end.

(** The optional exponent group: [e] or [E], an optional sign, and at
    least one digit. *)
Definition match_exp (s : pystr) : pystr * pystr :=
  match s with
  | c :: t =>
      if (c =? 101) || (c =? 69) then
        let (esign, t') :=
          match t with
          | d :: u => if (d =? 45) || (d =? 43) then ([d], u) else ([], t)
          | [] => ([], t)
          end in
        match span_digits t' with
        | ([], _) => ([], s)
        | (ds, r) => (c :: esign ++ ds, r)
        end
      else ([], s)
  | [] => ([], s)
  end.

(** [NUMBER_RE.match]: the groups [integer], [frac], [exp] (empty when the
    optional group does not take part) and the text after the match. *)
Definition match_number (s : pystr) : option (pystr * pystr * pystr * pystr) :=
  match match_integer s with
  | None => None
  | Some (integer, s2) =>
      let (frac, s3) := match_frac s2 in
      let (exp, s4) := match_exp s3 in
      Some (integer, frac, exp, s4)
  end.

Fixpoint uint_of_digits (s : pystr) : Decimal.uint :=
  match s with
  | [] => Decimal.Nil
  | c :: t =>
      let u := uint_of_digits t in
      if c =? 48 then Decimal.D0 u else if c =? 49 then Decimal.D1 u
      else if c =? 50 then Decimal.D2 u else if c =? 51 then Decimal.D3 u
      else if c =? 52 then Decimal.D4 u else if c =? 53 then Decimal.D5 u
      else if c =? 54 then Decimal.D6 u else if c =? 55 then Decimal.D7 u
      else if c =? 56 then Decimal.D8 u else Decimal.D9 u
  end.

(** The integer that a text matched by the [integer] group denotes. *)
Definition int_of_str (s : pystr) : Z :=
  match s with
  | c :: t =>
      if c =? 45 then Z.of_int (Decimal.Neg (uint_of_digits t))
      else Z.of_int (Decimal.Pos (uint_of_digits s))
  | [] => 0%Z
  end.

(** [int(text)] on such a text. *)
Definition str_to_int (s : pystr) : result Z :=
  if over_digit_limit s then Raise ValueError else Ok (int_of_str s).

(** [dict(pairs)]: a later pair overwrites the value of an equal key and
    keeps the key's first position. *)
Fixpoint dict_set (d : list (pystr * pyval)) (k : pystr) (v : pyval)
  : list (pystr * pyval) :=
  match d with
  | [] => [(k, v)]
  | (k', v') :: d' =>
      if decide (k' = k) then (k', v) :: d' else (k', v') :: dict_set d' k v
  end.

Definition dict_of_pairs (pairs : list (pystr * pyval)) : list (pyval * pyval) :=
  List.map (fun kv => (PStr (fst kv), snd kv))
    (fold_left (fun d kv => dict_set d (fst kv) (snd kv)) pairs []).

Definition lift {A B} (f : A -> B) (r : option (result (A * pystr)))
  : option (result (B * pystr)) :=
  match r with
  | Some (Ok (a, rest)) => Some (Ok (f a, rest))
  | Some (Raise e) => Some (Raise e)
  | None => None
  end.

(** [py_make_scanner]'s [_scan_once] with [JSONArray] and [JSONObject]; the
    two [_loop] functions are their [while True] loops, entered before an
    element and before the text of a key (after its opening quote). *)
Fixpoint scan_once (fuel room : nat) (s : pystr) : option (result (pyval * pystr)) :=
  match fuel with
  | O => None
  | S fuel =>
      match s with
      | [] => Some (Raise JSONDecodeError)       (* StopIteration: expecting value *)
      | nextchar :: t =>
          if nextchar =? QUOTE then lift PStr (scanstring (S (length t)) t [])
          else if nextchar =? 123 then
            match room with
            | O => Some (Raise RecursionError)
            | S room => JSONObject fuel room t
            end
          else if nextchar =? 91 then
            match room with
            | O => Some (Raise RecursionError)
            | S room => JSONArray fuel room t
            end
          else if startswith (str "null") s then Some (Ok (PNone, drop 4 s))
          else if startswith (str "true") s then Some (Ok (PBool true, drop 4 s))
          else if startswith (str "false") s then Some (Ok (PBool false, drop 5 s))
          else
            match match_number s with
            | Some (integer, frac, exp, rest) =>
                match frac, exp with
                | [], [] =>
                    match str_to_int integer with
                    | Ok z => Some (Ok (PInt z, rest))
                    | Raise e => Some (Raise e)
                    end
                | _, _ => Some (Ok (PFloat (float_of_str (integer ++ frac ++ exp)), rest))
                end
            | None =>
                if startswith (str "NaN") s
                then Some (Ok (PFloat (float_of_str (str "NaN")), drop 3 s))
                else if startswith (str "Infinity") s
                then Some (Ok (PFloat (float_of_str (str "Infinity")), drop 8 s))
                else if startswith (str "-Infinity") s
                then Some (Ok (PFloat (float_of_str (str "-Infinity")), drop 9 s))
                else Some (Raise JSONDecodeError)
            end
      end
  end

with JSONArray (fuel room : nat) (s : pystr) : option (result (pyval * pystr)) :=
  match fuel with
  | O => None
  | S fuel =>
      match skip_ws s with
      | [] => JSONArray_loop fuel room [] []
      | nextchar :: t =>
          if nextchar =? 93 then Some (Ok (PList [], t))
          else JSONArray_loop fuel room (nextchar :: t) []
      end
  end

with JSONArray_loop (fuel room : nat) (s : pystr) (values : list pyval)
  : option (result (pyval * pystr)) :=
  match fuel with
  | O => None
  | S fuel =>
      match scan_once fuel room s with
      | None => None
      | Some (Raise e) => Some (Raise e)
      | Some (Ok (value, s1)) =>
          let values := values ++ [value] in
          match skip_ws s1 with
          | [] => Some (Raise JSONDecodeError)
          | nextchar :: t =>
              if nextchar =? 93 then Some (Ok (PList values, t))
              else if negb (nextchar =? 44) then Some (Raise JSONDecodeError)
              else JSONArray_loop fuel room (skip_ws t) values
          end
      end
  end

with JSONObject (fuel room : nat) (s : pystr) : option (result (pyval * pystr)) :=
  match fuel with
  | O => None
  | S fuel =>
      match skip_ws s with
      | [] => Some (Raise JSONDecodeError)
      | nextchar :: t =>
          if nextchar =? QUOTE then JSONObject_loop fuel room t []
          else if nextchar =? 125 then Some (Ok (PDict [], t))
          else Some (Raise JSONDecodeError)
      end
  end

with JSONObject_loop (fuel room : nat) (s : pystr) (pairs : list (pystr * pyval))
  : option (result (pyval * pystr)) :=
  match fuel with
  | O => None
  | S fuel =>
      match scanstring (S (length s)) s [] with
      | None => None
      | Some (Raise e) => Some (Raise e)
      | Some (Ok (key, s1)) =>
          match skip_ws s1 with
          | [] => Some (Raise JSONDecodeError)
          | colon :: s2 =>
              if negb (colon =? 58) then Some (Raise JSONDecodeError)
              else
                match scan_once fuel room (skip_ws s2) with
                | None => None
                | Some (Raise e) => Some (Raise e)
                | Some (Ok (value, s3)) =>
                    let pairs := pairs ++ [(key, value)] in
                    match skip_ws s3 with
                    | [] => Some (Raise JSONDecodeError)
                    | nextchar :: t =>
                        if nextchar =? 125
                        then Some (Ok (PDict (dict_of_pairs pairs), t))
                        else if negb (nextchar =? 44) then Some (Raise JSONDecodeError)
                        else
                          match skip_ws t with
                          | [] => Some (Raise JSONDecodeError)
                          | q :: t' =>
                              if q =? QUOTE then JSONObject_loop fuel room t' pairs
                              else Some (Raise JSONDecodeError)
                          end
                    end
                end
          end
      end
  end.

(** [json.loads(s)] for a [str]: the byte-order-mark check, then
    [JSONDecoder.decode]. *)
Definition loads (s : pystr) : result pyval :=
  if startswith [65279] s then Raise JSONDecodeError
  else
    match scan_once (3 * length s + 3) loads_room (skip_ws s) with
    | Some (Ok (obj, rest)) =>
        match skip_ws rest with
        | [] => Ok obj
        | _ :: _ => Raise JSONDecodeError                (* extra data *)
        end
    | Some (Raise e) => Raise e
    | None => Raise JSONDecodeError                      (* not met *)
    end.

(** What the decoder raises: [JSONDecodeError] for a text that is not JSON,
    [ValueError] for an integer over the digit limit, [RecursionError] for
    more nested containers than the interpreter allows. *)
Definition decoder_exception (e : exception) : Prop :=
  e = JSONDecodeError \/ e = ValueError \/ e = RecursionError.

Definition decode_error {A} (r : option (result A)) : Prop :=
  match r with
  | Some (Raise e) => decoder_exception e
  | _ => True
  end.

(** ** What the decoder makes of the encoder's text *)

Definition is_high (c : N) : bool := (55296 <=? c) && (c <=? 56319).
Definition is_low (c : N) : bool := (56320 <=? c) && (c <=? 57343).

(** A string as [json.loads] gives it back after [json.dumps]: a high
    surrogate followed by a low surrogate has become the code point that
    the pair encodes. *)
Fixpoint join_surrogates (s : pystr) : pystr :=
  match s with
  | [] => []
  | c :: t =>
      match t with
      | d :: t' =>
          if is_high c && is_low d
          then (65536 + N.lor (N.shiftl (c - 55296) 10) (d - 56320))
               :: join_surrogates t'
          else c :: join_surrogates t
      | [] => [c]
      end
  end.

(** Some high surrogate is immediately followed by a low surrogate. *)
Fixpoint has_surrogate_pair (s : pystr) : bool :=
  match s with
  | [] => false
  | c :: t =>
      match t with
      | d :: _ => (is_high c && is_low d) || has_surrogate_pair t
      | [] => false
      end
  end.

Definition valid_str (s : pystr) : bool := forallb (fun c => c <=? 1114111) s.

(** The text after a number does not continue it. *)
Definition number_end (rest : pystr) : bool :=
  match rest with
  | [] => true
  | c :: _ => negb (is_digit c || (c =? 46) || (c =? 101) || (c =? 69))
  end.

(** The first character of an encoded value. *)
Definition value_start (text : pystr) : bool :=
  match text with
  | c :: _ => is_digit c || existsb (N.eqb c) [110; 116; 102; 45; QUOTE; 91; 123; 78; 73]
  | [] => false
  end.

(** The call returned (it did not run out of fuel), and what it left to
    read is shorter than [n]. *)
Definition finishes {A} (r : option (result (A * pystr))) (n : nat) : Prop :=
  match r with
  | None => False
  | Some (Raise _) => True
  | Some (Ok (_, rest)) => (length rest < n)%nat
  end.

(** What [json.loads] gives for the key of a dict item. *)
Definition key_image (k : pyval) : pystr :=
  match key_text k with
  | Ok text => join_surrogates text
  | Raise _ => []
  end.

(** What [json.loads] gives for the text [json.dumps] wrote for a value:
    a tuple has become a list, an object of another type its [str()], a key
    its text, and a later item replaces an earlier one whose key has the same
    text. *)
Fixpoint json_image (v : pyval) : pyval :=
  match v with
  | PNone | PBool _ | PInt _ | PFloat _ => v
  | PStr s => PStr (join_surrogates s)
  | PList items | PTuple items => PList (List.map json_image items)
  | PDict items =>
      PDict (dict_of_pairs
               (List.map (fun kv => (key_image (fst kv), json_image (snd kv))) items))
  | PObject _ text => PStr (join_surrogates text)
  end.

(** A text that the scanner reads as a float: [NaN], [Infinity],
    [-Infinity], or a match of [NUMBER_RE] with a fraction or an exponent
    and nothing after it. *)
Definition float_text (text : pystr) : bool :=
  if decide (text = str "NaN") then true
  else if decide (text = str "Infinity") then true
  else if decide (text = str "-Infinity") then true
  else
    match match_number text with
    | Some (_, [], [], _) => false
    | Some (_, _, _, []) => true
    | _ => false
    end.

(** The float is written as a text from which [float] gives it back.
    Floating point is not modelled; this is what [float.__repr__] and
    [float] do for the floats of Python. *)
Definition float_reads_back (f : pyfloat) : Prop :=
  float_text (floatstr f) = true /\ float_of_str (floatstr f) = f.

(** The keys the encoder accepts, when it can write them. *)
Definition key_ok (k : pyval) : bool :=
  match k with
  | PStr s => valid_str s
  | PInt z => negb (over_digit_limit (int_repr z))
  | PFloat f => valid_str (floatstr f)
  | PBool _ | PNone => true
  | _ => false
  end.

(** Values whose dict keys, at every depth, are strings, integers, floats,
    booleans or [None], whose integers are within the digit limit, whose
    strings are sequences of code points, and whose floats are written as
    texts that are read back. *)
Fixpoint readable (v : pyval) : Prop :=
  match v with
  | PNone | PBool _ => True
  | PInt z => over_digit_limit (int_repr z) = false
  | PFloat f => float_reads_back f
  | PStr s => valid_str s = true
  | PList items | PTuple items => fold_right (fun x rest => readable x /\ rest) True items
  | PDict items =>
      fold_right (fun kv rest => (key_ok (fst kv) = true /\ readable (snd kv)) /\ rest)
        True items
  | PObject _ text => valid_str text = true
  end.

(** The number of recursive calls that the encoder needs for a value: the
    containers inside one another, an object of another type counting as
    one. *)
Fixpoint depth (v : pyval) : nat :=
  match v with
  | PList items | PTuple items => S (fold_right (fun x n => Nat.max (depth x) n) O items)
  | PDict items => S (fold_right (fun kv n => Nat.max (depth (snd kv)) n) O items)
  | PObject _ _ => 1%nat
  | _ => O
  end.

(** The deepest of the items of a list, and of the values of a dict. *)
Definition depths (items : list pyval) : nat :=
  fold_right (fun x n => Nat.max (depth x) n) O items.

Definition value_depths (items : list (pyval * pyval)) : nat :=
  fold_right (fun kv n => Nat.max (depth (snd kv)) n) O items.

(** The text of a dict item: the key, a colon and a space, the value. *)
Definition encode_item (room : nat) (kv : pyval * pyval) : result pystr :=
  match key_text (fst kv) with
  | Raise e => Raise e
  | Ok k =>
      match encode (Some builtin_str) room (snd kv) with
      | Raise e => Raise e
      | Ok v => Ok (encode_basestring_ascii k ++ str ": " ++ v)
      end
  end.

(** The encoder's text for [v] is read back as [json_image v], whenever the
    interpreter allows the recursive calls that [v] needs. *)
Definition reads_back (v : pyval) : Prop :=
  readable v ->
  exists text,
    (forall room : nat,
       (depth v <= room)%nat -> encode (Some builtin_str) room v = Ok text) /\
    value_start text = true /\
    forall (fuel room : nat) (rest : pystr),
      (3 * length text <= fuel)%nat -> (depth v <= room)%nat ->
      number_end rest = true ->
      scan_once fuel room (text ++ rest) = Some (Ok (json_image v, rest)).

End Json.
End json.

(** One of the three labels occurs in the text; all three do. *)
Definition has_section (text : pystr) : bool :=
  existsb (fun h => contains h text) REQUIRED_SECTIONS.

Definition has_all_sections (text : pystr) : bool :=
  forallb (fun h => contains h text) REQUIRED_SECTIONS.

(** ** agents/narrative_agent.py *)

Section Agent.
Context `{FloatOps} {limits : Interpreter}.

Record chat_message := { role : pystr; content : pystr }.

Record chat_request := {
  req_model : pystr;
  req_temperature : pyfloat;
  req_messages : list chat_message
}.

(** A completion as far as the source reads it:
    [resp.choices[i].message.content], which may be null. *)
Record chat_completion := { choices : list (option pystr) }.

Inductive event :=
| DotenvLoaded
| ClientCreated (api_key : pystr)
| CompletionRequested (api_key : pystr) (request : chat_request).

(** The process environment, the bindings of the [.env] file, what has
    happened so far, and the remote service, whose answer may depend on all
    of it.  The bindings are those that python-dotenv reads from the file,
    in the order of the file, each with its value after interpolation and
    [None] for a name that stands without a value; there is none when
    there is no file. *)
Record world := {
  environ : gmap pystr pystr;
  dotenv_file : list (pystr * option pystr);
  events : list event;
  service : list event -> pystr -> chat_request -> result chat_completion
}.

(** [DotEnv.dict()]: a later binding of a name replaces an earlier one. *)
Definition dotenv_values (file : list (pystr * option pystr))
  : gmap pystr (option pystr) :=
  fold_left (fun values kv => <[fst kv := snd kv]> values) file ∅.

(** [load_dotenv()]: a variable of the file that has a value is set unless
    the environment already has the variable ([override] is off). *)
Definition load_dotenv (w : world) : world :=
  {| environ := environ w ∪ omap id (dotenv_values (dotenv_file w));
     dotenv_file := dotenv_file w;
     events := events w ++ [DotenvLoaded];
     service := service w |}.

Definition _load_env_once (w : world) : world := load_dotenv w.

Definition getenv (key : pystr) (w : world) : option pystr := environ w !! key.

(** The [OpenAI] client holds the key; building it sends nothing. *)
Record OpenAI_client := { client_api_key : pystr }.

Definition OpenAI (api_key : pystr) (w : world) : OpenAI_client * world :=
  ({| client_api_key := api_key |},
   {| environ := environ w; dotenv_file := dotenv_file w;
      events := events w ++ [ClientCreated api_key];
      service := service w |}).

(** [client.chat.completions.create(...)]. *)
Definition create (client : OpenAI_client) (request : chat_request) (w : world)
  : result chat_completion * world :=
  (service w (events w) (client_api_key client) request,
   {| environ := environ w; dotenv_file := dotenv_file w;
      events := events w ++ [CompletionRequested (client_api_key client) request];
      service := service w |}).

Record NarrativeAgent := {
  model : pystr;
  temperature : pyfloat;
  _client : OpenAI_client
}.

Definition default_model : pystr := str "gemini-1.5-turbo".
Definition default_temperature : pyfloat := float_of_str (str "0.2").

Definition __init__ (model : pystr) (temperature : pyfloat) (w : world)
  : result NarrativeAgent * world :=
  let w := _load_env_once w in
  match getenv (str "GEMINI_API_KEY") w with
  | None | Some [] =>                                   (* [not api_key] *)
      (Raise (RuntimeError
                (str "GEMINI_API_KEY not set. Add it to your environment or .env")),
       w)
  | Some api_key =>
      let (client, w) := OpenAI api_key w in
      (Ok {| model := model; temperature := temperature; _client := client |}, w)
  end.

(** Lines 76-83: the request builder. *)
Definition app_payload (application : pyval) : result pystr :=
  match application with
  | PStr text =>
      match json.loads text with
      | Ok _ => Ok text
      | Raise JSONDecodeError =>
          json.dumps (PDict [(PStr (str "raw_application"), PStr text)]) None
      | Raise e => Raise e
      end
  | _ => json.dumps application (Some json.builtin_str)
  end.

Definition system_prompt : pystr :=
  str "You are a senior consumer lending fraud analyst. "
  ++ str "Analyze the provided loan application context to assess: "
  ++ str "1) Identity fraud likelihood, 2) Paystub fraud likelihood, "
  ++ str "and 3) Overall application risk. Be conservative, evidence-based, "
  ++ str "and concise. Express likelihoods as percentages with a one-line rationale. "
  ++ str "Call out key risk signals and any mitigating factors. "
  ++ str "If information is missing, state assumptions explicitly. "
  ++ str "Output a short, structured report suitable for underwriters.".

Definition user_instructions (payload : pystr) : pystr :=
  str "Application data (JSON). Use it to produce the report." ++ [NL; NL]
  ++ str "DATA: " ++ payload.

(** The arguments of [chat.completions.create]. *)
Definition completion_request (self : NarrativeAgent) (payload : pystr) : chat_request :=
  {| req_model := model self;
     req_temperature := temperature self;
     req_messages :=
       [ {| role := str "system"; content := system_prompt |};
         {| role := str "user"; content := user_instructions payload |} ] |}.

Definition generate_report (self : NarrativeAgent) (application : pyval) (w : world)
  : result pystr * world :=
  match app_payload application with
  | Raise e => (Raise e, w)
  | Ok payload =>
      match create (_client self) (completion_request self payload) w with
      | (Raise e, w) => (Raise e, w)
      | (Ok resp, w) =>
          match choices resp with
          | [] => (Raise IndexError, w)                  (* [resp.choices[0]] *)
          | message_content :: _ => (Ok (ensure_sections message_content), w)
          end
      end
  end.

(** What the remote model answers to the request of [generate_report]: the
    content of the first choice, when the request is made and answered. *)
Definition response_content (self : NarrativeAgent) (application : pyval) (w : world)
  : option (option pystr) :=
  match app_payload application with
  | Raise _ => None
  | Ok payload =>
      match service w (events w) (client_api_key (_client self))
              (completion_request self payload) with
      | Ok resp => head (choices resp)
      | Raise _ => None
      end
  end.

(** An object with the wanted field, for a dict read by [json.loads]. *)
Definition has_field (obj : pyval) (name : pystr) (value : pyval) : Prop :=
  match obj with
  | PDict items => In (PStr name, value) items
  | _ => False
  end.

(** The credential is in neither the process environment nor the [.env]
    file. *)
Definition credential_absent (w : world) : Prop :=
  environ w !! str "GEMINI_API_KEY" = None /\
  ~ In (str "GEMINI_API_KEY") (List.map fst (dotenv_file w)).

Definition network_event (e : event) : bool :=
  match e with
  | DotenvLoaded => false
  | ClientCreated _ | CompletionRequested _ _ => true
  end.

End Agent.

(** ** mcp.py *)

Module mcp.
Section Tools.
Context `{FloatOps}.

(** [str(e)]: the message, or a fixed text for the exceptions whose message
    the model does not keep. *)
Definition exception_str (e : exception) : pystr :=
  match e with
  | RuntimeError m | TypeError m | RemoteError m => m
  | ValueError => str "Exceeds the limit for integer string conversion"
  | RecursionError => str "maximum recursion depth exceeded"
  | IndexError => str "list index out of range"
  | JSONDecodeError => str "Expecting value"
  | ValidationError f => f
  end.

(** [try: body / except Exception as e: logging.exception(what); return
    {"error": prefix + str(e)}]: the pair of the returned value and the
    lines logged. *)
Definition guarded (what prefix : pystr) (body : result pyval)
  : result pyval * list pystr :=
  match body with
  | Ok v => (Ok v, [])
  | Raise e =>
      (Ok (PDict [(PStr (str "error"), PStr (prefix ++ exception_str e))]), [what])
  end.

Definition verify_paystub (paystub : pyval) : result pyval * list pystr :=
  guarded (str "Error in verify_paystub") (str "Exception in verify_paystub: ")
    (Ok (PDict [(PStr (str "status"), PStr (str "Paystub verified successfully"))])).

Definition verify_id (id : pyval) : result pyval * list pystr :=
  guarded (str "Error in calling verify_id api") (str "Exception in verify_id api call: ")
    (Ok (PDict [(PStr (str "status"), PStr (str "ID verified successfully"))])).

End Tools.
End mcp.

(** ** data_schemas: the pydantic records

    A model is built from keyword arguments, a finite map from field names
    to values.  What pydantic accepts for a [str], a [float] or a [date],
    and which objects of other types (a set, a deque) it takes as the
    sequence of a list field, depends on its version and mode and is left
    open; the handling of required and optional fields, [Literal] types,
    nested models and lists is that of [BaseModel]. *)

Class FieldTypes `{FloatOps} := {
  pydate : Type;
  validate_str : pyval -> option pystr;
  validate_float : pyval -> option pyfloat;
  validate_date : pyval -> option pydate;
  (* the elements of an object of another type, of the given class and
     [str()], that pydantic takes for a list field *)
  object_items : pystr -> pystr -> option (list pyval)
}.

Module data_schemas.
Section Schemas.
Context `{FieldTypes}.

(** A field without a default. *)
Definition required {A} (name : string) (validate : pyval -> option A)
    (data : gmap pystr pyval) : result A :=
  match data !! str name with
  | None => Raise (ValidationError (str name))          (* field required *)
  | Some v =>
      match validate v with
      | Some a => Ok a
      | None => Raise (ValidationError (str name))
      end
  end.

(** [Optional[T] = None]. *)
Definition optional {A} (name : string) (validate : pyval -> option A)
    (data : gmap pystr pyval) : result (option A) :=
  match data !! str name with
  | None | Some PNone => Ok None
  | Some v =>
      match validate v with
      | Some a => Ok (Some a)
      | None => Raise (ValidationError (str name))
      end
  end.

(** [Literal[...]] of strings. *)
Definition validate_literal (allowed : list pystr) (v : pyval) : option pystr :=
  match v with
  | PStr s => if decide (s ∈ allowed) then Some s else None
  | _ => None
  end.

Definition is_dict (v : pyval) : bool :=
  match v with PDict _ => true | _ => false end.

(** The fields that a dict gives: its items with a string as the key; an
    item with a key of another type is no field and is ignored. *)
Definition kwargs (items : list (pyval * pyval)) : gmap pystr pyval :=
  fold_left (fun data kv =>
               match fst kv with
               | PStr k => <[k := snd kv]> data
               | _ => data
               end) items ∅.

(** A nested model.  A dict is validated.  [instance] says of which record
    a value that is not a dict is an instance, if it is one: an instance of
    the model is taken as it is, without being validated again
    ([revalidate_instances] is off). *)
Definition validate_model {A} (instance : pyval -> option A)
    (validate : gmap pystr pyval -> result A) (v : pyval) : option A :=
  match v with
  | PDict items =>
      match validate (kwargs items) with Ok a => Some a | Raise _ => None end
  | _ => instance v
  end.

(** What a list field takes as its sequence: a list, a tuple, and the
    objects of other types that [object_items] says; never a string, a
    dict, a number or [None]. *)
Definition sequence_items (v : pyval) : option (list pyval) :=
  match v with
  | PList items | PTuple items => Some items
  | PObject cls text => object_items cls text
  | _ => None
  end.

(** [List[T] = Field(default_factory=list)]. *)
Definition list_field {A} (name : string) (validate : pyval -> option A)
    (data : gmap pystr pyval) : result (list A) :=
  match data !! str name with
  | None => Ok []
  | Some v =>
      match sequence_items v with
      | Some items =>
          match mapM validate items with
          | Some l => Ok l
          | None => Raise (ValidationError (str name))
          end
      | None => Raise (ValidationError (str name))
      end
  end.

Definition PAY_FREQUENCIES : list pystr :=
  [str "weekly"; str "biweekly"; str "semimonthly"; str "monthly"].

Definition DOC_TYPES : list pystr :=
  [str "driver_license"; str "passport"; str "ssn_card"; str "utility_bill";
   str "bank_statement"; str "paystub"; str "w2"; str "other"].

Record Employment := {
  employer_name : pystr;
  start_date : option pydate;
  pay_frequency : option pystr;
  annual_salary_claimed : option pyfloat
}.

Definition new_Employment (data : gmap pystr pyval) : result Employment :=
  a ← required "employer_name" validate_str data;
  b ← optional "start_date" validate_date data;
  c ← optional "pay_frequency" (validate_literal PAY_FREQUENCIES) data;
  d ← optional "annual_salary_claimed" validate_float data;
  Ok {| employer_name := a; start_date := b; pay_frequency := c;
        annual_salary_claimed := d |}.

Record PaystubItem := {
  net_pay : pyfloat;
  ytd_gross : option pyfloat;
  ytd_net : option pyfloat;
  employer_name_on_stub : option pystr;
  hours : option pyfloat;
  taxes_withheld : option pyfloat
}.

Definition new_PaystubItem (data : gmap pystr pyval) : result PaystubItem :=
  a ← required "net_pay" validate_float data;
  b ← optional "ytd_gross" validate_float data;
  c ← optional "ytd_net" validate_float data;
  d ← optional "employer_name_on_stub" validate_str data;
  e ← optional "hours" validate_float data;
  f ← optional "taxes_withheld" validate_float data;
  Ok {| net_pay := a; ytd_gross := b; ytd_net := c; employer_name_on_stub := d;
        hours := e; taxes_withheld := f |}.

Record DocumentEvidence := {
  doc_type : pystr;
  issuer : option pystr;
  id_number_masked : option pystr;
  issued_on : option pydate;
  name_on_doc : option pystr;
  address_on_doc : option pystr
}.

Definition new_DocumentEvidence (data : gmap pystr pyval) : result DocumentEvidence :=
  a ← required "doc_type" (validate_literal DOC_TYPES) data;
  b ← optional "issuer" validate_str data;
  c ← optional "id_number_masked" validate_str data;
  d ← optional "issued_on" validate_date data;
  e ← optional "name_on_doc" validate_str data;
  f ← optional "address_on_doc" validate_str data;
  Ok {| doc_type := a; issuer := b; id_number_masked := c; issued_on := d;
        name_on_doc := e; address_on_doc := f |}.

Record ApplicantProfile := {
  first_name : pystr;
  last_name : pystr;
  dob : option pydate;
  ssn_last4 : option pystr;
  email : option pystr;
  phone : option pystr;
  address_line1 : option pystr;
  address_city : option pystr;
  address_state : option pystr;
  address_postal_code : option pystr;
  employment : option Employment;
  paystubs : list PaystubItem;
  documents : list DocumentEvidence
}.

(** The instances of the three nested records among the values: which
    record a value that is not a dict is, when it is an instance of the
    model. *)
Class Instances := {
  as_Employment : pyval -> option Employment;
  as_PaystubItem : pyval -> option PaystubItem;
  as_DocumentEvidence : pyval -> option DocumentEvidence
}.

Definition new_ApplicantProfile `{Instances} (data : gmap pystr pyval)
  : result ApplicantProfile :=
  a ← required "first_name" validate_str data;
  b ← required "last_name" validate_str data;
  c ← optional "dob" validate_date data;
  d ← optional "ssn_last4" validate_str data;
  e ← optional "email" validate_str data;
  f ← optional "phone" validate_str data;
  g ← optional "address_line1" validate_str data;
  h ← optional "address_city" validate_str data;
  i ← optional "address_state" validate_str data;
  j ← optional "address_postal_code" validate_str data;
  k ← optional "employment" (validate_model as_Employment new_Employment) data;
  l ← list_field "paystubs" (validate_model as_PaystubItem new_PaystubItem) data;
  m ← list_field "documents" (validate_model as_DocumentEvidence new_DocumentEvidence) data;
  Ok {| first_name := a; last_name := b; dob := c; ssn_last4 := d; email := e;
        phone := f; address_line1 := g; address_city := h; address_state := i;
        address_postal_code := j; employment := k; paystubs := l; documents := m |}.

End Schemas.
End data_schemas.

(** ** A concrete run, for the examples *)

(** Floats kept as the text they were read from. *)
Definition text_floats : FloatOps :=
  {| pyfloat := pystr; float_of_str := fun text => text; floatstr := fun f => f |}.

(** The limits of an interpreter as it is installed, called with room for
    a thousand nested calls. *)
Definition cpython : Interpreter :=
  {| int_max_str_digits := 4300; dumps_room := 1000; loads_room := 1000 |}.

(** An interpreter whose limits are low: the digit limit at 640, the lowest
    value that [sys.set_int_max_str_digits] takes, and a caller so deep
    that two nested calls are left. *)
Definition low_limits : Interpreter :=
  {| int_max_str_digits := 640; dumps_room := 2; loads_room := 2 |}.

(** A world without the credential whose service answers every request
    with one choice of the given content. *)
Definition answering (message_content : option pystr) : @world text_floats :=
  {| environ := ∅; dotenv_file := []; events := [];
     service := fun _ _ _ => Ok {| choices := [message_content] |} |}.

Definition sample_agent : @NarrativeAgent text_floats :=
  {| model := default_model; temperature := default_temperature;
     _client := {| client_api_key := str "sample-key" |} |}.

(** A world with the credential in its [.env] file. *)
Definition configured : @world text_floats :=
  {| environ := ∅;
     dotenv_file := [(str "GEMINI_API_KEY", Some (str "sample-key"))];
     events := [];
     service := fun _ _ _ => Raise (RemoteError (str "unreachable")) |}.

(** Strict field types for the examples: a [str] field takes a string, a
    [float] field a float, a [date] field an ISO text. *)
Definition strict_fields : @FieldTypes text_floats :=
  {| pydate := pystr;
     validate_str := fun v => match v with PStr s => Some s | _ => None end;
     validate_float := fun v => match v with PFloat f => Some f | _ => None end;
     validate_date := fun v => match v with PStr s => Some s | _ => None end;
     object_items := fun _ _ => None |}.

(** No value is an instance of a record. *)
Definition no_instances : @data_schemas.Instances text_floats strict_fields :=
  {| data_schemas.as_Employment := fun _ => None;
     data_schemas.as_PaystubItem := fun _ => None;
     data_schemas.as_DocumentEvidence := fun _ => None |}.

(** ** Further notions for the properties of the builder *)

Section BuilderNotions.
Context `{FloatOps} {limits : Interpreter}.

(** Printable ASCII: from the space to the tilde. *)
Definition is_ascii_text (s : pystr) : bool :=
  forallb (fun c => (32 <=? c) && (c <=? 126)) s.

Definition is_float (v : pyval) : bool :=
  match v with PFloat _ => true | _ => false end.

(** No float as a value or as a key, at any depth. *)
Fixpoint float_free (v : pyval) : bool :=
  match v with
  | PFloat _ => false
  | PList items | PTuple items => forallb float_free items
  | PDict items =>
      forallb (fun kv => negb (is_float (fst kv)) && float_free (snd kv)) items
  | _ => true
  end.

(** The types the encoder takes for a key. *)
Definition key_serializable (k : pyval) : bool :=
  match k with
  | PStr _ | PInt _ | PBool _ | PNone | PFloat _ => true
  | _ => false
  end.

(** Every key of every dict in the value, at any depth, is of such a type. *)
Fixpoint keys_serializable (v : pyval) : bool :=
  match v with
  | PList items | PTuple items => forallb keys_serializable items
  | PDict items =>
      forallb (fun kv => key_serializable (fst kv) && keys_serializable (snd kv)) items
  | _ => true
  end.

Definition is_str (v : pyval) : bool :=
  match v with PStr _ => true | _ => false end.

(** A key that is an integer is within the digit limit. *)
Definition key_within_limit (k : pyval) : bool :=
  match k with
  | PInt z => negb (json.over_digit_limit (json.int_repr z))
  | _ => true
  end.

(** Every integer in the value, as a value or as a key, at any depth, is
    within the digit limit. *)
Fixpoint within_digit_limit (v : pyval) : bool :=
  match v with
  | PInt z => negb (json.over_digit_limit (json.int_repr z))
  | PList items | PTuple items => forallb within_digit_limit items
  | PDict items =>
      forallb (fun kv => key_within_limit (fst kv) && within_digit_limit (snd kv)) items
  | _ => true
  end.

End BuilderNotions.

(** The encoder's complaint about a key. *)
Definition key_error (e : exception) : Prop :=
  exists cls,
    e = TypeError (str "keys must be str, int, float, bool or None, not " ++ cls).

(** Why the encoder raised: a key of another type, an integer over the
    digit limit, or more nesting than there is room for. *)
Definition encoder_failure `{FloatOps} {limits : Interpreter}
    (room : nat) (v : pyval) (e : exception) : Prop :=
  (key_error e /\ keys_serializable v = false) \/
  (e = ValueError /\ within_digit_limit v = false) \/
  (e = RecursionError /\ (room < json.depth v)%nat).

(** ** Further worlds for the examples *)

(** A service that answers without any choice. *)
Definition choiceless : @world text_floats :=
  {| environ := ∅; dotenv_file := []; events := [];
     service := fun _ _ _ => Ok {| choices := [] |} |}.

(** The credential both in the environment and, with another value, in the
    [.env] file. *)
Definition doubly_configured (env_key : pystr) : @world text_floats :=
  {| environ := {[ str "GEMINI_API_KEY" := env_key ]};
     dotenv_file := [(str "GEMINI_API_KEY", Some (str "file-key"))];
     events := [];
     service := fun _ _ _ => Ok {| choices := [Some (str "Looks fine.")] |} |}.

(** The credential twice in the [.env] file, the second time with the
    given value; nothing in the environment. *)
Definition twice_defined (value : option pystr) : @world text_floats :=
  {| environ := ∅;
     dotenv_file := [(str "GEMINI_API_KEY", Some (str "first-key"));
                     (str "OTHER", None);
                     (str "GEMINI_API_KEY", value)];
     events := [];
     service := fun _ _ _ => Ok {| choices := [Some (str "Looks fine.")] |} |}.

(** The wrapper without its final newline. *)
Definition wrap_body (content : pystr) : pystr :=
  str "Identity Fraud Risk:" ++ [NL] ++ content ++ [NL; NL]
  ++ str "Paystub Fraud Risk:" ++ [NL] ++ str "(see analysis above)" ++ [NL; NL]
  ++ str "Overall Application Risk:" ++ [NL] ++ str "(see analysis above)".

(** ** The command line (narrative_agent.py, 124-150) *)

Section Cli.
Context `{FloatOps} {limits : Interpreter}.

(** The parsed arguments: [--json], [--file] ([None] when not given) and
    [--model], which has a default. *)
Record arguments := {
  json_str : option pystr;
  file_path : option pystr;
  model_option : pystr
}.

(** What [parser.parse_args()] makes of the command line, which is not
    modelled: the arguments, or an exit with a status ([--help] exits with
    status 0, a wrong command line with status 2); [printed] is what it has
    written on the standard output before (the usage for [--help]; nothing
    for an error, whose message goes to the standard error). *)
Inductive parse_result :=
| Parsed (args : arguments)
| Exited (status : nat) (printed : list pystr).

(** The built-in payload. *)
Definition sample_application : pyval :=
  PDict
    [ (PStr (str "applicant"), PDict [(PStr (str "name"), PStr (str "Sample Applicant"))]);
      (PStr (str "id_verification"),
       PDict [(PStr (str "name_match"), PBool true); (PStr (str "dob_match"), PBool true)]);
      (PStr (str "paystub"),
       PDict [(PStr (str "employer"), PStr (str "SampleCo"));
              (PStr (str "gross_pay"), PInt 4000);
              (PStr (str "pay_frequency"), PStr (str "biweekly"))]);
      (PStr (str "external_checks"), PDict [(PStr (str "ofac_screen"), PStr (str "clear"))]);
      (PStr (str "application_context"),
       PDict [(PStr (str "loan_amount"), PInt 10000); (PStr (str "channel"), PStr (str "online"))]) ].

(** How the script ends when it does not end normally: the exit of
    [parse_args], an exception of the agent that nothing catches, the file
    that could not be opened or read as UTF-8, or the report that [print]
    could not write. *)
Inductive failure :=
| SystemExit (status : nat)
| Uncaught (e : exception)
| FileFailure (path : pystr)
| PrintFailure (report : pystr).

(** The world with the files that can be read as text, the texts that
    [print] can write on the standard output (those that its encoding has
    and that the stream takes), the paths the script has opened and the
    lines that were printed. *)
Record process := {
  the_world : world;
  files : pystr -> option pystr;
  printable : pystr -> bool;
  opened : list pystr;
  stdout : list pystr
}.

(** [if x:] for an optional string: given and not empty. *)
Definition truthy (x : option pystr) : option pystr :=
  match x with
  | Some (c :: t) => Some (c :: t)
  | Some [] | None => None
  end.

(** Lines 136-148: the payload, from [--json], else from the file of
    [--file], else the sample. *)
Definition cli_payload (args : arguments) (p : process) : (failure + pyval) * process :=
  match truthy (json_str args) with
  | Some text => (inr (PStr text), p)
  | None =>
      match truthy (file_path args) with
      | Some path =>
          let p' := {| the_world := the_world p; files := files p;
                       printable := printable p;
                       opened := opened p ++ [path]; stdout := stdout p |} in
          match files p path with
          | Some text => (inr (PStr text), p')
          | None => (inl (FileFailure path), p')
          end
      | None => (inr sample_application, p)
      end
  end.

(** Lines 131-150, given what [parse_args] does. *)
Definition main (command_line : parse_result) (p : process) : option failure * process :=
  match command_line with
  | Exited status printed =>
      (Some (SystemExit status),
       {| the_world := the_world p; files := files p; printable := printable p;
          opened := opened p; stdout := stdout p ++ printed |})
  | Parsed args =>
      match __init__ (model_option args) default_temperature (the_world p) with
      | (Raise e, w) =>
          (Some (Uncaught e),
           {| the_world := w; files := files p; printable := printable p;
              opened := opened p; stdout := stdout p |})
      | (Ok agent, w) =>
          match cli_payload args
                  {| the_world := w; files := files p; printable := printable p;
                     opened := opened p; stdout := stdout p |} with
          | (inl f, p1) => (Some f, p1)
          | (inr payload, p1) =>
              match generate_report agent payload (the_world p1) with
              | (Raise e, w') =>
                  (Some (Uncaught e),
                   {| the_world := w'; files := files p1; printable := printable p1;
                      opened := opened p1; stdout := stdout p1 |})
              | (Ok report, w') =>
                  if printable p1 report then                    (* [print(report)] *)
                    (None,
                     {| the_world := w'; files := files p1; printable := printable p1;
                        opened := opened p1; stdout := stdout p1 ++ [report ++ [NL]] |})
                  else
                    (Some (PrintFailure report),
                     {| the_world := w'; files := files p1; printable := printable p1;
                        opened := opened p1; stdout := stdout p1 |})
              end
          end
      end
  end.

(** The payload that the script gives to the agent, when it has read
    its file. *)
Definition selected_input (args : arguments) (p : process) : option pyval :=
  match truthy (json_str args) with
  | Some text => Some (PStr text)
  | None =>
      match truthy (file_path args) with
      | Some path => option_map PStr (files p path)
      | None => Some sample_application
      end
  end.

(** The files the script reads for its arguments. *)
Definition source_files (args : arguments) : list pystr :=
  match truthy (json_str args), truthy (file_path args) with
  | Some _, _ => []
  | None, Some path => [path]
  | None, None => []
  end.

(** The configuration error of [__init__]. *)
Definition credential_error : failure :=
  Uncaught (RuntimeError
              (str "GEMINI_API_KEY not set. Add it to your environment or .env")).

End Cli.

(** A process for the examples: the credential in the environment, one file,
    a service that answers, a standard output that takes every text. *)
Definition sample_process : @process text_floats :=
  {| the_world := doubly_configured (str "env-key");
     files := fun path => if decide (path = str "app.json") then Some (str "{}") else None;
     printable := fun _ => true;
     opened := []; stdout := [] |}.

Definition offline_process : @process text_floats :=
  {| the_world := answering None;
     files := fun path => if decide (path = str "app.json") then Some (str "{}") else None;
     printable := fun _ => true;
     opened := []; stdout := [] |}.

(** ** The field names of the records *)

Definition Employment_fields : list string :=
  ["employer_name"; "start_date"; "pay_frequency"; "annual_salary_claimed"]%string.

Definition PaystubItem_fields : list string :=
  ["net_pay"; "ytd_gross"; "ytd_net"; "employer_name_on_stub"; "hours";
   "taxes_withheld"]%string.

Definition DocumentEvidence_fields : list string :=
  ["doc_type"; "issuer"; "id_number_masked"; "issued_on"; "name_on_doc";
   "address_on_doc"]%string.

Definition ApplicantProfile_fields : list string :=
  ["first_name"; "last_name"; "dob"; "ssn_last4"; "email"; "phone"; "address_line1";
   "address_city"; "address_state"; "address_postal_code"; "employment"; "paystubs";
   "documents"]%string.

(** Data for a profile with an employment, no paystub and one document. *)
Definition sample_profile_data : gmap pystr (@pyval text_floats) :=
  <[str "first_name" := PStr (str "Jane")]>
  (<[str "last_name" := PStr (str "Doe")]>
  (<[str "employment" :=
       PDict [(PStr (str "employer_name"), PStr (str "Acme Corp"));
              (PStr (str "pay_frequency"), PStr (str "biweekly"))]]>
  (<[str "documents" := PTuple [PDict [(PStr (str "doc_type"), PStr (str "w2"))]]]> ∅))).

(** * Properties *)

(** ** Strings *)

Section StringFacts.

Lemma startswith_spec (p s : pystr) :
  startswith p s = true <-> exists r, s = p ++ r.
Proof.
  revert s. induction p as [|a p IH]; intros s; simpl.
  - split; [intros _; by exists s | done].
  - destruct s as [|b s].
    + split; [done | intros [r Hr]; discriminate].
    + rewrite andb_true_iff, N.eqb_eq, IH. split.
      * intros [-> [r ->]]. by exists r.
      * intros [r Hr]. injection Hr as -> ->. eauto.
Qed.

Lemma contains_spec (needle hay : pystr) :
  contains needle hay = true <-> exists a b, hay = a ++ needle ++ b.
Proof.
  induction hay as [|c hay IH]; simpl.
  - rewrite orb_false_r, startswith_spec. split.
    + intros [r Hr]. by exists [], r.
    + intros [a [b Hab]]. destruct a; [by exists b | discriminate].
  - rewrite orb_true_iff, startswith_spec, IH. split.
    + intros [[r Hr] | [a [b Hab]]].
      * by exists [], r.
      * exists (c :: a), b. by rewrite Hab.
    + intros [a [b Hab]]. destruct a as [|x a].
      * left. by exists b.
      * right. injection Hab as _ ->. by exists a, b.
Qed.

Lemma contains_app (needle a b : pystr) : contains needle (a ++ needle ++ b) = true.
Proof. apply contains_spec. by exists a, b. Qed.

Lemma bool_eq_iff (x y : bool) : (x = true <-> y = true) -> x = y.
Proof. destruct x, y; intuition congruence. Qed.

Lemma contains_rev (needle hay : pystr) :
  contains (rev needle) (rev hay) = contains needle hay.
Proof.
  apply bool_eq_iff. rewrite !contains_spec. split.
  - intros [a [b Hab]]. exists (rev b), (rev a).
    apply (f_equal (@rev N)) in Hab.
    by rewrite rev_involutive, !rev_app_distr, rev_involutive, <- app_assoc in Hab.
  - intros [a [b ->]]. exists (rev b), (rev a).
    by rewrite !rev_app_distr, <- app_assoc.
Qed.

Lemma contains_lstrip (c : N) (needle s : pystr) :
  isspace c = false ->
  contains (c :: needle) (lstrip s) = contains (c :: needle) s.
Proof.
  intros Hc. induction s as [|x s IH]; [done|].
  cbn [lstrip]. destruct (isspace x) eqn:Hx; [|done].
  rewrite IH. cbn [contains startswith].
  destruct (N.eqb_spec c x) as [->|_]; [congruence | done].
Qed.

Lemma contains_rstrip (c : N) (needle s : pystr) :
  isspace c = false ->
  contains (needle ++ [c]) (rstrip s) = contains (needle ++ [c]) s.
Proof.
  intros Hc. unfold rstrip.
  rewrite <- (contains_rev (needle ++ [c]) s), <- contains_rev, rev_involutive.
  rewrite rev_app_distr. simpl. by apply contains_lstrip.
Qed.

(** A text that starts and ends with a character that is not white space
    occurs in [s.strip()] exactly when it occurs in [s]. *)
Lemma contains_strip (needle : pystr) (c d : N) (mid s : pystr) :
  needle = c :: mid ++ [d] -> isspace c = false -> isspace d = false ->
  contains needle (strip s) = contains needle s.
Proof.
  intros -> Hc Hd. unfold strip.
  rewrite (contains_rstrip d (c :: mid)) by done. by apply contains_lstrip.
Qed.

Lemma strip_nil : strip [] = [].
Proof. reflexivity. Qed.

End StringFacts.

(** ** The required sections *)

Section Sections.

Lemma has_section_strip (s : pystr) : has_section (strip s) = has_section s.
Proof.
  unfold has_section, REQUIRED_SECTIONS. cbn [existsb].
  rewrite (contains_strip (str "Identity Fraud Risk") 73 107 (str "dentity Fraud Ris") s) by done.
  rewrite (contains_strip (str "Paystub Fraud Risk") 80 107 (str "aystub Fraud Ris") s) by done.
  by rewrite (contains_strip (str "Overall Application Risk") 79 107 (str "verall Application Ris") s) by done.
Qed.

Lemma has_all_sections_strip (s : pystr) :
  has_all_sections (strip s) = has_all_sections s.
Proof.
  unfold has_all_sections, REQUIRED_SECTIONS. cbn [forallb].
  rewrite (contains_strip (str "Identity Fraud Risk") 73 107 (str "dentity Fraud Ris") s) by done.
  rewrite (contains_strip (str "Paystub Fraud Risk") 80 107 (str "aystub Fraud Ris") s) by done.
  by rewrite (contains_strip (str "Overall Application Risk") 79 107 (str "verall Application Ris") s) by done.
Qed.

Lemma or_empty_Some (text : pystr) : or_empty (Some text) = text.
Proof. by destruct text. Qed.

Lemma ensure_sections_eq (message_content : option pystr) :
  ensure_sections message_content =
  let content := strip (or_empty message_content) in
  if has_section content then content else wrap_sections content.
Proof.
  unfold ensure_sections, has_section. cbv zeta.
  by destruct (existsb _ REQUIRED_SECTIONS).
Qed.

Lemma wrap_sections_all (content : pystr) :
  has_all_sections (wrap_sections content) = true.
Proof.
  unfold has_all_sections, REQUIRED_SECTIONS, wrap_sections. cbn [forallb].
  rewrite !andb_true_iff.
  split; [|split; [|split; [|done]]]; apply contains_spec.
  - exists [].
    exists ([58; NL] ++ content ++ [NL; NL]
            ++ str "Paystub Fraud Risk:" ++ [NL] ++ str "(see analysis above)"
            ++ [NL; NL] ++ str "Overall Application Risk:" ++ [NL]
            ++ str "(see analysis above)" ++ [NL]).
    reflexivity.
  - exists (str "Identity Fraud Risk:" ++ [NL] ++ content ++ [NL; NL]).
    exists ([58; NL] ++ str "(see analysis above)"
            ++ [NL; NL] ++ str "Overall Application Risk:" ++ [NL]
            ++ str "(see analysis above)" ++ [NL]).
    rewrite <- !app_assoc. reflexivity.
  - exists (str "Identity Fraud Risk:" ++ [NL] ++ content ++ [NL; NL]
            ++ str "Paystub Fraud Risk:" ++ [NL] ++ str "(see analysis above)"
            ++ [NL; NL]).
    exists ([58; NL] ++ str "(see analysis above)" ++ [NL]).
    rewrite <- !app_assoc. reflexivity.
Qed.

Lemma wrap_sections_embeds (content : pystr) :
  contains content (wrap_sections content) = true.
Proof. unfold wrap_sections. rewrite (app_assoc _ [NL]). apply contains_app. Qed.

Lemma has_all_has_section (text : pystr) :
  has_all_sections text = true -> has_section text = true.
Proof.
  unfold has_all_sections, has_section, REQUIRED_SECTIONS. cbn [forallb existsb].
  rewrite !andb_true_iff. intros [-> _]. done.
Qed.

End Sections.

(** ** The string encoder and [scanstring] *)

Import json.

Ltac euclid := zify; Z.to_euclidean_division_equations; lia.

(** Decide the comparisons of code points that occur in the goal. *)
Ltac cmp :=
  repeat match goal with
  | |- context [N.eqb ?a ?b] => destruct (N.eqb_spec a b)
  | |- context [N.leb ?a ?b] => destruct (N.leb_spec a b)
  | |- context [N.ltb ?a ?b] => destruct (N.ltb_spec a b)
  | H : context [N.eqb ?a ?b] |- _ => destruct (N.eqb_spec a b)
  | H : context [N.leb ?a ?b] |- _ => destruct (N.leb_spec a b)
  | H : context [N.ltb ?a ?b] |- _ => destruct (N.ltb_spec a b)
  end; simpl in *; try lia; try done.

Section Strings.

Lemma hexval_hexdigit (d : N) : d < 16 -> hexval (hexdigit d) = Some d.
Proof.
  intros Hd. unfold hexval, hexdigit, is_digit.
  destruct (N.ltb_spec d 10); cmp; f_equal; lia.
Qed.

Lemma decode_hex4 (n : N) (rest : pystr) :
  n < 65536 -> decode_uXXXX (hex4 n ++ rest) = Ok (n, rest).
Proof.
  intros Hn. unfold hex4, decode_uXXXX. cbn [app].
  rewrite !hexval_hexdigit by (apply N.mod_upper_bound; lia).
  do 2 f_equal. rewrite !N.shiftr_div_pow2.
  change (2 ^ 12) with 4096. change (2 ^ 8) with 256. change (2 ^ 4) with 16.
  euclid.
Qed.

Lemma lor_add (a b : N) : b < 1024 -> N.lor (a * 1024) b = a * 1024 + b.
Proof.
  intros Hb. rewrite <- N.lxor_lor, <- N.add_nocarry_lxor; trivial;
    apply N.bits_inj; intros m; rewrite N.land_spec, N.bits_0;
    change 1024 with (2 ^ 10);
    (destruct (N.lt_ge_cases m 10);
     [ by rewrite N.mul_pow2_bits_low
     | rewrite <- (N.mod_small b (2 ^ 10)) by done;
       by rewrite N.mod_pow2_bits_high, andb_false_r ]).
Qed.


Lemma surrogate_pair (c : N) :
  65536 <= c <= 1114111 ->
  let n := c - 65536 in
  let s1 := N.lor 55296 (N.land (N.shiftr n 10) 1023) in
  let s2 := N.lor 56320 (N.land n 1023) in
  is_high s1 = true /\ is_low s2 = true /\
  65536 + N.lor (N.shiftl (s1 - 55296) 10) (s2 - 56320) = c.
Proof.
  intros Hc n s1 s2.
  assert (Hs1 : s1 = 55296 + n / 1024).
  { unfold s1. change 1023 with (N.ones 10). rewrite N.land_ones, N.shiftr_div_pow2.
    change (2 ^ 10) with 1024. change 55296 with (54 * 1024).
    rewrite lor_add by (apply N.mod_upper_bound; lia).
    f_equal. apply N.mod_small. unfold n. euclid. }
  assert (Hs2 : s2 = 56320 + n mod 1024).
  { unfold s2. change 1023 with (N.ones 10). rewrite N.land_ones.
    change (2 ^ 10) with 1024. change 56320 with (55 * 1024).
    apply lor_add. apply N.mod_upper_bound; lia. }
  assert (n / 1024 < 1024) by (unfold n; euclid).
  assert (n mod 1024 < 1024) by (apply N.mod_upper_bound; lia).
  split; [|split].
  - rewrite Hs1. unfold is_high. cmp; euclid.
  - rewrite Hs2. unfold is_low. cmp; euclid.
  - rewrite Hs1, Hs2, N.shiftl_mul_pow2. change (2 ^ 10) with 1024.
    replace (55296 + n / 1024 - 55296) with (n / 1024) by euclid.
    replace (56320 + n mod 1024 - 56320) with (n mod 1024) by euclid.
    rewrite lor_add by done. unfold n. euclid.
Qed.

Lemma scan_quote (fuel : nat) (rest chunks : pystr) :
  scanstring (S fuel) (QUOTE :: rest) chunks = Some (Ok (chunks, rest)).
Proof. reflexivity. Qed.

Lemma scan_plain (fuel : nat) (c : N) (s chunks : pystr) :
  c <> QUOTE -> 32 <= c -> c <> BACKSLASH ->
  scanstring (S fuel) (c :: s) chunks = scanstring fuel s (chunks ++ [c]).
Proof. intros. cbn [scanstring]. unfold QUOTE, BACKSLASH in *. cmp. Qed.

Lemma scan_named (fuel : nat) (esc char : N) (s chunks : pystr) :
  esc <> 117 -> unescape esc = Some char ->
  scanstring (S fuel) (BACKSLASH :: esc :: s) chunks =
  scanstring fuel s (chunks ++ [char]).
Proof.
  intros Hne Hesc. cbn [scanstring]. rewrite Hesc.
  destruct (N.eqb_spec esc 117); done.
Qed.

Lemma scan_u (fuel : nat) (s chunks : pystr) :
  scanstring (S fuel) (BACKSLASH :: 117 :: s) chunks =
  match decode_uXXXX s with
  | Raise e => Some (Raise e)
  | Ok (uni, t2) =>
      if is_high uni && startswith [BACKSLASH; 117] t2
      then
        match decode_uXXXX (drop 2 t2) with
        | Raise e => Some (Raise e)
        | Ok (uni2, t3) =>
            if is_low uni2 then
              scanstring fuel t3
                (chunks ++ [65536 + N.lor (N.shiftl (uni - 55296) 10) (uni2 - 56320)])
            else scanstring fuel t2 (chunks ++ [uni])
        end
      else scanstring fuel t2 (chunks ++ [uni])
  end.
Proof. reflexivity. Qed.

Lemma startswith_u_escape (d : N) (s : pystr) :
  startswith [BACKSLASH; 117] (u_escape d ++ s) = true.
Proof. reflexivity. Qed.

Lemma drop_u_escape (d : N) (s : pystr) : drop 2 (u_escape d ++ s) = hex4 d ++ s.
Proof. reflexivity. Qed.

Lemma scan_u_lone (fuel : nat) (c : N) (s chunks : pystr) :
  c < 65536 ->
  is_high c = false \/ startswith [BACKSLASH; 117] s = false \/
  (exists d s', s = u_escape d ++ s' /\ d < 65536 /\ is_low d = false) ->
  scanstring (S fuel) (u_escape c ++ s) chunks = scanstring fuel s (chunks ++ [c]).
Proof.
  intros Hc Hnext. change (u_escape c ++ s) with (BACKSLASH :: 117 :: hex4 c ++ s).
  rewrite scan_u, decode_hex4 by done.
  destruct Hnext as [-> | [-> | (d & s' & -> & Hd & Hlow)]].
  - done.
  - by rewrite andb_false_r.
  - destruct (is_high c); [|done].
    rewrite startswith_u_escape, drop_u_escape, decode_hex4 by done.
    cbn [andb]. by rewrite Hlow.
Qed.

Lemma scan_u_pair (fuel : nat) (c d : N) (s chunks : pystr) :
  is_high c = true -> is_low d = true ->
  scanstring (S fuel) (u_escape c ++ u_escape d ++ s) chunks =
  scanstring fuel s
    (chunks ++ [65536 + N.lor (N.shiftl (c - 55296) 10) (d - 56320)]).
Proof.
  intros Hc Hd.
  assert (c < 65536) by (unfold is_high in Hc; cmp).
  assert (d < 65536) by (unfold is_low in Hd; cmp).
  change (u_escape c ++ u_escape d ++ s)
    with (BACKSLASH :: 117 :: hex4 c ++ u_escape d ++ s).
  rewrite scan_u, decode_hex4 by done.
  rewrite Hc, startswith_u_escape, drop_u_escape, decode_hex4 by done.
  cbn [andb]. by rewrite Hd.
Qed.

(** One encoded code point, read back. *)
Lemma scan_escape_char (fuel : nat) (c : N) (s chunks : pystr) :
  c <= 1114111 -> is_high c = false ->
  scanstring (S fuel) (escape_char c ++ s) chunks = scanstring fuel s (chunks ++ [c]).
Proof.
  intros Hc Hhigh. unfold escape_char, QUOTE, BACKSLASH.
  destruct (N.eqb_spec c 92) as [->|]; [by apply scan_named|].
  destruct (N.eqb_spec c 34) as [->|]; [by apply scan_named|].
  destruct (N.eqb_spec c 8) as [->|]; [by apply scan_named|].
  destruct (N.eqb_spec c 12) as [->|]; [by apply scan_named|].
  destruct (N.eqb_spec c 10) as [->|]; [by apply scan_named|].
  destruct (N.eqb_spec c 13) as [->|]; [by apply scan_named|].
  destruct (N.eqb_spec c 9) as [->|]; [by apply scan_named|].
  destruct (N.leb_spec 32 c); cbn [andb].
  - destruct (N.leb_spec c 126).
    + by apply scan_plain.
    + destruct (N.ltb_spec c 65536); [apply scan_u_lone; auto|].
      destruct (surrogate_pair c) as (Hp1 & Hp2 & Hp3); [lia|].
      rewrite <- app_assoc, scan_u_pair by done. by rewrite Hp3.
  - destruct (N.ltb_spec c 65536); [|lia]. apply scan_u_lone; auto.
Qed.

Lemma escape_char_surrogate (c : N) :
  is_high c = true \/ is_low c = true -> escape_char c = u_escape c.
Proof. unfold is_high, is_low, escape_char, QUOTE, BACKSLASH. intros [?|?]; cmp. Qed.

(** What follows a high surrogate that is not joined with its successor. *)
Lemma escape_char_not_low (d : N) (s : pystr) :
  d <= 1114111 -> is_low d = false ->
  startswith [BACKSLASH; 117] (escape_char d ++ s) = false \/
  (exists d' s', escape_char d ++ s = u_escape d' ++ s' /\ d' < 65536 /\ is_low d' = false).
Proof.
  intros Hd Hlow. unfold escape_char, QUOTE, BACKSLASH.
  destruct (N.eqb_spec d 92) as [->|]; [by left|].
  destruct (N.eqb_spec d 34) as [->|]; [by left|].
  destruct (N.eqb_spec d 8) as [->|]; [by left|].
  destruct (N.eqb_spec d 12) as [->|]; [by left|].
  destruct (N.eqb_spec d 10) as [->|]; [by left|].
  destruct (N.eqb_spec d 13) as [->|]; [by left|].
  destruct (N.eqb_spec d 9) as [->|]; [by left|].
  assert (Hpair : 65536 <= d -> exists d' s',
    (u_escape (N.lor 55296 (N.land (N.shiftr (d - 65536) 10) 1023))
     ++ u_escape (N.lor 56320 (N.land (d - 65536) 1023))) ++ s = u_escape d' ++ s'
    /\ d' < 65536 /\ is_low d' = false).
  { intros Hge. destruct (surrogate_pair d) as (Hp1 & Hp2 & Hp3); [lia|].
    eexists _, _. rewrite <- app_assoc. split; [reflexivity|].
    unfold is_high, is_low in *. cmp. }
  destruct (N.leb_spec 32 d); cbn [andb].
  - destruct (N.leb_spec d 126).
    + left. cbn [app startswith]. destruct (N.eqb_spec 92 d); [lia|done].
    + right. destruct (N.ltb_spec d 65536); [by exists d, s | auto].
  - right. destruct (N.ltb_spec d 65536); [by exists d, s | auto].
Qed.

Lemma length_escape_char (c : N) : (1 <= length (escape_char c))%nat.
Proof. unfold escape_char. cmp; cbn; lia. Qed.

(** [scanstring] reads the encoding of [s] back as [join_surrogates s]. *)
Lemma valid_str_cons (c : N) (s : pystr) :
  valid_str (c :: s) = true <-> c <= 1114111 /\ valid_str s = true.
Proof. unfold valid_str. cbn [forallb]. by rewrite andb_true_iff, N.leb_le. Qed.

Lemma scanstring_encoded (s : pystr) :
  valid_str s = true ->
  forall (fuel : nat) (rest chunks : pystr),
    (length (flat_map escape_char s) < fuel)%nat ->
    scanstring fuel (flat_map escape_char s ++ QUOTE :: rest) chunks =
    Some (Ok (chunks ++ join_surrogates s, rest)).
Proof.
  remember (length s) as n eqn:Hn. revert s Hn.
  induction n as [n IH] using lt_wf_ind. intros s -> Hvalid fuel rest chunks Hfuel.
  destruct s as [|c t].
  - destruct fuel; [cbn in Hfuel; lia|]. cbn [flat_map app join_surrogates].
    by rewrite scan_quote, app_nil_r.
  - apply valid_str_cons in Hvalid as [Hc Ht].
    cbn [flat_map] in *. rewrite length_app in Hfuel.
    pose proof (length_escape_char c).
    destruct fuel as [|fuel]; [lia|]. rewrite <- app_assoc.
    destruct (is_high c) eqn:Hhigh.
    + rewrite (escape_char_surrogate c) in * by auto.
      destruct t as [|d t'].
      * cbn [flat_map app join_surrogates].
        rewrite scan_u_lone by (unfold is_high in Hhigh; cmp; auto).
        destruct fuel; [cbn in Hfuel; lia|].
        rewrite scan_quote. by rewrite <- ?app_assoc.
      * pose proof Ht as Hdt. apply valid_str_cons in Ht as [Hd Ht'].
        cbn [flat_map join_surrogates] in *. rewrite Hhigh. cbn [andb].
        rewrite length_app in Hfuel. rewrite <- app_assoc.
        destruct (is_low d) eqn:Hlow.
        -- rewrite (escape_char_surrogate d) in * by auto.
           rewrite scan_u_pair by done.
           rewrite (IH (length t')) by (cbn; done || lia).
           by rewrite <- ?app_assoc.
        -- rewrite scan_u_lone.
           ++ rewrite app_assoc.
              rewrite (IH (length (d :: t')) ltac:(cbn; lia) (d :: t') eq_refl)
                by (cbn [flat_map]; rewrite ?length_app; done || lia).
              by rewrite <- ?app_assoc.
           ++ unfold is_high in Hhigh. cmp.
           ++ right. by apply escape_char_not_low.
    + rewrite scan_escape_char by done.
      rewrite (IH (length t)) by (cbn; done || lia).
      rewrite <- app_assoc. cbn [app join_surrogates].
      destruct t as [|d t']; [done|]. by rewrite Hhigh.
Qed.

End Strings.

(** ** Integers *)

Section Integers.

Lemma uint_of_digits_uint_digits (u : Decimal.uint) :
  uint_of_digits (uint_digits u) = u.
Proof. induction u; cbn; by f_equal. Qed.

Lemma span_digits_uint (u : Decimal.uint) (rest : pystr) :
  number_end rest = true ->
  span_digits (uint_digits u ++ rest) = (uint_digits u, rest).
Proof.
  intros Hrest. induction u; cbn; try (by rewrite IHu).
  destruct rest as [|c t]; [done|]. cbn in *.
  destruct (is_digit c); [done | done].
Qed.

Lemma to_uint_head (p : positive) :
  exists c ds, uint_digits (Pos.to_uint p) = c :: ds /\ 49 <= c <= 57.
Proof.
  assert (Hnorm : Decimal.unorm (Pos.to_uint p) = Pos.to_uint p).
  { rewrite <- (DecimalN.Unsigned.to_of (Pos.to_uint p)).
    unfold N.of_uint. by rewrite DecimalPos.Unsigned.of_to. }
  pose proof (DecimalPos.Unsigned.to_uint_nonzero p) as Hnz.
  pose proof (DecimalFacts.nzhead_nonzero (Pos.to_uint p)) as Hhead.
  unfold Decimal.unorm in Hnorm.
  destruct (Decimal.nzhead (Pos.to_uint p)) eqn:Hnzhead;
    try (rewrite <- Hnorm; cbn; eexists _, _; split; [reflexivity | lia]).
  - congruence.
  - by destruct (Hhead u).
Qed.

Lemma int_of_str_int_repr (z : Z) : int_of_str (int_repr z) = z.
Proof.
  rewrite <- (DecimalZ.of_to z) at 2. unfold int_repr, Z.to_int.
  destruct z as [|p|p]; [done| |].
  - destruct (to_uint_head p) as (c & ds & Heq & Hc).
    unfold int_of_str. rewrite Heq. destruct (N.eqb_spec c 45); [lia|].
    by rewrite <- Heq, uint_of_digits_uint_digits.
  - cbn [int_of_str N.eqb Pos.eqb]. by rewrite uint_of_digits_uint_digits.
Qed.

Lemma match_frac_end (rest : pystr) :
  number_end rest = true -> match_frac rest = ([], rest).
Proof.
  destruct rest as [|c t]; [done|]. cbn.
  destruct (is_digit c), (N.eqb_spec c 46); done.
Qed.

Lemma match_exp_end (rest : pystr) :
  number_end rest = true -> match_exp rest = ([], rest).
Proof.
  destruct rest as [|c t]; [done|]. cbn.
  destruct (is_digit c), (c =? 46), (c =? 101), (c =? 69); done.
Qed.

Lemma match_integer_int_repr (z : Z) (rest : pystr) :
  number_end rest = true ->
  match_integer (int_repr z ++ rest) = Some (int_repr z, rest).
Proof.
  intros Hrest. unfold int_repr, Z.to_int. destruct z as [|p|p]; [done| |];
    destruct (to_uint_head p) as (c & ds & Heq & Hc);
    pose proof (span_digits_uint (Pos.to_uint p) rest Hrest) as Hspan;
    unfold match_integer; rewrite Heq in *;
    cbn [app span_digits N.eqb Pos.eqb] in *.
  - destruct (N.eqb_spec c 45); [lia|]. destruct (N.eqb_spec c 48); [lia|].
    destruct (is_digit c) eqn:Hdig; [|unfold is_digit in Hdig; cmp].
    destruct (span_digits (ds ++ rest)) as [ds' r]. by injection Hspan as -> ->.
  - destruct (N.eqb_spec c 48); [lia|].
    destruct (is_digit c) eqn:Hdig; [|unfold is_digit in Hdig; cmp].
    destruct (span_digits (ds ++ rest)) as [ds' r]. by injection Hspan as -> ->.
Qed.

Lemma match_number_int_repr (z : Z) (rest : pystr) :
  number_end rest = true ->
  match_number (int_repr z ++ rest) = Some (int_repr z, [], [], rest).
Proof.
  intros Hrest. unfold match_number.
  by rewrite match_integer_int_repr, match_frac_end, match_exp_end.
Qed.

(** The groups of [NUMBER_RE] on a text that is followed by more text. *)

Lemma span_digits_app (a rest : pystr) :
  number_end rest = true ->
  span_digits (a ++ rest) = (fst (span_digits a), snd (span_digits a) ++ rest).
Proof.
  intros Hrest. induction a as [|c a IH]; cbn [app span_digits].
  - destruct rest as [|d t]; [done|]. cbn in *. by destruct (is_digit d).
  - destruct (is_digit c); [|done]. rewrite IH. by destruct (span_digits a).
Qed.

Lemma span_digits_text (a : pystr) : a = fst (span_digits a) ++ snd (span_digits a).
Proof.
  induction a as [|c a IH]; [done|]. cbn [span_digits].
  destruct (is_digit c); [|done]. destruct (span_digits a) as [ds r]. cbn in *.
  by rewrite <- IH.
Qed.

Lemma match_integer_app (s i s2 rest : pystr) :
  number_end rest = true -> match_integer s = Some (i, s2) ->
  match_integer (s ++ rest) = Some (i, s2 ++ rest).
Proof.
  intros Hrest.
  assert (Hgen : forall (sign s1 : pystr),
    match s1 with
    | c :: t =>
        if c =? 48 then Some (sign ++ [c], t)
        else if is_digit c then
          let (ds, r) := span_digits t in Some (sign ++ c :: ds, r)
        else None
    | [] => None
    end = Some (i, s2) ->
    match s1 ++ rest with
    | c :: t =>
        if c =? 48 then Some (sign ++ [c], t)
        else if is_digit c then
          let (ds, r) := span_digits t in Some (sign ++ c :: ds, r)
        else None
    | [] => None
    end = Some (i, s2 ++ rest)).
  { intros sign [|c t]; [done|]. cbn [app].
    destruct (c =? 48); [by intros [= <- <-]|].
    destruct (is_digit c); [|done].
    rewrite span_digits_app by done. destruct (span_digits t) as [ds r].
    by intros [= <- <-]. }
  unfold match_integer. destruct s as [|c t]; [done|]. cbn [app].
  destruct (c =? 45); [apply (Hgen [c] t) | apply (Hgen [] (c :: t))].
Qed.

Lemma match_integer_text (s i s2 : pystr) :
  match_integer s = Some (i, s2) -> s = i ++ s2.
Proof.
  assert (Hgen : forall (sign s1 : pystr),
    match s1 with
    | c :: t =>
        if c =? 48 then Some (sign ++ [c], t)
        else if is_digit c then
          let (ds, r) := span_digits t in Some (sign ++ c :: ds, r)
        else None
    | [] => None
    end = Some (i, s2) -> sign ++ s1 = i ++ s2).
  { intros sign [|c t]; [done|].
    destruct (c =? 48); [intros [= <- <-]; by rewrite <- app_assoc|].
    destruct (is_digit c); [|done].
    pose proof (span_digits_text t) as Ht. destruct (span_digits t) as [ds r].
    intros [= <- <-]. cbn in Ht. rewrite <- app_assoc. cbn [app]. by rewrite <- Ht. }
  unfold match_integer. destruct s as [|c t]; [done|].
  destruct (c =? 45); [apply (Hgen [c] t) | apply (Hgen [] (c :: t))].
Qed.

Lemma match_integer_head (c : N) (s i s2 : pystr) :
  match_integer (c :: s) = Some (i, s2) -> is_digit c || (c =? 45) = true.
Proof.
  unfold match_integer. destruct (N.eqb_spec c 45) as [->|]; [done|].
  destruct (N.eqb_spec c 48) as [->|]; [done|].
  by destruct (is_digit c).
Qed.

Lemma match_frac_app (s rest : pystr) :
  number_end rest = true ->
  match_frac (s ++ rest) = (fst (match_frac s), snd (match_frac s) ++ rest).
Proof.
  intros Hrest. destruct s as [|c t]; [by rewrite match_frac_end|].
  cbn [app match_frac]. destruct (c =? 46); [|done].
  rewrite span_digits_app by done. by destruct (span_digits t) as [[|d ds] r].
Qed.

Lemma match_frac_text (s : pystr) : s = fst (match_frac s) ++ snd (match_frac s).
Proof.
  destruct s as [|c t]; [done|]. cbn [match_frac]. destruct (c =? 46); [|done].
  pose proof (span_digits_text t) as Ht.
  destruct (span_digits t) as [[|d ds] r]; [done|]. cbn in *. by rewrite <- Ht.
Qed.

Lemma match_exp_app (s e rest : pystr) :
  number_end rest = true -> match_exp s = (e, []) ->
  match_exp (s ++ rest) = (e, rest).
Proof.
  intros Hrest. destruct s as [|c t]; [intros [= <-]; by apply match_exp_end|].
  cbn [app match_exp]. destruct ((c =? 101) || (c =? 69)); [|done].
  assert (Hgen : forall (esign t' : pystr),
    match span_digits t' with
    | ([], _) => ([], c :: t)
    | (ds, r) => (c :: esign ++ ds, r)
    end = (e, []) ->
    match span_digits (t' ++ rest) with
    | ([], _) => ([], c :: t ++ rest)
    | (ds, r) => (c :: esign ++ ds, r)
    end = (e, rest)).
  { intros esign t'. rewrite span_digits_app by done.
    destruct (span_digits t') as [[|d ds] r]; [done|]. by intros [= <- ->]. }
  destruct t as [|d u]; [done|]. cbn [app].
  destruct ((d =? 45) || (d =? 43)); [apply (Hgen [d] u) | apply (Hgen [] (d :: u))].
Qed.

Lemma match_exp_text (s : pystr) : s = fst (match_exp s) ++ snd (match_exp s).
Proof.
  destruct s as [|c t]; [done|]. cbn [match_exp].
  destruct ((c =? 101) || (c =? 69)); [|done].
  assert (Hgen : forall (esign t' : pystr), t = esign ++ t' ->
    c :: t =
    fst match span_digits t' with
        | ([], _) => ([], c :: t)
        | (ds, r) => (c :: esign ++ ds, r)
        end ++
    snd match span_digits t' with
        | ([], _) => ([], c :: t)
        | (ds, r) => (c :: esign ++ ds, r)
        end).
  { intros esign t' ->. pose proof (span_digits_text t') as Ht.
    destruct (span_digits t') as [[|d ds] r]; [done|]. cbn in *.
    rewrite <- app_assoc. cbn [app]. by rewrite <- Ht. }
  destruct t as [|d u]; [done|].
  destruct ((d =? 45) || (d =? 43)); [by apply (Hgen [d] u) | by apply (Hgen [] (d :: u))].
Qed.

(** A text that [NUMBER_RE] matches to its end is matched in the same way
    when it is followed by a text that does not continue a number. *)
Lemma match_number_app (text integer frac exp rest : pystr) :
  number_end rest = true ->
  match_number text = Some (integer, frac, exp, []) ->
  match_number (text ++ rest) = Some (integer, frac, exp, rest) /\
  text = integer ++ frac ++ exp.
Proof.
  intros Hrest. unfold match_number.
  destruct (match_integer text) as [[i s2]|] eqn:Hi; [|done].
  rewrite (match_integer_app _ _ _ _ Hrest Hi).
  apply match_integer_text in Hi.
  rewrite match_frac_app by done. pose proof (match_frac_text s2) as Hf.
  destruct (match_frac s2) as [f s3]. cbn [fst snd] in *.
  pose proof (match_exp_text s3) as He.
  destruct (match_exp s3) as [e s4] eqn:Hexp. cbn [fst snd] in *.
  intros [= <- <- <- ->]. rewrite (match_exp_app _ _ _ Hrest Hexp).
  split; [done|]. rewrite Hi, Hf, He. by rewrite app_nil_r.
Qed.

Lemma match_number_head (c : N) (s integer frac exp rest : pystr) :
  match_number (c :: s) = Some (integer, frac, exp, rest) ->
  is_digit c || (c =? 45) = true.
Proof.
  unfold match_number.
  destruct (match_integer (c :: s)) as [[i s2]|] eqn:Hi; [|done].
  intros _. by eapply match_integer_head.
Qed.

End Integers.

(** ** Values *)

Section Values.
Context `{FloatOps} {limits : Interpreter}.

Lemma pyval_nested_ind (P : pyval -> Prop) :
  P PNone -> (forall b, P (PBool b)) -> (forall z, P (PInt z)) ->
  (forall f, P (PFloat f)) -> (forall s, P (PStr s)) ->
  (forall items, Forall P items -> P (PList items)) ->
  (forall items, Forall P items -> P (PTuple items)) ->
  (forall items, Forall (fun kv => P (snd kv)) items -> P (PDict items)) ->
  (forall cls text, P (PObject cls text)) ->
  forall v, P v.
Proof.
  intros HNone HBool HInt HFloat HStr HList HTuple HDict HObject.
  fix IH 1. intros [| b | z | f | s | items | items | items | cls text];
    [ apply HNone | apply HBool | apply HInt | apply HFloat | apply HStr
    | apply HList | apply HTuple | apply HDict | apply HObject ].
  - induction items as [|v items IHitems]; constructor; [apply IH | apply IHitems].
  - induction items as [|v items IHitems]; constructor; [apply IH | apply IHitems].
  - induction items as [|[k v] items IHitems]; constructor; [apply IH | apply IHitems].
Qed.

(** Unfolding [scan_once] and its loops. *)

Lemma scan_once_string (fuel room : nat) (s : pystr) :
  scan_once (S fuel) room (QUOTE :: s) = lift PStr (scanstring (S (length s)) s []).
Proof. reflexivity. Qed.

Lemma scan_once_object (fuel room : nat) (s : pystr) :
  scan_once (S fuel) (S room) (123 :: s) = JSONObject fuel room s.
Proof. reflexivity. Qed.

Lemma scan_once_array (fuel room : nat) (s : pystr) :
  scan_once (S fuel) (S room) (91 :: s) = JSONArray fuel room s.
Proof. reflexivity. Qed.

Lemma scan_once_cons (fuel room : nat) (c : N) (s : pystr) :
  scan_once (S fuel) room (c :: s) =
  (if c =? QUOTE then lift PStr (scanstring (S (length s)) s [])
     else if c =? 123 then
       match room with
       | O => Some (Raise RecursionError)
       | S room => JSONObject fuel room s
       end
     else if c =? 91 then
       match room with
       | O => Some (Raise RecursionError)
       | S room => JSONArray fuel room s
       end
     else if startswith (str "null") (c :: s) then Some (Ok (PNone, drop 4 (c :: s)))
     else if startswith (str "true") (c :: s) then Some (Ok (PBool true, drop 4 (c :: s)))
     else if startswith (str "false") (c :: s) then Some (Ok (PBool false, drop 5 (c :: s)))
     else
       match match_number (c :: s) with
       | Some (integer, frac, exp, rest) =>
           match frac, exp with
           | [], [] =>
               match str_to_int integer with
               | Ok z => Some (Ok (PInt z, rest))
               | Raise e => Some (Raise e)
               end
           | _, _ => Some (Ok (PFloat (float_of_str (integer ++ frac ++ exp)), rest))
           end
       | None =>
           if startswith (str "NaN") (c :: s)
           then Some (Ok (PFloat (float_of_str (str "NaN")), drop 3 (c :: s)))
           else if startswith (str "Infinity") (c :: s)
           then Some (Ok (PFloat (float_of_str (str "Infinity")), drop 8 (c :: s)))
           else if startswith (str "-Infinity") (c :: s)
           then Some (Ok (PFloat (float_of_str (str "-Infinity")), drop 9 (c :: s)))
           else Some (Raise JSONDecodeError)
       end).
Proof. reflexivity. Qed.

Lemma startswith_other (lit : pystr) (c : N) (s : pystr) :
  match lit with d :: _ => c <> d | [] => False end ->
  startswith lit (c :: s) = false.
Proof.
  destruct lit as [|d lit]; [done|]. intros Hne. cbn [startswith].
  destruct (N.eqb_spec d c); [by subst | done].
Qed.

(** A text that begins like a number is read by [NUMBER_RE]. *)
Lemma scan_once_number (fuel room : nat) (c : N) (s integer frac exp rest : pystr) :
  match_number (c :: s) = Some (integer, frac, exp, rest) ->
  scan_once (S fuel) room (c :: s) =
  match frac, exp with
  | [], [] =>
      match str_to_int integer with
      | Ok z => Some (Ok (PInt z, rest))
      | Raise e => Some (Raise e)
      end
  | _, _ => Some (Ok (PFloat (float_of_str (integer ++ frac ++ exp)), rest))
  end.
Proof.
  intros Hm. pose proof (match_number_head _ _ _ _ _ _ Hm) as Hc.
  assert (Hn : c <> 110 /\ c <> 116 /\ c <> 102 /\ c <> 34 /\ c <> 123 /\ c <> 91
               /\ c <> 78 /\ c <> 73).
  { unfold is_digit in Hc. cmp. }
  destruct Hn as (? & ? & ? & ? & ? & ? & ? & ?).
  rewrite scan_once_cons.
  unfold QUOTE.
  destruct (N.eqb_spec c 34); [done|]. destruct (N.eqb_spec c 123); [done|].
  destruct (N.eqb_spec c 91); [done|].
  rewrite !startswith_other by (cbn; lia).
  by rewrite Hm.
Qed.

Lemma scan_once_int_repr (fuel room : nat) (z : Z) (rest : pystr) :
  over_digit_limit (int_repr z) = false -> number_end rest = true ->
  scan_once (S fuel) room (int_repr z ++ rest) = Some (Ok (PInt z, rest)).
Proof.
  intros Hlimit Hrest. pose proof (match_number_int_repr z rest Hrest) as Hm.
  assert (Hhead : exists c t, int_repr z = c :: t).
  { unfold int_repr, Z.to_int. destruct z as [|p|p].
    - by eexists _, _.
    - destruct (to_uint_head p) as (c & ds & -> & Hc). by exists c, ds.
    - by eexists _, _. }
  destruct Hhead as (c & t & Heq). rewrite Heq in Hm |- *. cbn [app] in *.
  rewrite (scan_once_number _ _ _ _ _ _ _ _ Hm). rewrite <- Heq.
  unfold str_to_int. by rewrite Hlimit, int_of_str_int_repr.
Qed.

(** The text of a float that is read back. *)
Lemma float_text_start (text : pystr) : float_text text = true -> value_start text = true.
Proof.
  unfold float_text. repeat (case_decide; [by subst|]).
  destruct text as [|c s]; [done|].
  destruct (match_number (c :: s)) as [[[[i f] e] r]|] eqn:Hm; [|done]. intros _.
  apply match_number_head in Hm. unfold value_start, is_digit in *. cbn [existsb].
  cmp.
Qed.

Lemma scan_once_float (fuel room : nat) (f : pyfloat) (rest : pystr) :
  float_reads_back f -> number_end rest = true ->
  scan_once (S fuel) room (floatstr f ++ rest) = Some (Ok (PFloat f, rest)).
Proof.
  intros [Htext Hback] Hrest. rewrite <- Hback at 2. unfold float_text in Htext.
  case_decide as Hnan; [by rewrite Hnan|].
  case_decide as Hinf; [by rewrite Hinf|].
  case_decide as Hneg; [by rewrite Hneg|].
  destruct (match_number (floatstr f)) as [[[[i fr] e] r]|] eqn:Hm; [|done].
  assert (r = [] /\ (fr <> [] \/ e <> [])) as [-> Hfloat].
  { destruct fr, e, r; try done; (split; [done|]); by (left + right). }
  destruct (match_number_app _ _ _ _ rest Hrest Hm) as [Hread Hparts].
  destruct (floatstr f) as [|c s] eqn:Hf; [done|]. cbn [app] in *.
  rewrite (scan_once_number _ _ _ _ _ _ _ _ Hread). rewrite Hparts.
  destruct fr, e; try done.
Qed.

Lemma value_start_head (c : N) (t : pystr) :
  value_start (c :: t) = true -> is_ws c = false /\ c <> 93 /\ c <> 65279.
Proof.
  unfold value_start, is_digit, is_ws, existsb, QUOTE. intros Hc.
  repeat match goal with
  | H : context [N.eqb ?a ?b] |- _ => destruct (N.eqb_spec a b); [subst; by repeat split|]
  end.
  cmp.
Qed.

Lemma skip_ws_other (c : N) (s : pystr) :
  is_ws c = false -> skip_ws (c :: s) = c :: s.
Proof. intros Hc. cbn. by rewrite Hc. Qed.

Lemma skip_ws_ws (c : N) (s : pystr) : is_ws c = true -> skip_ws (c :: s) = skip_ws s.
Proof. intros Hc. cbn. by rewrite Hc. Qed.

Lemma skip_ws_value (text rest : pystr) :
  value_start text = true -> skip_ws (text ++ rest) = text ++ rest.
Proof.
  destruct text as [|c t]; [done|]. intros Hc.
  apply value_start_head in Hc as (Hws & _). by apply skip_ws_other.
Qed.

Lemma value_start_app (text rest : pystr) :
  value_start text = true -> value_start (text ++ rest) = true.
Proof. by destruct text. Qed.

Lemma valid_str_uint_digits (u : Decimal.uint) : valid_str (uint_digits u) = true.
Proof. induction u; done. Qed.

Lemma valid_str_int_repr (z : Z) : valid_str (int_repr z) = true.
Proof.
  unfold int_repr. destruct (Z.to_int z); [|cbn]; apply valid_str_uint_digits.
Qed.

Lemma value_start_int_repr (z : Z) : value_start (int_repr z) = true.
Proof.
  unfold int_repr, Z.to_int. destruct z as [|p|p]; [done| |done].
  destruct (to_uint_head p) as (c & ds & -> & Hc). unfold value_start, is_digit.
  destruct (N.leb_spec 48 c), (N.leb_spec c 57); done || lia.
Qed.

Lemma reads_back_string (s : pystr) (fuel room : nat) (rest : pystr) :
  valid_str s = true -> (1 <= fuel)%nat ->
  scan_once fuel room (encode_basestring_ascii s ++ rest) =
  Some (Ok (PStr (join_surrogates s), rest)).
Proof.
  intros Hs Hfuel. destruct fuel as [|fuel]; [lia|].
  unfold encode_basestring_ascii. cbn [app]. rewrite <- app_assoc. cbn [app].
  rewrite scan_once_string, scanstring_encoded; [done | done |].
  rewrite length_app. cbn. lia.
Qed.

Lemma JSONArray_loop_eq (fuel room : nat) (s : pystr) (values : list pyval) :
  JSONArray_loop (S fuel) room s values =
  match scan_once fuel room s with
  | None => None
  | Some (Raise e) => Some (Raise e)
  | Some (Ok (value, s1)) =>
      match skip_ws s1 with
      | [] => Some (Raise JSONDecodeError)
      | nextchar :: t =>
          if nextchar =? 93 then Some (Ok (PList (values ++ [value]), t))
          else if negb (nextchar =? 44) then Some (Raise JSONDecodeError)
          else JSONArray_loop fuel room (skip_ws t) (values ++ [value])
      end
  end.
Proof. reflexivity. Qed.

Lemma join_items_cons (r r2 : result pystr) (rest : list (result pystr)) :
  join_items (r :: r2 :: rest) =
  match r with
  | Raise e => Raise e
  | Ok a =>
      match join_items (r2 :: rest) with
      | Raise e => Raise e
      | Ok b => Ok (a ++ str ", " ++ b)
      end
  end.
Proof. reflexivity. Qed.

Lemma array_items_read (items : list pyval) :
  Forall reads_back items ->
  fold_right (fun x rest => readable x /\ rest) True items -> items <> [] ->
  exists body,
    (forall room : nat,
       (depths items <= room)%nat ->
       join_items (List.map (encode (Some builtin_str) room) items) = Ok body) /\
    value_start body = true /\
    forall (fuel room : nat) (rest : pystr) (values : list pyval),
      (3 * length body < fuel)%nat -> (depths items <= room)%nat ->
      JSONArray_loop fuel room (body ++ 93 :: rest) values =
      Some (Ok (PList (values ++ List.map json_image items), rest)).
Proof.
  induction 1 as [|v items Hv Hitems IH]; [done|]. intros Hreadable _.
  cbn [fold_right] in Hreadable. destruct Hreadable as [Hrv Hritems].
  destruct (Hv Hrv) as (text & Htext & Hstart & Hscan).
  destruct items as [|v2 items'].
  - exists text. cbn [List.map join_items depths fold_right].
    split; [intros room Hroom; apply Htext; lia|]. split; [done|].
    intros fuel room rest values Hfuel Hroom. destruct fuel as [|fuel]; [lia|].
    rewrite JSONArray_loop_eq, Hscan by (done || lia). done.
  - destruct (IH Hritems ltac:(done)) as (body & Hbody & Hbstart & Hloop).
    exists (text ++ str ", " ++ body).
    assert (Hdepths : depths (v :: v2 :: items') =
                      Nat.max (depth v) (depths (v2 :: items'))) by done.
    split; [|split; [by apply value_start_app|]].
    { intros room Hroom. rewrite Hdepths in Hroom.
      specialize (Hbody room ltac:(lia)).
      cbn [List.map] in Hbody |- *. rewrite join_items_cons, Htext, Hbody by lia. done. }
    intros fuel room rest values Hfuel Hroom. rewrite Hdepths in Hroom.
    rewrite !length_app in Hfuel. cbn in Hfuel.
    destruct fuel as [|fuel]; [lia|].
    rewrite <- !app_assoc. rewrite JSONArray_loop_eq, Hscan by (done || lia).
    change (str ", " ++ ?Y) with (44 :: 32 :: Y).
    rewrite (skip_ws_other 44) by done. cbn [N.eqb Pos.eqb negb].
    rewrite (skip_ws_ws 32), skip_ws_value by done.
    rewrite Hloop by lia. by rewrite <- app_assoc.
Qed.

Lemma JSONObject_loop_eq (fuel room : nat) (s : pystr) (pairs : list (pystr * pyval)) :
  JSONObject_loop (S fuel) room s pairs =
  match scanstring (S (length s)) s [] with
  | None => None
  | Some (Raise e) => Some (Raise e)
  | Some (Ok (key, s1)) =>
      match skip_ws s1 with
      | [] => Some (Raise JSONDecodeError)
      | colon :: s2 =>
          if negb (colon =? 58) then Some (Raise JSONDecodeError)
          else
            match scan_once fuel room (skip_ws s2) with
            | None => None
            | Some (Raise e) => Some (Raise e)
            | Some (Ok (value, s3)) =>
                match skip_ws s3 with
                | [] => Some (Raise JSONDecodeError)
                | nextchar :: t =>
                    if nextchar =? 125
                    then Some (Ok (PDict (dict_of_pairs (pairs ++ [(key, value)])), t))
                    else if negb (nextchar =? 44) then Some (Raise JSONDecodeError)
                    else
                      match skip_ws t with
                      | [] => Some (Raise JSONDecodeError)
                      | q :: t' =>
                          if q =? QUOTE
                          then JSONObject_loop fuel room t' (pairs ++ [(key, value)])
                          else Some (Raise JSONDecodeError)
                      end
                end
            end
      end
  end.
Proof. reflexivity. Qed.

Lemma key_text_ok (k : pyval) :
  key_ok k = true -> exists text, key_text k = Ok text /\ valid_str text = true.
Proof.
  destruct k as [| [] | z | f | s | | | |]; try done; cbn [key_ok key_text];
    intros Hk; try (eexists; split; [reflexivity | done]).
  unfold int_to_str. apply negb_true_iff in Hk. rewrite Hk.
  eexists. split; [reflexivity | apply valid_str_int_repr].
Qed.

Lemma object_items_read (items : list (pyval * pyval)) :
  Forall (fun kv => reads_back (snd kv)) items ->
  fold_right (fun kv rest => (key_ok (fst kv) = true /\ readable (snd kv)) /\ rest)
    True items ->
  items <> [] ->
  exists body,
    (forall room : nat,
       (value_depths items <= room)%nat ->
       join_items (List.map (encode_item room) items) = Ok (QUOTE :: body)) /\
    forall (fuel room : nat) (rest : pystr) (pairs : list (pystr * pyval)),
      (3 * length body < fuel)%nat -> (value_depths items <= room)%nat ->
      JSONObject_loop fuel room (body ++ 125 :: rest) pairs =
      Some (Ok (PDict (dict_of_pairs
                         (pairs ++ List.map (fun kv => (key_image (fst kv),
                                                        json_image (snd kv))) items)),
                rest)).
Proof.
  induction 1 as [|[k v] items Hv Hitems IH]; [done|]. intros Hreadable _.
  cbn [fold_right fst snd] in Hreadable, Hv.
  destruct Hreadable as [[Hk Hrv] Hritems].
  destruct (Hv Hrv) as (text & Htext & Hstart & Hscan).
  destruct (key_text_ok k Hk) as (ktext & Hktext & Hkvalid).
  assert (Hitem : forall room : nat, (depth v <= room)%nat ->
                  encode_item room (k, v) =
                  Ok (QUOTE :: (flat_map escape_char ktext
                                ++ QUOTE :: 58 :: 32 :: text))).
  { intros room Hroom. unfold encode_item. cbn [fst snd]. rewrite Hktext, Htext by done.
    unfold encode_basestring_ascii. cbn [app]. by rewrite <- app_assoc. }
  assert (Hkey : key_image k = join_surrogates ktext).
  { unfold key_image. by rewrite Hktext. }
  assert (Hstep : forall (fuel room : nat) (tail : pystr) (pairs : list (pystr * pyval)),
    (3 * length text <= fuel)%nat -> (depth v <= room)%nat -> number_end tail = true ->
    JSONObject_loop (S fuel) room
      ((flat_map escape_char ktext ++ QUOTE :: 58 :: 32 :: text) ++ tail) pairs =
    match skip_ws tail with
    | [] => Some (Raise JSONDecodeError)
    | nextchar :: t =>
        if nextchar =? 125
        then Some (Ok (PDict (dict_of_pairs (pairs ++ [(key_image k, json_image v)])), t))
        else if negb (nextchar =? 44) then Some (Raise JSONDecodeError)
        else
          match skip_ws t with
          | [] => Some (Raise JSONDecodeError)
          | q :: t' =>
              if q =? QUOTE
              then JSONObject_loop fuel room t' (pairs ++ [(key_image k, json_image v)])
              else Some (Raise JSONDecodeError)
          end
    end).
  { intros fuel room tail pairs Hfuel Hroom Htail.
    rewrite JSONObject_loop_eq. rewrite <- app_assoc. cbn [app].
    rewrite scanstring_encoded by (done || (rewrite length_app; cbn; lia)).
    cbn [app]. rewrite (skip_ws_other 58) by done. cbn [N.eqb Pos.eqb negb].
    rewrite (skip_ws_ws 32), skip_ws_value, Hscan by done. by rewrite Hkey. }
  destruct items as [|kv2 items'].
  - eexists. cbn [List.map join_items value_depths fold_right snd].
    split; [intros room Hroom; apply Hitem; lia|].
    intros fuel room rest pairs Hfuel Hroom.
    repeat (rewrite length_app in Hfuel || cbn [length] in Hfuel).
    destruct fuel as [|fuel]; [lia|].
    rewrite Hstep by (done || lia). by rewrite (skip_ws_other 125) by done.
  - destruct (IH Hritems ltac:(done)) as (body & Hbody & Hloop).
    assert (Hdepths : value_depths ((k, v) :: kv2 :: items') =
                      Nat.max (depth v) (value_depths (kv2 :: items'))) by done.
    eexists. split.
    { intros room Hroom. rewrite Hdepths in Hroom.
      specialize (Hbody room ltac:(lia)).
      cbn [List.map] in Hbody |- *. rewrite join_items_cons, Hitem, Hbody by lia.
      cbn [app]. reflexivity. }
    intros fuel room rest pairs Hfuel Hroom. rewrite Hdepths in Hroom.
    repeat (rewrite length_app in Hfuel || cbn [length] in Hfuel).
    destruct fuel as [|fuel]; [lia|].
    change (str ", " ++ ?Y) with (44 :: 32 :: Y). rewrite <- app_assoc.
    rewrite Hstep by (done || lia). cbn [app].
    rewrite (skip_ws_other 44) by done. cbn [N.eqb Pos.eqb negb].
    rewrite (skip_ws_ws 32), (skip_ws_other QUOTE) by done.
    rewrite N.eqb_refl, Hloop by lia. cbn [List.map]. by rewrite <- app_assoc.
Qed.

Lemma JSONArray_eq (fuel room : nat) (s : pystr) :
  JSONArray (S fuel) room s =
  match skip_ws s with
  | [] => JSONArray_loop fuel room [] []
  | nextchar :: t =>
      if nextchar =? 93 then Some (Ok (PList [], t))
      else JSONArray_loop fuel room (nextchar :: t) []
  end.
Proof. reflexivity. Qed.

Lemma JSONObject_eq (fuel room : nat) (s : pystr) :
  JSONObject (S fuel) room s =
  match skip_ws s with
  | [] => Some (Raise JSONDecodeError)
  | nextchar :: t =>
      if nextchar =? QUOTE then JSONObject_loop fuel room t []
      else if nextchar =? 125 then Some (Ok (PDict [], t))
      else Some (Raise JSONDecodeError)
  end.
Proof. reflexivity. Qed.

Lemma encode_list (default : option default_fn) (room : nat) (items : list pyval) :
  encode default (S room) (PList items) =
  match join_items (List.map (encode default room) items) with
  | Raise e => Raise e
  | Ok body => Ok (str "[" ++ body ++ str "]")
  end.
Proof. reflexivity. Qed.

Lemma encode_tuple (default : option default_fn) (room : nat) (items : list pyval) :
  encode default (S room) (PTuple items) = encode default (S room) (PList items).
Proof. reflexivity. Qed.

Lemma encode_dict (room : nat) (items : list (pyval * pyval)) :
  encode (Some builtin_str) (S room) (PDict items) =
  match join_items (List.map (encode_item room) items) with
  | Raise e => Raise e
  | Ok body => Ok (str "{" ++ body ++ str "}")
  end.
Proof. reflexivity. Qed.

Lemma reads_back_array (items : list pyval) :
  Forall reads_back items ->
  fold_right (fun x rest => readable x /\ rest) True items ->
  exists text,
    (forall room : nat,
       (S (depths items) <= room)%nat ->
       encode (Some builtin_str) room (PList items) = Ok text) /\
    value_start text = true /\
    forall (fuel room : nat) (rest : pystr),
      (3 * length text <= fuel)%nat -> (S (depths items) <= room)%nat ->
      number_end rest = true ->
      scan_once fuel room (text ++ rest) = Some (Ok (PList (List.map json_image items), rest)).
Proof.
  intros Hitems Hreadable. destruct items as [|v items].
  - exists (str "[]"). split; [|split; [done|]].
    { intros [|room] Hroom; [lia | done]. }
    intros fuel [|room] rest Hfuel Hroom _; [lia|]. cbn in Hfuel.
    do 2 (destruct fuel as [|fuel]; [lia|]). reflexivity.
  - destruct (array_items_read (v :: items) Hitems Hreadable ltac:(done))
      as (body & Hbody & Hstart & Hloop).
    exists (str "[" ++ body ++ str "]"). split; [|split; [done|]].
    { intros [|room] Hroom; [lia|]. rewrite encode_list, Hbody by lia. done. }
    intros fuel [|room] rest Hfuel Hroom _; [lia|].
    change (str "[" ++ ?Y) with (91 :: Y) in *.
    cbn [length] in Hfuel. rewrite length_app in Hfuel. cbn [length] in Hfuel.
    do 2 (destruct fuel as [|fuel]; [lia|]).
    cbn [app]. rewrite <- app_assoc. change (str "]" ++ rest) with (93 :: rest).
    rewrite scan_once_array, JSONArray_eq, skip_ws_value by done.
    destruct body as [|c body]; [done|]. apply value_start_head in Hstart as (_ & Hc & _).
    cbn [app]. destruct (N.eqb_spec c 93); [done|].
    apply (Hloop fuel room rest []); cbn [length] in *; lia.
Qed.

(** Every readable value is encoded and read back as its image. *)
Lemma encode_reads_back (v : pyval) : reads_back v.
Proof.
  induction v as [| b | z | f | s | items IH | items IH | items IH | cls text]
    using pyval_nested_ind; intros Hreadable.
  - eexists. split; [reflexivity|]. split; [done|]. intros fuel room rest Hfuel _ _.
    cbn in Hfuel. destruct fuel as [|fuel]; [lia|]. reflexivity.
  - destruct b; (eexists; split; [reflexivity|]; split; [done|];
      intros fuel room rest Hfuel _ _; cbn in Hfuel;
      destruct fuel as [|fuel]; [lia|]; reflexivity).
  - cbn [readable] in Hreadable. exists (int_repr z).
    split; [|split; [apply value_start_int_repr|]].
    { intros room _. cbn [encode]. unfold int_to_str. by rewrite Hreadable. }
    intros fuel room rest Hfuel _ Hrest.
    assert (1 <= length (int_repr z))%nat.
    { pose proof (value_start_int_repr z). destruct (int_repr z); [done | cbn; lia]. }
    destruct fuel as [|fuel]; [lia|]. by apply scan_once_int_repr.
  - cbn [readable] in Hreadable. exists (floatstr f).
    split; [done|]. pose proof (float_text_start _ (proj1 Hreadable)) as Hstart.
    split; [done|]. intros fuel room rest Hfuel _ Hrest.
    destruct (floatstr f) as [|c t] eqn:Hf; [done|].
    destruct fuel as [|fuel]; [cbn in Hfuel; lia|]. rewrite <- Hf.
    by apply scan_once_float.
  - exists (encode_basestring_ascii s). split; [done|]. split; [done|].
    intros fuel room rest Hfuel _ _. apply reads_back_string; [done|]. cbn in Hfuel. lia.
  - cbn [readable] in Hreadable. cbn [json_image depth].
    by apply reads_back_array.
  - cbn [readable] in Hreadable. cbn [json_image depth].
    destruct (reads_back_array items IH Hreadable) as (text & Htext & Hrest).
    exists text. split; [|done]. intros room Hroom.
    destruct room as [|room]; [lia|]. rewrite encode_tuple. by apply Htext.
  - cbn [readable] in Hreadable. cbn [json_image depth].
    fold (value_depths items).
    destruct items as [|kv items].
    + exists (str "{}"). split; [|split; [done|]].
      { intros [|room] Hroom; [lia | done]. }
      intros fuel [|room] rest Hfuel Hroom _; [lia|]. cbn in Hfuel.
      do 2 (destruct fuel as [|fuel]; [lia|]). reflexivity.
    + destruct (object_items_read (kv :: items) IH Hreadable ltac:(done))
        as (body & Hbody & Hloop).
      exists (str "{" ++ (QUOTE :: body) ++ str "}"). split; [|split; [done|]].
      { intros [|room] Hroom; [lia|]. rewrite encode_dict, Hbody by lia. done. }
      intros fuel [|room] rest Hfuel Hroom _; [lia|].
      change (str "{" ++ ?Y) with (123 :: Y) in *.
      cbn [length app] in Hfuel. rewrite length_app in Hfuel. cbn [length] in Hfuel.
      do 2 (destruct fuel as [|fuel]; [lia|]).
      cbn [app]. rewrite <- app_assoc. change (str "}" ++ rest) with (125 :: rest).
      rewrite scan_once_object, JSONObject_eq, (skip_ws_other QUOTE) by done.
      rewrite N.eqb_refl. by rewrite (Hloop fuel room rest []) by lia.
  - cbn [readable] in Hreadable. exists (encode_basestring_ascii text).
    split; [|split; [done|]].
    { intros [|room] Hroom; [cbn in Hroom; lia | done]. }
    intros fuel room rest Hfuel _ _. apply reads_back_string; [done|]. cbn in Hfuel. lia.
Qed.

(** [json.loads(json.dumps(v, default=str))] is the image of [v]. *)
Lemma loads_dumps (v : pyval) :
  readable v -> (depth v <= dumps_room)%nat -> (depth v <= loads_room)%nat ->
  exists text,
    dumps v (Some builtin_str) = Ok text /\ text <> [] /\
    loads text = Ok (json_image v).
Proof.
  intros Hreadable Hdumps Hloads.
  destruct (encode_reads_back v Hreadable) as (text & Htext & Hstart & Hscan).
  exists text. split; [by apply Htext|]. destruct text as [|c t]; [done|]. split; [done|].
  pose proof Hstart as Hhead. apply value_start_head in Hhead as (Hws & _ & Hbom).
  unfold loads. cbn [startswith]. destruct (N.eqb_spec 65279 c); [done|]. cbn [andb].
  rewrite skip_ws_other by done.
  rewrite <- (app_nil_r (c :: t)) at 2. rewrite Hscan by (done || lia). done.
Qed.

(** Without [default] the encoder writes the same text, unless it meets an
    object of another type. *)
Lemma dumps_wrapper (key text : pystr) :
  (1 <= dumps_room)%nat ->
  dumps (PDict [(PStr key, PStr text)]) None =
  dumps (PDict [(PStr key, PStr text)]) (Some builtin_str).
Proof. unfold dumps. by destruct dumps_room. Qed.

(** ** The fuel of [loads] is enough *)

Lemma finishes_mono {A} (r : option (result (A * pystr))) (n m : nat) :
  (n <= m)%nat -> finishes r n -> finishes r m.
Proof. destruct r as [[[a rest]|]|]; cbn; [lia | done | done]. Qed.

Lemma finishes_lift {A B} (f : A -> B) (r : option (result (A * pystr))) (n : nat) :
  finishes r n -> finishes (lift f r) n.
Proof. by destruct r as [[[a rest]|]|]. Qed.

Lemma skip_ws_length (s : pystr) : (length (skip_ws s) <= length s)%nat.
Proof. induction s as [|c s IH]; cbn; [lia|]. destruct (is_ws c); cbn; lia. Qed.

Lemma decode_uXXXX_length (s rest : pystr) (n : N) :
  decode_uXXXX s = Ok (n, rest) -> length s = (4 + length rest)%nat.
Proof.
  destruct s as [|a [|b [|c [|d s]]]]; try done. cbn.
  destruct (hexval a), (hexval b), (hexval c), (hexval d); try done.
  by intros [= <- <-].
Qed.

Lemma scanstring_finishes (fuel : nat) (s chunks : pystr) :
  (length s < fuel)%nat -> finishes (scanstring fuel s chunks) (length s).
Proof.
  revert s chunks. induction fuel as [|fuel IH]; intros s chunks Hfuel; [lia|].
  destruct s as [|c t]; [done|]. cbn [scanstring length] in *.
  destruct (c =? QUOTE); [cbn; lia|]. destruct (c <? 32); [done|].
  destruct (negb (c =? BACKSLASH)).
  { eapply finishes_mono; [|apply IH]; lia. }
  destruct t as [|esc t']; [done|]. cbn [length] in *.
  destruct (negb (esc =? 117)).
  { destruct (unescape esc); [|done]. eapply finishes_mono; [|apply IH]; lia. }
  destruct (decode_uXXXX t') as [[uni t2]|] eqn:Hd1; [|done].
  apply decode_uXXXX_length in Hd1.
  destruct (_ && startswith _ t2).
  - destruct (decode_uXXXX (drop 2 t2)) as [[uni2 t3]|] eqn:Hd2; [|done].
    apply decode_uXXXX_length in Hd2. rewrite length_drop in Hd2.
    destruct (_ && _); (eapply finishes_mono; [|apply IH]; lia).
  - eapply finishes_mono; [|apply IH]; lia.
Qed.

Lemma match_number_length (s integer frac exp rest : pystr) :
  match_number s = Some (integer, frac, exp, rest) -> (length rest < length s)%nat.
Proof.
  unfold match_number.
  destruct (match_integer s) as [[i s2]|] eqn:Hi; [|done].
  pose proof (match_frac_text s2) as Hf. destruct (match_frac s2) as [f s3].
  pose proof (match_exp_text s3) as He. destruct (match_exp s3) as [e s4].
  cbn [fst snd] in *. intros [= <- <- <- <-].
  assert (1 <= length i)%nat.
  { destruct s as [|c t]; [done|]. unfold match_integer in Hi.
    assert (Hgen : forall (sign s1 : pystr),
      match s1 with
      | c :: t =>
          if c =? 48 then Some (sign ++ [c], t)
          else if is_digit c then
            let (ds, r) := span_digits t in Some (sign ++ c :: ds, r)
          else None
      | [] => None
      end = Some (i, s2) -> (1 <= length i)%nat).
    { intros sign [|d u]; [done|].
      destruct (d =? 48); [intros [= <- <-]; rewrite length_app; cbn; lia|].
      destruct (is_digit d); [|done]. destruct (span_digits u) as [ds r].
      intros [= <- <-]. rewrite length_app. cbn. lia. }
    destruct (c =? 45); [apply (Hgen [c] t) | apply (Hgen [] (c :: t))]; exact Hi. }
  apply match_integer_text in Hi. rewrite Hi, Hf, He, !length_app. lia.
Qed.

Lemma scan_once_fuel (fuel : nat) :
  (forall room s, (3 * length s < fuel)%nat ->
     finishes (scan_once fuel room s) (S (length s)))
  /\ (forall room s, (3 * length s + 2 < fuel)%nat ->
        finishes (JSONArray fuel room s) (S (length s)))
  /\ (forall room s values, (3 * length s + 1 < fuel)%nat ->
        finishes (JSONArray_loop fuel room s values) (S (length s)))
  /\ (forall room s, (3 * length s + 2 < fuel)%nat ->
        finishes (JSONObject fuel room s) (S (length s)))
  /\ (forall room s pairs, (3 * length s + 1 < fuel)%nat ->
        finishes (JSONObject_loop fuel room s pairs) (S (length s))).
Proof.
  induction fuel as [|fuel (IHscan & IHarr & IHarr_loop & IHobj & IHobj_loop)].
  { repeat split; intros; lia. }
  split; [|split; [|split; [|split]]].
  - intros room [|c s] Hfuel; [done|]. cbn [length] in *. rewrite scan_once_cons.
    destruct (c =? QUOTE).
    { apply finishes_lift. eapply finishes_mono; [|apply scanstring_finishes]; lia. }
    destruct (c =? 123).
    { destruct room as [|room]; [done|]. eapply finishes_mono; [|apply IHobj]; lia. }
    destruct (c =? 91).
    { destruct room as [|room]; [done|]. eapply finishes_mono; [|apply IHarr]; lia. }
    repeat (match goal with
            | |- context [if startswith ?p ?t then _ else _] => destruct (startswith p t)
            end; [cbn [finishes]; rewrite length_drop; cbn [length]; lia|]).
    destruct (match_number (c :: s)) as [[[[i f] e] r]|] eqn:Hm.
    + apply match_number_length in Hm. cbn [length] in Hm.
      destruct f, e; try destruct (str_to_int i); cbn [finishes]; lia || done.
    + repeat (match goal with
              | |- context [if startswith ?p ?t then _ else _] => destruct (startswith p t)
              end; [cbn [finishes]; rewrite length_drop; cbn [length]; lia|]).
      done.
  - intros room s Hfuel. rewrite JSONArray_eq. pose proof (skip_ws_length s).
    destruct (skip_ws s) as [|c t]; cbn [length] in *.
    + eapply finishes_mono; [|apply IHarr_loop]; cbn [length]; lia.
    + destruct (c =? 93); [cbn; lia|].
      eapply finishes_mono; [|apply IHarr_loop]; cbn [length]; lia.
  - intros room s values Hfuel. rewrite JSONArray_loop_eq.
    specialize (IHscan room s ltac:(lia)).
    destruct (scan_once fuel room s) as [[[value s1]|]|]; [|done|done].
    cbn [finishes] in IHscan. pose proof (skip_ws_length s1).
    destruct (skip_ws s1) as [|c t]; [done|]. cbn [length] in *.
    destruct (c =? 93); [cbn; lia|]. destruct (negb (c =? 44)); [done|].
    pose proof (skip_ws_length t).
    eapply finishes_mono; [|apply IHarr_loop]; lia.
  - intros room s Hfuel. rewrite JSONObject_eq. pose proof (skip_ws_length s).
    destruct (skip_ws s) as [|c t]; [done|]. cbn [length] in *.
    destruct (c =? QUOTE); [eapply finishes_mono; [|apply IHobj_loop]; lia|].
    destruct (c =? 125); [cbn; lia | done].
  - intros room s pairs Hfuel. rewrite JSONObject_loop_eq.
    pose proof (scanstring_finishes (S (length s)) s [] ltac:(lia)) as Hkey.
    destruct (scanstring (S (length s)) s []) as [[[key s1]|]|]; [|done|done].
    cbn [finishes] in Hkey. pose proof (skip_ws_length s1).
    destruct (skip_ws s1) as [|colon s2]; [done|]. cbn [length] in *.
    destruct (negb (colon =? 58)); [done|].
    pose proof (skip_ws_length s2).
    specialize (IHscan room (skip_ws s2) ltac:(lia)).
    destruct (scan_once fuel room (skip_ws s2)) as [[[value s3]|]|]; [|done|done].
    cbn [finishes] in IHscan. pose proof (skip_ws_length s3).
    destruct (skip_ws s3) as [|c t]; [done|]. cbn [length] in *.
    destruct (c =? 125); [cbn; lia|]. destruct (negb (c =? 44)); [done|].
    pose proof (skip_ws_length t).
    destruct (skip_ws t) as [|q t']; [done|]. cbn [length] in *.
    destruct (q =? QUOTE); [|done].
    eapply finishes_mono; [|apply IHobj_loop]; lia.
Qed.

(** [loads] never takes its last branch. *)
Lemma loads_fuel (s : pystr) :
  scan_once (3 * length s + 3) loads_room (skip_ws s) <> None.
Proof.
  pose proof (skip_ws_length s).
  destruct (scan_once_fuel (3 * length s + 3)) as (Hscan & _).
  specialize (Hscan loads_room (skip_ws s) ltac:(lia)).
  by destruct (scan_once _ _ _).
Qed.

End Values.

(** ** The decoder and the encoder on concrete texts *)

Section JsonExamples.

(** Nested values, white space, a float, an escape and a surrogate pair. *)
Example loads_nested :
  @loads text_floats cpython
    (str "{ " ++ quoted (str "a") ++ str " : [1, -20, 2.5e3, true, null, "
     ++ quoted ([BACKSLASH] ++ str "n" ++ [BACKSLASH] ++ str "ud83d"
           ++ [BACKSLASH] ++ str "ude00") ++ str "] }" ++ [NL])
  = Ok (PDict [(PStr (str "a"),
                PList [PInt 1; PInt (-20); @PFloat text_floats (str "2.5e3"); PBool true; PNone;
                       PStr [NL; 128512]])]).
Proof. vm_compute. reflexivity. Qed.

(** A later pair replaces the value of an equal key. *)
Example loads_duplicate_key :
  @loads text_floats cpython
    (str "{" ++ quoted (str "k") ++ str ":1," ++ quoted (str "j") ++ str ":2,"
     ++ quoted (str "k") ++ str ":3}")
  = Ok (PDict [(PStr (str "k"), PInt 3); (PStr (str "j"), PInt 2)]).
Proof. vm_compute. reflexivity. Qed.

Example loads_rejects :
  @loads text_floats cpython (str "[1,]") = Raise JSONDecodeError /\
  @loads text_floats cpython (str "01") = Raise JSONDecodeError /\
  @loads text_floats cpython (str "{} x") = Raise JSONDecodeError /\
  @loads text_floats cpython (quoted [9]) = Raise JSONDecodeError /\
  @loads text_floats cpython (str "{'a': 1}") = Raise JSONDecodeError /\
  @loads text_floats cpython [] = Raise JSONDecodeError /\
  @loads text_floats cpython (str "-") = Raise JSONDecodeError.
Proof. vm_compute. repeat split. Qed.

(** The payload of the specification's example. *)
Example dumps_example :
  @dumps text_floats cpython
    (PDict [(PStr (str "applicant"), PDict [(PStr (str "name"), PStr (str "Jane Doe"))]);
            (PStr (str "paystub"), PDict [(PStr (str "net_pay"), @PFloat text_floats (str "2900.0"))])])
    (Some builtin_str)
  = Ok (str "{" ++ quoted (str "applicant") ++ str ": {" ++ quoted (str "name") ++ str ": "
        ++ quoted (str "Jane Doe") ++ str "}, " ++ quoted (str "paystub") ++ str ": {"
        ++ quoted (str "net_pay") ++ str ": 2900.0}}").
Proof. vm_compute. reflexivity. Qed.

(** Escapes of the encoder: named, [\u00XX], and a surrogate pair. *)
Example dumps_escapes :
  @dumps text_floats cpython (PStr [QUOTE; 9; 1; 127; 233; 128512]) None
  = Ok (quoted ([BACKSLASH; QUOTE; BACKSLASH] ++ str "t" ++ [BACKSLASH] ++ str "u0001"
           ++ [BACKSLASH] ++ str "u007f" ++ [BACKSLASH] ++ str "u00e9"
           ++ [BACKSLASH] ++ str "ud83d" ++ [BACKSLASH] ++ str "ude00")).
Proof. vm_compute. reflexivity. Qed.

(** Without [default], an object of another type is a [TypeError]. *)
Example dumps_object :
  @dumps text_floats cpython (PList [PObject (str "date") (str "1990-04-12")]) None
  = Raise (TypeError (str "Object of type date is not JSON serializable")) /\
  @dumps text_floats cpython (PList [PObject (str "date") (str "1990-04-12")]) (Some builtin_str)
  = Ok (str "[" ++ quoted (str "1990-04-12") ++ str "]").
Proof. vm_compute. split; reflexivity. Qed.

End JsonExamples.

(** ** The report client *)

Section AgentFacts.
Context `{FloatOps} {limits : Interpreter}.

Lemma generate_report_response (self : NarrativeAgent) (application : pyval)
    (w : world) (message_content : option pystr) :
  response_content self application w = Some message_content ->
  exists w', generate_report self application w = (Ok (ensure_sections message_content), w').
Proof.
  unfold response_content, generate_report, create.
  destruct (app_payload application) as [payload|]; [|done].
  destruct (service w _ _ _) as [resp|]; [|done].
  destruct (choices resp) as [|c rest]; [done|]. intros [= ->]. by eexists.
Qed.

Lemma generate_report_Ok (self : NarrativeAgent) (application : pyval)
    (w w' : world) (out : pystr) :
  generate_report self application w = (Ok out, w') ->
  exists message_content,
    response_content self application w = Some message_content /\
    out = ensure_sections message_content.
Proof.
  unfold response_content, generate_report, create.
  destruct (app_payload application) as [payload|]; [|done].
  destruct (service w _ _ _) as [resp|]; [|done].
  destruct (choices resp) as [|c rest]; [done|]. intros [= <- _]. by exists c.
Qed.

Lemma ensure_sections_has_section (message_content : option pystr) :
  has_section (ensure_sections message_content) = true.
Proof.
  rewrite ensure_sections_eq. cbv zeta.
  destruct (has_section (strip (or_empty message_content))) eqn:Hsec; [done|].
  apply has_all_has_section, wrap_sections_all.
Qed.

(** C1, as amended: every report that [generate_report] returns contains at
    least one of the three section labels, and all three of them when the
    model's answer contains none of the labels or all of them. *)
Theorem generate_report_has_section (self : NarrativeAgent) (application : pyval)
    (w w' : world) (out : pystr) :
  generate_report self application w = (Ok out, w') ->
  has_section out = true /\
  forall message_content,
    response_content self application w = Some message_content ->
    has_section (or_empty message_content) = false \/
    has_all_sections (or_empty message_content) = true ->
    has_all_sections out = true.
Proof.
  intros Hrun. destruct (generate_report_Ok _ _ _ _ _ Hrun) as (c & Hc & ->).
  split; [apply ensure_sections_has_section|].
  intros c' Hc' Hcases. rewrite Hc in Hc'. injection Hc' as <-.
  rewrite ensure_sections_eq. cbv zeta. rewrite has_section_strip.
  destruct Hcases as [Hnone | Hall].
  - rewrite Hnone. apply wrap_sections_all.
  - rewrite (has_all_has_section _ Hall). by rewrite has_all_sections_strip.
Qed.

(** C2: an answer without any of the three labels is returned inside the
    three-section wrapper, which has the three labels and holds the trimmed
    answer verbatim under the first of them. *)
Theorem generate_report_wraps (self : NarrativeAgent) (application : pyval)
    (w : world) (text : pystr) :
  response_content self application w = Some (Some text) ->
  has_section text = false ->
  exists out w',
    generate_report self application w = (Ok out, w') /\
    out = str "Identity Fraud Risk:" ++ [NL] ++ strip text ++ [NL; NL]
          ++ str "Paystub Fraud Risk:" ++ [NL] ++ str "(see analysis above)" ++ [NL; NL]
          ++ str "Overall Application Risk:" ++ [NL] ++ str "(see analysis above)"
          ++ [NL] /\
    has_all_sections out = true /\
    contains (strip text) out = true.
Proof.
  intros Hresp Hnone. destruct (generate_report_response _ _ _ _ Hresp) as (w' & Hrun).
  eexists _, w'. split; [exact Hrun|].
  rewrite ensure_sections_eq, or_empty_Some. cbv zeta.
  rewrite has_section_strip, Hnone.
  split; [done|]. split; [apply wrap_sections_all | apply wrap_sections_embeds].
Qed.

(** C3: an answer in which one of the three labels occurs is returned
    trimmed and otherwise unchanged. *)
Theorem generate_report_keeps (self : NarrativeAgent) (application : pyval)
    (w : world) (text : pystr) :
  response_content self application w = Some (Some text) ->
  has_section text = true ->
  exists w', generate_report self application w = (Ok (strip text), w').
Proof.
  intros Hresp Hsome. destruct (generate_report_response _ _ _ _ Hresp) as (w' & Hrun).
  exists w'. rewrite Hrun, ensure_sections_eq, or_empty_Some. cbv zeta.
  by rewrite has_section_strip, Hsome.
Qed.

(** C10: a null or empty content does not make [generate_report] raise; the
    report is the three-section skeleton, which is not empty. *)
Theorem generate_report_null_content (self : NarrativeAgent) (application : pyval)
    (w : world) (message_content : option pystr) :
  response_content self application w = Some message_content ->
  message_content = None \/ message_content = Some [] ->
  exists out w',
    generate_report self application w = (Ok out, w') /\
    out = wrap_sections [] /\ out <> [] /\ has_all_sections out = true.
Proof.
  intros Hresp Hempty. destruct (generate_report_response _ _ _ _ Hresp) as (w' & Hrun).
  eexists _, w'. split; [exact Hrun|].
  assert (ensure_sections message_content = wrap_sections []) as ->.
  { by destruct Hempty as [-> | ->]. }
  split; [done|]. split; [done | apply wrap_sections_all].
Qed.

End AgentFacts.

Section AgentExamples.
#[local] Existing Instance cpython.

(** The counterexample to C1 as stated: an answer with one label only is
    returned as it is, without the other two. *)
Lemma generate_report_misses_sections :
  ~ (forall (self : @NarrativeAgent text_floats) application w w' out,
       generate_report self application w = (Ok out, w') ->
       has_all_sections out = true).
Proof.
  intros Hall.
  specialize (Hall sample_agent (PStr (str "{}"))
                (answering (Some (str "Identity Fraud Risk: 5%")))
                _ _ eq_refl).
  vm_compute in Hall. discriminate.
Qed.

Lemma generate_report_has_section_witness :
  has_section (str "Identity Fraud Risk: 5%") = true.
Proof.
  apply (generate_report_has_section (limits := cpython) sample_agent (PStr (str "{}"))
           (answering (Some (str "Identity Fraud Risk: 5%"))) _ _ eq_refl).
Defined.

Lemma generate_report_wraps_witness :
  exists out w',
    generate_report sample_agent (PStr (str "{}")) (answering (Some (str " Looks fine. ")))
    = (Ok out, w') /\
    out = wrap_sections (str "Looks fine.") /\
    has_all_sections out = true /\ contains (str "Looks fine.") out = true.
Proof.
  apply (generate_report_wraps (limits := cpython) sample_agent (PStr (str "{}"))
           (answering (Some (str " Looks fine. "))) (str " Looks fine. "));
    reflexivity.
Defined.

Lemma generate_report_keeps_witness :
  exists w',
    generate_report sample_agent (PStr (str "{}"))
      (answering (Some (str " Paystub Fraud Risk: 10% ")))
    = (Ok (str "Paystub Fraud Risk: 10%"), w').
Proof.
  apply (generate_report_keeps (limits := cpython) sample_agent (PStr (str "{}"))
           (answering (Some (str " Paystub Fraud Risk: 10% ")))
           (str " Paystub Fraud Risk: 10% ")); reflexivity.
Defined.

Lemma generate_report_null_content_witness :
  exists out w',
    generate_report sample_agent (PStr (str "{}")) (answering None) = (Ok out, w') /\
    out = wrap_sections [] /\ out <> [] /\ has_all_sections out = true.
Proof.
  apply (generate_report_null_content (limits := cpython) sample_agent (PStr (str "{}")) (answering None) None);
    [reflexivity | by left].
Defined.

End AgentExamples.

(** ** The request builder *)

Section BuilderFacts.
Context `{FloatOps} {limits : Interpreter}.

Lemma join_surrogates_cons (c d : N) (t : pystr) :
  join_surrogates (c :: d :: t) =
  if is_high c && is_low d
  then (65536 + N.lor (N.shiftl (c - 55296) 10) (d - 56320)) :: join_surrogates t
  else c :: join_surrogates (d :: t).
Proof. reflexivity. Qed.

Lemma join_surrogates_id (s : pystr) :
  has_surrogate_pair s = false -> join_surrogates s = s.
Proof.
  induction s as [|c t IH]; [done|]. destruct t as [|d t']; [done|].
  rewrite join_surrogates_cons. cbn [has_surrogate_pair].
  intros Hs. apply orb_false_iff in Hs as [-> Ht]. by rewrite (IH Ht).
Qed.

Lemma app_payload_accepted (text : pystr) (obj : pyval) :
  loads text = Ok obj -> app_payload (PStr text) = Ok text.
Proof. intros Hparse. unfold app_payload. by rewrite Hparse. Qed.

(** C5: a string that [json.loads] accepts is the payload, as it is. *)
Theorem app_payload_valid_json (text : pystr) (obj : pyval) :
  loads text = Ok obj -> app_payload (PStr text) = Ok text.
Proof. intros Hparse. unfold app_payload. by rewrite Hparse. Qed.

Lemma decode_uXXXX_raises (s : pystr) (e : exception) :
  decode_uXXXX s = Raise e -> e = JSONDecodeError.
Proof.
  destruct s as [|a [|b [|c [|d s]]]]; try (by intros [= <-]). cbn.
  by destruct (hexval a), (hexval b), (hexval c), (hexval d); intros [= <-].
Qed.

Lemma scanstring_raises (fuel : nat) (s chunks : pystr) (e : exception) :
  scanstring fuel s chunks = Some (Raise e) -> e = JSONDecodeError.
Proof.
  revert s chunks. induction fuel as [|fuel IH]; intros s chunks; [done|].
  destruct s as [|c t]; [by intros [= <-]|]. cbn [scanstring].
  destruct (c =? QUOTE); [done|]. destruct (c <? 32); [by intros [= <-]|].
  destruct (negb (c =? BACKSLASH)); [apply IH|].
  destruct t as [|esc t']; [by intros [= <-]|].
  destruct (negb (esc =? 117)); [destruct (unescape esc); [apply IH | by intros [= <-]]|].
  destruct (decode_uXXXX t') as [[uni t2]|] eqn:Hd1;
    [|apply decode_uXXXX_raises in Hd1; by intros [= <-]].
  destruct (_ && startswith _ t2); [|apply IH].
  destruct (decode_uXXXX (drop 2 t2)) as [[uni2 t3]|] eqn:Hd2;
    [|apply decode_uXXXX_raises in Hd2; by intros [= <-]].
  destruct (_ && _); apply IH.
Qed.

Lemma decode_error_syntax {A} : @decode_error A (Some (Raise JSONDecodeError)).
Proof. by left. Qed.

Lemma decode_error_depth {A} : @decode_error A (Some (Raise RecursionError)).
Proof. by right; right. Qed.

Lemma scan_once_raises (fuel : nat) :
  (forall room s, decode_error (scan_once fuel room s))
  /\ (forall room s, decode_error (JSONArray fuel room s))
  /\ (forall room s values, decode_error (JSONArray_loop fuel room s values))
  /\ (forall room s, decode_error (JSONObject fuel room s))
  /\ (forall room s pairs, decode_error (JSONObject_loop fuel room s pairs)).
Proof.
  pose proof (@decode_error_syntax (pyval * pystr)) as Hsyntax.
  pose proof (@decode_error_depth (pyval * pystr)) as Hdepth.
  induction fuel as [|fuel (IHscan & IHarr & IHarr_loop & IHobj & IHobj_loop)]; [done|].
  split; [|split; [|split; [|split]]].
  - intros room [|c s]; [done|]. rewrite scan_once_cons.
    destruct (c =? QUOTE).
    { pose proof (scanstring_raises (S (length s)) s []) as Hs.
      destruct (scanstring _ _ _) as [[[a r]|e]|]; [done| |done].
      by rewrite (Hs e eq_refl). }
    destruct (c =? 123); [destruct room; [done | apply IHobj]|].
    destruct (c =? 91); [destruct room; [done | apply IHarr]|].
    repeat (match goal with
            | |- context [if startswith ?p ?t then _ else _] => destruct (startswith p t)
            end; [done|]).
    destruct (match_number (c :: s)) as [[[[i f] e] r]|].
    { destruct f, e; try done. unfold str_to_int.
      destruct (over_digit_limit i); [by right; left | done]. }
    repeat (match goal with
            | |- context [if startswith ?p ?t then _ else _] => destruct (startswith p t)
            end; [done|]).
    done.
  - intros room s. rewrite JSONArray_eq.
    destruct (skip_ws s) as [|c t]; [apply IHarr_loop|].
    destruct (c =? 93); [done | apply IHarr_loop].
  - intros room s values. rewrite JSONArray_loop_eq. specialize (IHscan room s).
    destruct (scan_once fuel room s) as [[[value s1]|]|]; [|done|done].
    destruct (skip_ws s1) as [|c t]; [done|].
    destruct (c =? 93); [done|]. destruct (negb (c =? 44)); [done | apply IHarr_loop].
  - intros room s. rewrite JSONObject_eq. destruct (skip_ws s) as [|c t]; [done|].
    destruct (c =? QUOTE); [apply IHobj_loop|]. by destruct (c =? 125).
  - intros room s pairs. rewrite JSONObject_loop_eq.
    pose proof (scanstring_raises (S (length s)) s []) as Hkey.
    destruct (scanstring _ s []) as [[[key s1]|e]|]; [| by rewrite (Hkey e eq_refl) | done].
    destruct (skip_ws s1) as [|colon s2]; [done|].
    destruct (negb (colon =? 58)); [done|].
    specialize (IHscan room (skip_ws s2)).
    destruct (scan_once fuel room (skip_ws s2)) as [[[value s3]|]|]; [|done|done].
    destruct (skip_ws s3) as [|c t]; [done|].
    destruct (c =? 125); [done|]. destruct (negb (c =? 44)); [done|].
    destruct (skip_ws t) as [|q t']; [done|].
    destruct (q =? QUOTE); [apply IHobj_loop | done].
Qed.

(** [json.loads] raises [JSONDecodeError], or the [ValueError] of the
    digit limit, or [RecursionError], and nothing else. *)
Lemma loads_raises (text : pystr) (e : exception) :
  loads text = Raise e -> decoder_exception e.
Proof.
  unfold loads. destruct (startswith _ text); [intros [= <-]; by left|].
  destruct (scan_once_raises (3 * length text + 3)) as (Hscan & _).
  specialize (Hscan loads_room (skip_ws text)).
  destruct (scan_once _ _ _) as [[[obj rest]|e']|].
  - destruct (skip_ws rest); [done | intros [= <-]; by left].
  - by intros [= <-].
  - intros [= <-]. by left.
Qed.

(** What the builder does with a string that [json.loads] does not
    accept. *)
Lemma app_payload_rejected (text : pystr) :
  loads text = Raise JSONDecodeError ->
  app_payload (PStr text) = dumps (PDict [(PStr (str "raw_application"), PStr text)]) None.
Proof. intros Hparse. unfold app_payload. by rewrite Hparse. Qed.

Lemma app_payload_raises (text : pystr) (e : exception) :
  loads text = Raise e -> e <> JSONDecodeError ->
  (e = ValueError \/ e = RecursionError) /\ app_payload (PStr text) = Raise e.
Proof.
  intros Hparse Hother. unfold app_payload. rewrite Hparse.
  destruct (loads_raises _ _ Hparse) as [-> | [-> | ->]]; [done | |]; split; auto.
Qed.

Lemma readable_wrapper (key text : pystr) :
  valid_str key = true -> valid_str text = true ->
  readable (PDict [(PStr key, PStr text)]).
Proof. intros Hkey Htext. cbn. by rewrite Hkey. Qed.



End BuilderFacts.

Section BuilderExamples.
#[local] Existing Instance cpython.

(** The limits of the interpreter in [json.loads]: an integer of 4301 digits,
    and an array within an array a thousand and one times. *)
Example loads_limits :
  @loads text_floats cpython (repeat 49 4301) = Raise ValueError /\
  @loads text_floats cpython (repeat 91 1001) = Raise RecursionError /\
  @loads text_floats cpython (repeat 91 1000) = Raise JSONDecodeError /\
  @loads text_floats low_limits (repeat 49 641) = Raise ValueError /\
  (exists z, @loads text_floats low_limits (repeat 49 640) = Ok (PInt z)) /\
  @loads text_floats low_limits (str "[[[]]]") = Raise RecursionError /\
  @loads text_floats low_limits (str "[[]]") = Ok (PList [PList []]).
Proof.
  do 4 (split; [by vm_compute|]).
  split; [eexists; vm_compute; reflexivity|]. split; by vm_compute.
Qed.

(** The same limits in [json.dumps]: an integer of 641 digits, as a value
    and as a key, and a list within a list within a list. *)
Example dumps_limits :
  @dumps text_floats low_limits (PDict [(PStr (str "n"), PInt (10 ^ 640))])
    (Some builtin_str) = Raise ValueError /\
  @dumps text_floats low_limits (PDict [(PInt (- 10 ^ 640), PNone)])
    (Some builtin_str) = Raise ValueError /\
  (exists text,
     @dumps text_floats low_limits (PDict [(PStr (str "n"), PInt (10 ^ 640 - 1))])
       (Some builtin_str) = Ok text /\ length text = 647%nat) /\
  @dumps text_floats low_limits (PList [PList [PList []]]) (Some builtin_str)
  = Raise RecursionError /\
  @dumps text_floats low_limits (PList [PList [PObject (str "date") (str "1990-04-12")]])
    (Some builtin_str) = Raise RecursionError /\
  @dumps text_floats low_limits (PList [PList [PStr (str "1990-04-12")]])
    (Some builtin_str) = Ok (str "[[" ++ quoted (str "1990-04-12") ++ str "]]").
Proof.
  split; [by vm_compute|]. split; [by vm_compute|].
  split; [eexists; split; [vm_compute; reflexivity | by vm_compute]|].
  split; [by vm_compute|]. split; by vm_compute.
Qed.



Lemma app_payload_valid_json_witness :
  @app_payload text_floats cpython (PStr (str "{}")) = Ok (str "{}").
Proof. apply (@app_payload_valid_json text_floats cpython (str "{}") (PDict [])). reflexivity. Defined.



End BuilderExamples.

(** ** Construction of the client *)

Section InitFacts.
Context `{FloatOps}.

Lemma dotenv_values_absent (file : list (pystr * option pystr)) (key : pystr) :
  ~ In key (List.map fst file) -> dotenv_values file !! key = None.
Proof.
  unfold dotenv_values.
  assert (Hgen : forall values : gmap pystr (option pystr),
    values !! key = None -> ~ In key (List.map fst file) ->
    fold_left (fun values kv => <[fst kv := snd kv]> values) file values !! key = None).
  { induction file as [|[k v] file IH]; intros values Hvalues Hfile; [done|].
    cbn [fold_left fst snd]. apply IH.
    - rewrite lookup_insert_ne; [done|]. intros ->. apply Hfile. by left.
    - intros Hin. apply Hfile. by right. }
  apply Hgen, lookup_empty.
Qed.

(** The last binding of a name in the file is the one that counts. *)
Lemma dotenv_values_last (file : list (pystr * option pystr)) (key : pystr)
    (value : option pystr) :
  dotenv_values (file ++ [(key, value)]) !! key = Some value.
Proof.
  unfold dotenv_values. rewrite fold_left_app. cbn [fold_left fst snd].
  apply lookup_insert_eq.
Qed.

Lemma load_dotenv_absent (w : world) (key : pystr) :
  environ w !! key = None -> ~ In key (List.map fst (dotenv_file w)) ->
  getenv key (load_dotenv w) = None.
Proof.
  intros Henv Hfile. unfold getenv, load_dotenv. cbn [environ].
  apply lookup_union_None. split; [done|]. rewrite lookup_omap.
  rewrite dotenv_values_absent; done.
Qed.

(** C7: without the credential, construction raises the configuration
    error, and all that has happened by then is the loading of the [.env]
    file: no client was created and no request was sent; in particular
    construction does not succeed. *)
Theorem init_without_credential (w : world) (model : pystr) (temperature : pyfloat) :
  credential_absent w ->
  (exists w',
     __init__ model temperature w =
       (Raise (RuntimeError
                 (str "GEMINI_API_KEY not set. Add it to your environment or .env")),
        w') /\
     exists happened,
       events w' = events w ++ happened /\ existsb network_event happened = false) /\
  (forall agent w', __init__ model temperature w <> (Ok agent, w')).
Proof.
  intros [Henv Hfile].
  pose proof (load_dotenv_absent w _ Henv Hfile) as Hkey.
  unfold __init__, _load_env_once. rewrite Hkey. split; [|done].
  eexists. split; [reflexivity|]. by exists [DotenvLoaded].
Qed.

(** With the credential, the client is created, and no request is sent. *)
Lemma init_with_credential (w : world) (model api_key : pystr) (temperature : pyfloat) :
  getenv (str "GEMINI_API_KEY") (load_dotenv w) = Some api_key -> api_key <> [] ->
  exists agent w',
    __init__ model temperature w = (Ok agent, w') /\
    client_api_key (_client agent) = api_key /\
    events w' = events w ++ [DotenvLoaded; ClientCreated api_key].
Proof.
  intros Hkey Hne. unfold __init__, _load_env_once. rewrite Hkey.
  destruct api_key as [|c k]; [done|]. eexists _, _. split; [reflexivity|].
  split; [done|]. cbn. by rewrite <- app_assoc.
Qed.

End InitFacts.

Lemma init_without_credential_witness :
  (exists w',
     __init__ default_model default_temperature (answering None) =
       (Raise (RuntimeError
                 (str "GEMINI_API_KEY not set. Add it to your environment or .env")),
        w') /\
     exists happened,
       events w' = events (answering None) ++ happened /\
       existsb network_event happened = false) /\
  (forall agent w',
     __init__ default_model default_temperature (answering None) <> (Ok agent, w')).
Proof.
  apply (init_without_credential (answering None) default_model default_temperature).
  split; [apply lookup_empty | intros []].
Defined.

(** With the credential in the [.env] file the client is created. *)
Example init_configured :
  exists agent w',
    __init__ default_model default_temperature configured = (Ok agent, w') /\
    client_api_key (_client agent) = str "sample-key" /\
    events w' = [DotenvLoaded; ClientCreated (str "sample-key")].
Proof.
  apply (init_with_credential configured default_model (str "sample-key")
           default_temperature); [|done].
  unfold getenv, load_dotenv, configured. cbn [environ dotenv_file].
  rewrite lookup_union_r by apply lookup_empty.
  rewrite lookup_omap.
  pose proof (dotenv_values_last [] (str "GEMINI_API_KEY") (Some (str "sample-key")))
    as Hlast.
  cbn [app] in Hlast. by rewrite Hlast.
Qed.

(** ** The tool endpoints *)

Section ToolFacts.
Context `{FloatOps}.

(** C8: each endpoint returns its success status whatever it is given, and
    the guard around it turns every exception of its body into an error
    object instead of letting it through. *)
Theorem tools_return_status (obj : pyval) :
  mcp.verify_paystub obj =
    (Ok (PDict [(PStr (str "status"), PStr (str "Paystub verified successfully"))]), []) /\
  mcp.verify_id obj =
    (Ok (PDict [(PStr (str "status"), PStr (str "ID verified successfully"))]), []) /\
  (forall what prefix e,
     mcp.guarded what prefix (Raise e) =
       (Ok (PDict [(PStr (str "error"), PStr (prefix ++ mcp.exception_str e))]),
        [what])) /\
  (forall what prefix body e, fst (mcp.guarded what prefix body) <> Raise e).
Proof.
  split; [done|]. split; [done|]. split; [done|].
  intros what prefix [v|e'] e; done.
Qed.

End ToolFacts.

(** ** The records *)

Section SchemaFacts.
Context `{FieldTypes} {instances : data_schemas.Instances}.
Import data_schemas.

Lemma bind_Ok {A B} (r : result A) (k : A -> result B) (b : B) :
  (r ≫= k) = Ok b -> exists a, r = Ok a /\ k a = Ok b.
Proof. destruct r as [a|e]; [by exists a | done]. Qed.

Lemma required_Ok {A} (name : string) (validate : pyval -> option A)
    (data : gmap pystr pyval) (a : A) :
  required name validate data = Ok a ->
  exists v, data !! str name = Some v /\ validate v = Some a.
Proof.
  unfold required. destruct (data !! str name) as [v|]; [|done].
  destruct (validate v) as [a'|] eqn:Hv; [|done]. intros [= <-]. by exists v.
Qed.

Lemma required_missing {A} (name : string) (validate : pyval -> option A)
    (data : gmap pystr pyval) :
  data !! str name = None ->
  required name validate data = Raise (ValidationError (str name)).
Proof. unfold required. by intros ->. Qed.

Lemma optional_Ok {A} (name : string) (validate : pyval -> option A)
    (data : gmap pystr pyval) (a : A) :
  optional name validate data = Ok (Some a) ->
  exists v, data !! str name = Some v /\ validate v = Some a.
Proof.
  unfold optional. destruct (data !! str name) as [v|]; [|done].
  destruct v; try done;
    match goal with
    | |- context [validate ?v] =>
        destruct (validate v) as [a'|] eqn:Hv; [|done]; intros [= <-]; by exists v
    end.
Qed.

Lemma optional_invalid {A} (name : string) (validate : pyval -> option A)
    (data : gmap pystr pyval) (v : pyval) :
  data !! str name = Some v -> v <> PNone -> validate v = None ->
  optional name validate data = Raise (ValidationError (str name)).
Proof.
  unfold optional. intros -> Hv Hval. rewrite Hval. by destruct v.
Qed.

Lemma validate_literal_Some (allowed : list pystr) (v : pyval) (s : pystr) :
  validate_literal allowed v = Some s -> v = PStr s /\ In s allowed.
Proof.
  destruct v; try done. cbn. case_decide as Hin; [|done].
  intros [= <-]. split; [done|]. by apply list_elem_of_In.
Qed.

Lemma validate_literal_None (allowed : list pystr) (v : pyval) :
  (forall s, In s allowed -> v <> PStr s) -> validate_literal allowed v = None.
Proof.
  intros Hv. destruct v; try done. cbn. case_decide as Hin; [|done].
  apply list_elem_of_In in Hin. by destruct (Hv _ Hin).
Qed.

(** C9: [ApplicantProfile] is built only from data that has [first_name]
    and [last_name], and fails without either; the [pay_frequency] of an
    [Employment] that was built is absent or one of the four literals, and
    construction fails for any other value. *)
Theorem records_validated :
  (forall data profile,
     new_ApplicantProfile data = Ok profile ->
     (exists v, data !! str "first_name" = Some v /\
                validate_str v = Some (first_name profile)) /\
     (exists v, data !! str "last_name" = Some v /\
                validate_str v = Some (last_name profile))) /\
  (forall data,
     data !! str "first_name" = None \/ data !! str "last_name" = None ->
     exists e, new_ApplicantProfile data = Raise e) /\
  (forall data employment,
     new_Employment data = Ok employment ->
     pay_frequency employment = None \/
     exists f, pay_frequency employment = Some f /\
               In f [str "weekly"; str "biweekly"; str "semimonthly"; str "monthly"]) /\
  (forall data v,
     data !! str "pay_frequency" = Some v -> v <> PNone ->
     (forall f, In f [str "weekly"; str "biweekly"; str "semimonthly"; str "monthly"] ->
                v <> PStr f) ->
     exists e, new_Employment data = Raise e).
Proof.
  split; [|split; [|split]].
  - intros data profile Hnew. unfold new_ApplicantProfile in Hnew.
    apply bind_Ok in Hnew as (a & Ha & Hnew).
    apply bind_Ok in Hnew as (b & Hb & Hnew).
    repeat (apply bind_Ok in Hnew as (? & _ & Hnew)).
    injection Hnew as <-. cbn [first_name last_name].
    split; by apply required_Ok.
  - intros data Hmissing. unfold new_ApplicantProfile.
    destruct Hmissing as [Hfirst | Hlast].
    + rewrite (required_missing _ _ _ Hfirst). by eexists.
    + destruct (required "first_name" validate_str data); [|by eexists].
      rewrite (required_missing _ _ _ Hlast). by eexists.
  - intros data employment Hnew. unfold new_Employment in Hnew.
    apply bind_Ok in Hnew as (a & _ & Hnew).
    apply bind_Ok in Hnew as (b & _ & Hnew).
    apply bind_Ok in Hnew as (c & Hc & Hnew).
    apply bind_Ok in Hnew as (d & _ & Hnew).
    injection Hnew as <-. cbn [pay_frequency].
    destruct c as [f|]; [right | by left]. exists f. split; [done|].
    apply optional_Ok in Hc as (v & _ & Hv).
    by apply validate_literal_Some in Hv as [_ Hin].
  - intros data v Hv Hnone Hother. unfold new_Employment.
    destruct (required "employer_name" validate_str data); [|by eexists].
    destruct (optional "start_date" validate_date data); [|by eexists].
    rewrite (optional_invalid _ _ _ v Hv Hnone) by by apply validate_literal_None.
    by eexists.
Qed.

End SchemaFacts.

Lemma records_validated_witness :
  (exists profile,
     @data_schemas.new_ApplicantProfile _ strict_fields no_instances
       (<[str "first_name" := PStr (str "Jane")]>
          (<[str "last_name" := PStr (str "Doe")]> ∅)) = Ok profile) /\
  (exists e, @data_schemas.new_ApplicantProfile _ strict_fields no_instances
               (<[str "last_name" := PStr (str "Doe")]> ∅) = Raise e) /\
  (exists e, @data_schemas.new_Employment _ strict_fields
               (<[str "employer_name" := PStr (str "Acme Corp")]>
                  (<[str "pay_frequency" := PStr (str "daily")]> ∅)) = Raise e).
Proof.
  destruct (@records_validated _ strict_fields no_instances) as (Hnames & Hmissing & Hfreq & Hother).
  split; [|split].
  - by eexists.
  - apply Hmissing. left. by rewrite lookup_insert_ne, lookup_empty.
  - apply (Hother _ (PStr (str "daily"))).
    + by rewrite lookup_insert_ne, lookup_insert_eq.
    + done.
    + intros f Hf. cbn in Hf. intros [= <-].
      repeat (destruct Hf as [Hf | Hf]; [discriminate|]). done.
Defined.

(** * Further properties *)

(** ** The request builder, beyond the claims *)

Section BuilderMore.
Context `{FloatOps} {limits : Interpreter}.

Lemma join_items_Ok (items : list (result pystr)) :
  Forall (fun r => exists text, r = Ok text) items ->
  exists text, join_items items = Ok text.
Proof.
  induction 1 as [|r items [text ->] Hitems [body IH]]; [by eexists|].
  destruct items as [|r2 rest]; [by eexists|].
  rewrite join_items_cons, IH. by eexists.
Qed.

Lemma join_items_Raise (items : list (result pystr)) (e : exception) :
  join_items items = Raise e -> In (Raise e) items.
Proof.
  induction items as [|r items IH]; [done|].
  destruct items as [|r2 rest]; [cbn; intros ->; by left|].
  rewrite join_items_cons. destruct r as [a|e']; [|intros [= ->]; by left].
  destruct (join_items (r2 :: rest)) as [b|e'] eqn:Hrest; [done|].
  intros [= ->]. right. by apply IH.
Qed.

Lemma join_map_Ok {A} (f : A -> result pystr) (items : list A) :
  (forall x, In x items -> exists text, f x = Ok text) ->
  exists text, join_items (List.map f items) = Ok text.
Proof.
  intros Hitems. apply join_items_Ok, List.Forall_forall.
  intros r Hr. apply in_map_iff in Hr as (x & <- & Hx). by apply Hitems.
Qed.

Lemma join_map_Raise {A} (f : A -> result pystr) (items : list A) (e : exception) :
  join_items (List.map f items) = Raise e -> exists x, In x items /\ f x = Raise e.
Proof.
  intros He. apply join_items_Raise, in_map_iff in He as (x & Hx & Hin). by exists x.
Qed.

Lemma forallb_false_In {A} (p : A -> bool) (items : list A) (x : A) :
  In x items -> p x = false -> forallb p items = false.
Proof.
  intros Hin Hx. destruct (forallb p items) eqn:Hall; [|done].
  rewrite forallb_forall in Hall. by rewrite (Hall x Hin) in Hx.
Qed.

Lemma depths_In (items : list pyval) (x : pyval) :
  In x items -> (depth x <= depths items)%nat.
Proof.
  induction items as [|y items IH]; [done|]. unfold depths in *. cbn [fold_right].
  intros [-> | Hin]; [lia|]. specialize (IH Hin). lia.
Qed.

Lemma value_depths_In (items : list (pyval * pyval)) (kv : pyval * pyval) :
  In kv items -> (depth (snd kv) <= value_depths items)%nat.
Proof.
  induction items as [|y items IH]; [done|]. unfold value_depths in *. cbn [fold_right].
  intros [-> | Hin]; [lia|]. specialize (IH Hin). lia.
Qed.

Lemma key_text_serializable (k : pyval) :
  (key_serializable k = true -> key_within_limit k = true ->
   exists text, key_text k = Ok text) /\
  (forall e, key_text k = Raise e ->
     (key_error e /\ key_serializable k = false) \/
     (e = ValueError /\ key_within_limit k = false)).
Proof.
  destruct k as [| [] | z | f | s | items | items | items | cls text];
    cbn [key_text key_serializable key_within_limit];
    try (split; [intros; by eexists | by intros e]);
    try (split; [done | intros e [= <-]; left; split; [by eexists | done]]).
  unfold int_to_str. destruct (over_digit_limit (int_repr z)).
  - split; [done|]. intros e [= <-]. by right.
  - split; [by eexists | done].
Qed.

(** With [default=str] the encoder fails on nothing else. *)
Lemma encode_serializable (v : pyval) (room : nat) :
  (keys_serializable v = true -> within_digit_limit v = true -> (depth v <= room)%nat ->
   exists text, encode (Some builtin_str) room v = Ok text) /\
  (forall e, encode (Some builtin_str) room v = Raise e -> encoder_failure room v e).
Proof.
  revert room.
  assert (Hlist : forall (items : list pyval) (room : nat),
    Forall (fun x => forall room,
      (keys_serializable x = true -> within_digit_limit x = true -> (depth x <= room)%nat ->
       exists text, encode (Some builtin_str) room x = Ok text) /\
      (forall e, encode (Some builtin_str) room x = Raise e -> encoder_failure room x e))
      items ->
    (forallb keys_serializable items = true -> forallb within_digit_limit items = true ->
     (depths items <= room)%nat ->
     exists text, join_items (List.map (encode (Some builtin_str) room) items) = Ok text) /\
    (forall e, join_items (List.map (encode (Some builtin_str) room) items) = Raise e ->
       (key_error e /\ forallb keys_serializable items = false) \/
       (e = ValueError /\ forallb within_digit_limit items = false) \/
       (e = RecursionError /\ (room < depths items)%nat))).
  { intros items room Hitems. rewrite List.Forall_forall in Hitems. split.
    - intros Hkeys Hints Hroom. rewrite forallb_forall in Hkeys, Hints.
      apply join_map_Ok. intros x Hx. pose proof (depths_In _ _ Hx).
      apply (Hitems x Hx room); [by apply Hkeys | by apply Hints | lia].
    - intros e He. apply join_map_Raise in He as (x & Hx & He).
      pose proof (depths_In _ _ Hx).
      destruct (proj2 (Hitems x Hx room) e He) as [[Herr Hks] | [[-> Hint] | [-> Hdepth]]].
      + left. split; [done | by eapply forallb_false_In].
      + right; left. split; [done | by eapply forallb_false_In].
      + right; right. split; [done | lia]. }
  induction v as [| b | z | f | s | items IH | items IH | items IH | cls text]
    using pyval_nested_ind; intros room;
    try (split; [intros _ _ _; try destruct b; by eexists | by (intros e; try destruct b)]).
  - unfold encoder_failure. cbn [encode within_digit_limit]. unfold int_to_str.
    destruct (over_digit_limit (int_repr z)); cbn [negb].
    + split; [by intros _ ?|]. intros e [= <-]. right; left. done.
    + split; [by eexists | done].
  - unfold encoder_failure. cbn [keys_serializable within_digit_limit depth]. fold (depths items).
    destruct room as [|room].
    { split; [intros _ _ ?; lia|]. intros e [= <-]. right; right. split; [done | lia]. }
    rewrite encode_list. destruct (Hlist items room IH) as [Hok Hraise]. split.
    + intros Hkeys Hints Hroom. destruct (Hok Hkeys Hints ltac:(lia)) as [body ->].
      by eexists.
    + intros e. destruct (join_items _) as [body|e'] eqn:Hjoin; [done|].
      intros [= <-].
      destruct (Hraise _ eq_refl) as [? | [? | [-> ?]]]; [by left | by right; left |].
      right; right. split; [done | lia].
  - unfold encoder_failure. cbn [keys_serializable within_digit_limit depth]. fold (depths items).
    destruct room as [|room].
    { split; [intros _ _ ?; lia|]. intros e [= <-]. right; right. split; [done | lia]. }
    rewrite encode_tuple, encode_list. destruct (Hlist items room IH) as [Hok Hraise]. split.
    + intros Hkeys Hints Hroom. destruct (Hok Hkeys Hints ltac:(lia)) as [body ->].
      by eexists.
    + intros e. destruct (join_items _) as [body|e'] eqn:Hjoin; [done|].
      intros [= <-].
      destruct (Hraise _ eq_refl) as [? | [? | [-> ?]]]; [by left | by right; left |].
      right; right. split; [done | lia].
  - unfold encoder_failure. cbn [keys_serializable within_digit_limit depth]. fold (value_depths items).
    destruct room as [|room].
    { split; [intros _ _ ?; lia|]. intros e [= <-]. right; right. split; [done | lia]. }
    rewrite encode_dict. rewrite List.Forall_forall in IH. split.
    + intros Hkeys Hints Hroom. rewrite forallb_forall in Hkeys, Hints.
      assert (exists body, join_items (List.map (encode_item room) items) = Ok body)
        as [body ->]; [|by eexists].
      apply join_map_Ok. intros [k0 v0] Hkv.
      specialize (Hkeys _ Hkv). specialize (Hints _ Hkv).
      pose proof (value_depths_In _ _ Hkv) as Hdepth.
      pose proof (IH _ Hkv room) as IHkv. cbn [fst snd] in Hkeys, Hints, IHkv, Hdepth.
      apply andb_true_iff in Hkeys as [Hk Hv]. apply andb_true_iff in Hints as [Hki Hvi].
      unfold encode_item. cbn [fst snd].
      destruct (proj1 (key_text_serializable k0) Hk Hki) as [kt ->].
      destruct (proj1 IHkv Hv Hvi ltac:(lia)) as [vt ->]. by eexists.
    + intros e. destruct (join_items _) as [body|e'] eqn:Hjoin; [done|].
      intros [= Heq]. subst e. apply join_map_Raise in Hjoin as ([k0 v0] & Hkv & He).
      pose proof (value_depths_In _ _ Hkv) as Hdepth.
      unfold encode_item in He. cbn [fst snd] in He, Hdepth.
      destruct (key_text k0) as [kt|ke] eqn:Hkt.
      * destruct (encode _ _ v0) as [vt|ve] eqn:Hvt; [done|]. injection He as ->.
        pose proof (IH _ Hkv room) as IHkv. cbn [fst snd] in IHkv.
        destruct (proj2 IHkv _ Hvt) as [[Herr Hks] | [[-> Hint] | [-> Hd]]].
        -- left. split; [done|]. eapply forallb_false_In; [exact Hkv|]. cbn [fst snd].
           by rewrite Hks, andb_false_r.
        -- right; left. split; [done|]. eapply forallb_false_In; [exact Hkv|].
           cbn [fst snd]. by rewrite Hint, andb_false_r.
        -- right; right. split; [done | lia].
      * injection He as ->.
        destruct (proj2 (key_text_serializable k0) _ Hkt) as [[Herr Hks] | [-> Hint]].
        -- left. split; [done|]. eapply forallb_false_In; [exact Hkv|]. cbn [fst snd].
           by rewrite Hks.
        -- right; left. split; [done|]. eapply forallb_false_In; [exact Hkv|].
           cbn [fst snd]. by rewrite Hint.
  - unfold encoder_failure. cbn [encode depth]. destruct room as [|room].
    + split; [intros _ _ ?; lia|]. intros e [= <-]. right; right. split; [done | lia].
    + split; [by eexists | done].
Qed.

(** What the builder raises on a string. *)
Lemma app_payload_str_raises (text : pystr) (e : exception) :
  app_payload (PStr text) = Raise e -> e = ValueError \/ e = RecursionError.
Proof.
  destruct (loads text) as [obj|e'] eqn:Hparse.
  - by rewrite (app_payload_accepted _ _ Hparse).
  - destruct (loads_raises _ _ Hparse) as [-> | Hother].
    + rewrite (app_payload_rejected _ Hparse). unfold dumps.
      destruct dumps_room; [intros [= <-]; by right | done].
    + assert (e' <> JSONDecodeError) as Hne by (by destruct Hother as [-> | ->]).
      destruct (app_payload_raises _ _ Hparse Hne) as [_ ->]. by intros [= <-].
Qed.

(** X1: on a string the builder raises nothing but the [ValueError] of the
    digit limit and [RecursionError]: never [JSONDecodeError], never
    [TypeError].  It returns a payload whenever [json.loads] returns or
    raises [JSONDecodeError] and the interpreter allows one recursive call
    more.  A payload that it returns is not empty, is a text that
    [json.loads] accepts, and given to the builder again is returned
    unchanged. *)
Theorem app_payload_string (text : pystr) :
  valid_str text = true ->
  (forall e, app_payload (PStr text) = Raise e -> e = ValueError \/ e = RecursionError) /\
  ((1 <= dumps_room)%nat ->
   (forall e, loads text = Raise e -> e = JSONDecodeError) ->
   exists out, app_payload (PStr text) = Ok out) /\
  (forall out,
     app_payload (PStr text) = Ok out -> (1 <= loads_room)%nat ->
     out <> [] /\ (exists obj, loads out = Ok obj) /\ app_payload (PStr out) = Ok out).
Proof.
  intros Hvalid.
  set (wrapper := PDict [(PStr (str "raw_application"), PStr text)]).
  assert (Hwrapper : forall out, dumps wrapper None = Ok out -> (1 <= loads_room)%nat ->
            out <> [] /\ loads out = Ok (json_image wrapper)).
  { intros out Hout Hroom. unfold dumps in Hout.
    destruct dumps_room as [|room] eqn:Hdumps; [done|].
    destruct (loads_dumps wrapper) as (out' & Hout' & Hne & Hread);
      [by apply readable_wrapper | cbn; lia | done |].
    unfold dumps in Hout'. rewrite Hdumps in Hout'.
    assert (out' = out) as -> by (cbn in Hout, Hout'; congruence). done. }
  split; [|split].
  - intros e. apply app_payload_str_raises.
  - intros Hroom Hsyntax. destruct (loads text) as [obj|e'] eqn:Hparse.
    + exists text. by eapply app_payload_accepted.
    + rewrite (Hsyntax _ eq_refl) in Hparse.
      rewrite (app_payload_rejected _ Hparse). unfold dumps.
      destruct dumps_room; [lia | by eexists].
  - intros out Hout Hroom. destruct (loads text) as [obj|e'] eqn:Hparse.
    + rewrite (app_payload_accepted _ _ Hparse) in Hout. injection Hout as <-.
      split; [|split; [by exists obj | by eapply app_payload_accepted]].
      intros ->. unfold loads in Hparse. cbn in Hparse. discriminate.
    + destruct (loads_raises _ _ Hparse) as [-> | Hother].
      * rewrite (app_payload_rejected _ Hparse) in Hout.
        destruct (Hwrapper out Hout Hroom) as [Hne Hread].
        split; [done|]. split; [by eexists | by eapply app_payload_accepted].
      * assert (e' <> JSONDecodeError) as Hne by (by destruct Hother as [-> | ->]).
        destruct (app_payload_raises _ _ Hparse Hne) as [_ Hraise]. congruence.
Qed.


Lemma is_ascii_text_app (a b : pystr) :
  is_ascii_text (a ++ b) = is_ascii_text a && is_ascii_text b.
Proof. apply forallb_app. Qed.

Lemma hexdigit_ascii (d : N) : d < 16 -> is_ascii_text [hexdigit d] = true.
Proof. intros Hd. unfold is_ascii_text, hexdigit. cbn [forallb]. cmp. Qed.

Lemma u_escape_ascii (n : N) : is_ascii_text (u_escape n) = true.
Proof.
  unfold u_escape, hex4.
  match goal with
  | |- is_ascii_text (_ ++ [?a; ?b; ?c; ?d]) = true =>
      change [a; b; c; d] with ([a] ++ [b] ++ [c] ++ [d])
  end.
  rewrite !is_ascii_text_app, !hexdigit_ascii by (apply N.mod_upper_bound; lia).
  done.
Qed.

Lemma escape_char_ascii (c : N) : is_ascii_text (escape_char c) = true.
Proof.
  unfold escape_char.
  repeat match goal with
  | |- context [N.eqb c ?b] => destruct (N.eqb c b); [done|]
  end.
  destruct ((32 <=? c) && (c <=? 126)) eqn:Hprintable.
  - unfold is_ascii_text. cbn [forallb]. by rewrite Hprintable.
  - destruct (c <? 65536); [apply u_escape_ascii|]. cbv zeta.
    by rewrite is_ascii_text_app, !u_escape_ascii.
Qed.

Lemma encode_basestring_ascii_ascii (s : pystr) :
  is_ascii_text (encode_basestring_ascii s) = true.
Proof.
  unfold encode_basestring_ascii. rewrite !is_ascii_text_app, andb_true_r.
  cbn [is_ascii_text forallb andb N.leb N.compare Pos.compare Pos.compare_cont QUOTE].
  induction s as [|c s IH]; [done|]. cbn [flat_map].
  by rewrite is_ascii_text_app, escape_char_ascii.
Qed.

Lemma int_repr_ascii (z : Z) : is_ascii_text (int_repr z) = true.
Proof.
  assert (Hu : forall u, is_ascii_text (uint_digits u) = true) by (induction u; done).
  unfold int_repr. destruct (Z.to_int z); [apply Hu|]. cbn. apply Hu.
Qed.

Lemma int_to_str_ascii (z : Z) (text : pystr) :
  int_to_str z = Ok text -> is_ascii_text text = true.
Proof.
  unfold int_to_str. destruct (over_digit_limit _); [done|].
  intros [= <-]. apply int_repr_ascii.
Qed.

Lemma join_items_ascii (items : list (result pystr)) (text : pystr) :
  join_items items = Ok text ->
  (forall t, In (Ok t) items -> is_ascii_text t = true) ->
  is_ascii_text text = true.
Proof.
  revert text. induction items as [|r items IH]; intros text; [by intros [= <-]|].
  destruct items as [|r2 rest].
  - cbn. intros -> Hall. apply Hall. by left.
  - rewrite join_items_cons. destruct r as [a|e]; [|done].
    destruct (join_items (r2 :: rest)) as [b|e] eqn:Hrest; [|done].
    intros Heq Hall. assert (text = a ++ str ", " ++ b) as -> by congruence.
    rewrite !is_ascii_text_app.
    rewrite (Hall a) by by left. rewrite (IH b eq_refl) by (intros t Ht; apply Hall; by right).
    done.
Qed.

(** The text of a value without floats is printable ASCII. *)
Lemma encode_ascii (default : option default_fn) (room : nat) (v : pyval) (text : pystr) :
  encode default room v = Ok text -> float_free v = true -> is_ascii_text text = true.
Proof.
  revert room text.
  assert (Hlist : forall (items : list pyval) (room : nat) (body : pystr),
    Forall (fun v => forall room text,
      encode default room v = Ok text -> float_free v = true ->
      is_ascii_text text = true) items ->
    join_items (List.map (encode default room) items) = Ok body ->
    forallb float_free items = true ->
    is_ascii_text (str "[" ++ body ++ str "]") = true).
  { intros items room body IH Hjoin Hfree.
    rewrite !is_ascii_text_app, andb_true_r.
    rewrite forallb_forall in Hfree. rewrite List.Forall_forall in IH.
    eapply (join_items_ascii _ _ Hjoin). intros t Ht.
    apply in_map_iff in Ht as (x & Hx & Hin). by eapply IH; [| |apply Hfree]. }
  induction v as [| b | z | f | s | items IH | items IH | items IH | cls t]
    using pyval_nested_ind; intros room text Henc Hfree; cbn [encode] in Henc.
  - by injection Henc as <-.
  - destruct b; by injection Henc as <-.
  - by eapply int_to_str_ascii.
  - done.
  - injection Henc as <-. apply encode_basestring_ascii_ascii.
  - destruct room as [|room]; [done|].
    destruct (join_items _) as [body|] eqn:Hjoin; [|done].
    assert (text = str "[" ++ body ++ str "]") as -> by congruence.
    by eapply Hlist.
  - destruct room as [|room]; [done|].
    destruct (join_items _) as [body|] eqn:Hjoin; [|done].
    assert (text = str "[" ++ body ++ str "]") as -> by congruence.
    by eapply Hlist.
  - destruct room as [|room]; [done|].
    destruct (join_items _) as [body|] eqn:Hjoin; [|done].
    assert (text = str "{" ++ body ++ str "}") as -> by congruence.
    rewrite !is_ascii_text_app, andb_true_r. cbn [float_free] in Hfree.
    rewrite forallb_forall in Hfree. rewrite List.Forall_forall in IH.
    eapply (join_items_ascii _ _ Hjoin). intros t Ht.
    apply in_map_iff in Ht as ([k0 v0] & Hx & Hin). cbn [fst snd] in Hx.
    destruct (key_text k0) as [kt|] eqn:Hkt; [|done].
    destruct (encode default room v0) as [vt|] eqn:Hvt; [|done].
    assert (t = encode_basestring_ascii kt ++ str ": " ++ vt) as -> by congruence.
    specialize (Hfree _ Hin). cbn [fst snd] in Hfree.
    apply andb_true_iff in Hfree as [_ Hv0].
    rewrite !is_ascii_text_app, encode_basestring_ascii_ascii.
    pose proof (IH _ Hin) as IHv. cbn [snd] in IHv. by rewrite (IHv room vt).
  - destruct default as [[]|]; [|done]. destruct room; [done|]. injection Henc as <-.
    apply encode_basestring_ascii_ascii.
Qed.

(** X3: whatever the builder encodes itself is printable ASCII: the payload
    of an input without floats, other than a string that [json.loads]
    accepts (which is passed on as it is), has no code point outside the
    range from the space to the tilde. *)
Theorem app_payload_ascii (application : pyval) (out : pystr) :
  app_payload application = Ok out ->
  float_free application = true ->
  (forall text obj, application = PStr text -> loads text <> Ok obj) ->
  is_ascii_text out = true.
Proof.
  intros Hout Hfree Hreject. destruct application as [| b | z | f | s | | | |];
    try (by eapply encode_ascii; [exact Hout|]).
  unfold app_payload in Hout. destruct (loads s) as [obj|e] eqn:Hparse.
  - by destruct (Hreject s obj).
  - destruct (loads_raises _ _ Hparse) as [-> | [-> | ->]]; [|done|done].
    by eapply encode_ascii; [exact Hout|].
Qed.

End BuilderMore.

Section BuilderMoreExamples.
#[local] Existing Instance cpython.

Lemma app_payload_string_witness :
  (exists out, @app_payload text_floats cpython (PStr (str "[1, 2")) = Ok out) /\
  (forall out,
     @app_payload text_floats cpython (PStr (str "[1, 2")) = Ok out ->
     out <> [] /\ (exists obj, @loads text_floats cpython out = Ok obj) /\
     @app_payload text_floats cpython (PStr out) = Ok out) /\
  (forall e,
     @app_payload text_floats cpython (PStr (repeat 49 4301)) = Raise e ->
     e = ValueError \/ e = RecursionError).
Proof.
  split; [|split].
  - apply (proj1 (proj2 (@app_payload_string text_floats cpython (str "[1, 2") eq_refl))).
    + vm_compute. lia.
    + intros e. vm_compute. by intros [= <-].
  - intros out Hout.
    apply (proj2 (proj2 (@app_payload_string text_floats cpython (str "[1, 2") eq_refl))
             out Hout).
    vm_compute. lia.
  - apply (proj1 (@app_payload_string text_floats cpython (repeat 49 4301) eq_refl)).
Defined.


Lemma app_payload_ascii_witness :
  exists out,
    @app_payload text_floats cpython (PDict [(PStr [233], PTuple [PStr [128512]; PInt (-3)])])
    = Ok out /\ is_ascii_text out = true.
Proof.
  eexists. split; [reflexivity|].
  apply (@app_payload_ascii text_floats cpython
           (PDict [(PStr [233], PTuple [PStr [128512]; PInt (-3)])]));
    [reflexivity | reflexivity | discriminate].
Defined.

End BuilderMoreExamples.

(** ** The report client, beyond the claims *)

Section StripFacts.

Lemma lstrip_nonspace (c : N) (s : pystr) : isspace c = false -> lstrip (c :: s) = c :: s.
Proof. intros Hc. cbn [lstrip]. by rewrite Hc. Qed.

Lemma lstrip_head (s : pystr) :
  match lstrip s with
  | [] => True
  | c :: _ => isspace c = false
  end.
Proof.
  induction s as [|c s IH]; [done|]. cbn [lstrip].
  by destruct (isspace c) eqn:Hc.
Qed.

Lemma lstrip_spaces (s : pystr) : forallb isspace s = true -> lstrip s = [].
Proof.
  induction s as [|c s IH]; [done|]. cbn [forallb lstrip].
  intros Hs. apply andb_true_iff in Hs as [-> Hs]. by apply IH.
Qed.

Lemma lstrip_app_nonspace (s : pystr) (c : N) :
  isspace c = false -> lstrip (s ++ [c]) = lstrip s ++ [c].
Proof.
  intros Hc. induction s as [|d s IH]; cbn [app lstrip]; [by rewrite Hc|].
  by destruct (isspace d).
Qed.

Lemma rstrip_space (s : pystr) (d : N) : isspace d = true -> rstrip (s ++ [d]) = rstrip s.
Proof.
  intros Hd. unfold rstrip. rewrite rev_app_distr. cbn [rev app lstrip]. by rewrite Hd.
Qed.

Lemma rstrip_nonspace (s : pystr) (c : N) :
  isspace c = false -> rstrip (s ++ [c]) = s ++ [c].
Proof.
  intros Hc. unfold rstrip. rewrite rev_app_distr. cbn [rev app lstrip].
  rewrite Hc. cbn [rev]. by rewrite rev_involutive.
Qed.

Lemma rstrip_cons_nonspace (c : N) (s : pystr) :
  isspace c = false -> rstrip (c :: s) = c :: rstrip s.
Proof.
  intros Hc. unfold rstrip. cbn [rev]. rewrite lstrip_app_nonspace by done.
  by rewrite rev_app_distr.
Qed.

Lemma rstrip_rstrip (s : pystr) : rstrip (rstrip s) = rstrip s.
Proof.
  unfold rstrip. rewrite rev_involutive. f_equal.
  pose proof (lstrip_head (rev s)) as Hhead.
  destruct (lstrip (rev s)) as [|c t]; [done|]. by apply lstrip_nonspace.
Qed.

(** [strip] twice is [strip] once. *)
Lemma strip_strip (s : pystr) : strip (strip s) = strip s.
Proof.
  unfold strip. pose proof (lstrip_head s) as Hhead.
  destruct (lstrip s) as [|c t]; [done|].
  rewrite rstrip_cons_nonspace, lstrip_nonspace by done.
  rewrite <- rstrip_cons_nonspace by done. apply rstrip_rstrip.
Qed.

Lemma strip_spaces (s : pystr) : forallb isspace s = true -> strip s = [].
Proof. intros Hs. unfold strip. by rewrite lstrip_spaces. Qed.

Lemma wrap_sections_body (content : pystr) :
  wrap_sections content = wrap_body content ++ [NL].
Proof. unfold wrap_sections, wrap_body. by rewrite <- !app_assoc. Qed.

Lemma strip_wrap_sections (content : pystr) :
  strip (wrap_sections content) = wrap_body content.
Proof.
  unfold strip. rewrite wrap_sections_body.
  change (wrap_body content ++ [NL])
    with (73 :: (str "dentity Fraud Risk:" ++ [NL] ++ content ++ [NL; NL]
          ++ str "Paystub Fraud Risk:" ++ [NL] ++ str "(see analysis above)" ++ [NL; NL]
          ++ str "Overall Application Risk:" ++ [NL] ++ str "(see analysis above)")
          ++ [NL]).
  rewrite lstrip_nonspace by done.
  change (73 :: ?l ++ [NL]) with ((73 :: l) ++ [NL]).
  rewrite rstrip_space by done.
  change (73 :: str "dentity Fraud Risk:" ++ [NL] ++ content ++ [NL; NL]
          ++ str "Paystub Fraud Risk:" ++ [NL] ++ str "(see analysis above)" ++ [NL; NL]
          ++ str "Overall Application Risk:" ++ [NL] ++ str "(see analysis above)")
    with (str "Identity Fraud Risk:" ++ [NL] ++ content ++ [NL; NL]
          ++ str "Paystub Fraud Risk:" ++ [NL] ++ str "(see analysis above)" ++ [NL; NL]
          ++ str "Overall Application Risk:" ++ [NL] ++ str "(see analysis above" ++ [41]).
  rewrite !app_assoc. rewrite rstrip_nonspace by done.
  rewrite <- !app_assoc. reflexivity.
Qed.

Lemma contains_length (needle hay : pystr) :
  contains needle hay = true -> (length needle <= length hay)%nat.
Proof.
  intros Hin. apply contains_spec in Hin as (a & b & ->).
  rewrite !length_app. lia.
Qed.

End StripFacts.

Section AgentMore.
Context `{FloatOps} {limits : Interpreter}.

(** X4: one call makes one request, after the payload is built: the world
    afterwards has exactly one more event, the request with the agent's
    key, model and temperature and the payload after the instructions, and
    the same environment; when the builder raises, its error is returned
    and nothing has happened. *)
Theorem generate_report_one_request (self : NarrativeAgent) (application : pyval)
    (w : world) :
  match app_payload application with
  | Ok payload =>
      exists r w',
        generate_report self application w = (r, w') /\
        events w' =
          events w ++
          [CompletionRequested (client_api_key (_client self))
             {| req_model := model self;
                req_temperature := temperature self;
                req_messages :=
                  [ {| role := str "system"; content := system_prompt |};
                    {| role := str "user";
                       content :=
                         str "Application data (JSON). Use it to produce the report."
                         ++ [NL; NL] ++ str "DATA: " ++ payload |} ] |}] /\
        environ w' = environ w
  | Raise e => generate_report self application w = (Raise e, w)
  end.
Proof.
  unfold generate_report, create.
  destruct (app_payload application) as [payload|e]; [|done].
  destruct (service w _ _ _) as [resp|e].
  - destruct (choices resp) as [|c rest]; by eexists _, _.
  - by eexists _, _.
Qed.

(** X5: what the remote call raises is raised by [generate_report], and a
    completion without choices is an [IndexError]; the request was made in
    both cases. *)
Theorem generate_report_failures (self : NarrativeAgent) (application : pyval)
    (w : world) (payload : pystr) :
  app_payload application = Ok payload ->
  (forall e,
     service w (events w) (client_api_key (_client self))
       (completion_request self payload) = Raise e ->
     exists w', generate_report self application w = (Raise e, w') /\
                length (events w') = S (length (events w))) /\
  (service w (events w) (client_api_key (_client self))
     (completion_request self payload) = Ok {| choices := [] |} ->
   exists w', generate_report self application w = (Raise IndexError, w') /\
              length (events w') = S (length (events w))).
Proof.
  intros Hpayload. unfold generate_report, create. rewrite Hpayload.
  split; [intros e|]; intros ->; eexists; (split; [reflexivity|]);
    cbn [events]; rewrite length_app; cbn; lia.
Qed.

(** X6: a report that is returned is never shorter than the shortest of the
    three labels, which has 18 characters. *)
Theorem generate_report_length (self : NarrativeAgent) (application : pyval)
    (w w' : world) (out : pystr) :
  generate_report self application w = (Ok out, w') -> (18 <= length out)%nat.
Proof.
  intros Hrun. destruct (generate_report_Ok _ _ _ _ _ Hrun) as (c & _ & ->).
  pose proof (ensure_sections_has_section c) as Hsec.
  unfold has_section, REQUIRED_SECTIONS in Hsec. cbn [existsb] in Hsec.
  repeat (apply orb_true_iff in Hsec as [Hsec | Hsec];
          [apply contains_length in Hsec; cbn [length str List.map list_ascii_of_string]
             in Hsec; lia|]).
  done.
Qed.

(** X7: an answer of white space only is handled as an empty one: the
    report is the wrapper around the empty text. *)
Theorem generate_report_blank (self : NarrativeAgent) (application : pyval)
    (w : world) (text : pystr) :
  response_content self application w = Some (Some text) ->
  forallb isspace text = true ->
  exists w', generate_report self application w = (Ok (wrap_sections []), w').
Proof.
  intros Hresp Hblank. destruct (generate_report_response _ _ _ _ Hresp) as (w' & Hrun).
  exists w'. rewrite Hrun. f_equal. f_equal.
  rewrite ensure_sections_eq, or_empty_Some. cbv zeta.
  by rewrite (strip_spaces _ Hblank).
Qed.

(** X8: post-processing a report again trims it and does nothing else: a
    report that was kept comes back as it is, and a report that was
    wrapped comes back without the newline that ends the wrapper. *)
Theorem ensure_sections_again (message_content : option pystr) :
  ensure_sections (Some (ensure_sections message_content)) =
  if has_section (or_empty message_content)
  then ensure_sections message_content
  else removelast (ensure_sections message_content).
Proof.
  rewrite (ensure_sections_eq (Some _)), or_empty_Some. cbv zeta.
  rewrite has_section_strip, ensure_sections_has_section.
  rewrite ensure_sections_eq. cbv zeta. rewrite has_section_strip.
  destruct (has_section (or_empty message_content)).
  - apply strip_strip.
  - rewrite strip_wrap_sections, wrap_sections_body. by rewrite removelast_last.
Qed.

End AgentMore.

Section AgentMoreExamples.
#[local] Existing Instance cpython.

Lemma generate_report_failures_witness :
  (exists w',
     generate_report sample_agent (PStr (str "{}")) configured
     = (Raise (RemoteError (str "unreachable")), w') /\
     length (events w') = 1%nat) /\
  (exists w',
     generate_report sample_agent (PStr (str "{}")) choiceless = (Raise IndexError, w') /\
     length (events w') = 1%nat).
Proof.
  split.
  - apply (proj1 (generate_report_failures (limits := cpython) sample_agent (PStr (str "{}")) configured
                    (str "{}") eq_refl)). reflexivity.
  - apply (proj2 (generate_report_failures (limits := cpython) sample_agent (PStr (str "{}")) choiceless
                    (str "{}") eq_refl)). reflexivity.
Defined.

Lemma generate_report_length_witness :
  (18 <= length (wrap_sections []))%nat.
Proof.
  apply (generate_report_length (limits := cpython) sample_agent (PStr (str "{}")) (answering None) _ _ eq_refl).
Defined.

Lemma generate_report_blank_witness :
  exists w',
    generate_report sample_agent (PStr (str "{}")) (answering (Some [32; NL; 9; 160]))
    = (Ok (wrap_sections []), w').
Proof.
  apply (generate_report_blank (limits := cpython) sample_agent (PStr (str "{}"))
           (answering (Some [32; NL; 9; 160])) [32; NL; 9; 160]); reflexivity.
Defined.

End AgentMoreExamples.

(** ** Construction of the client, beyond the claim *)

Section InitMore.
Context `{FloatOps}.

Lemma load_dotenv_keeps (w : world) (key value : pystr) :
  environ w !! key = Some value -> getenv key (load_dotenv w) = Some value.
Proof.
  intros Henv. unfold getenv, load_dotenv. cbn [environ].
  by apply lookup_union_Some_l.
Qed.

(** X9: the process environment comes before the [.env] file: when the
    environment has the credential, not empty, the agent is created with
    that value, whatever the file says, with the model and the temperature
    given; the client was created and no request was sent. *)
Theorem init_environment_first (w : world) (model_name api_key : pystr)
    (temperature_value : pyfloat) :
  environ w !! str "GEMINI_API_KEY" = Some api_key -> api_key <> [] ->
  exists w',
    __init__ model_name temperature_value w =
      (Ok {| model := model_name; temperature := temperature_value;
             _client := {| client_api_key := api_key |} |}, w') /\
    events w' = events w ++ [DotenvLoaded; ClientCreated api_key].
Proof.
  intros Henv Hne. unfold __init__, _load_env_once.
  rewrite (load_dotenv_keeps _ _ _ Henv). destruct api_key as [|c k]; [done|].
  eexists. split; [reflexivity|]. cbn. by rewrite <- app_assoc.
Qed.

(** X10: an empty credential counts as none: when the environment has the
    variable with the empty value, construction raises the configuration
    error and creates no client, even when the [.env] file has a value. *)
Theorem init_empty_credential (w : world) (model_name : pystr)
    (temperature_value : pyfloat) :
  environ w !! str "GEMINI_API_KEY" = Some [] ->
  exists w',
    __init__ model_name temperature_value w =
      (Raise (RuntimeError
                (str "GEMINI_API_KEY not set. Add it to your environment or .env")),
       w') /\
    events w' = events w ++ [DotenvLoaded].
Proof.
  intros Henv. unfold __init__, _load_env_once.
  rewrite (load_dotenv_keeps _ _ _ Henv). by eexists.
Qed.

Lemma dotenv_values_found (before after : list (pystr * option pystr)) (key : pystr)
    (value : option pystr) :
  ~ In key (List.map fst after) ->
  dotenv_values (before ++ (key, value) :: after) !! key = Some value.
Proof.
  intros Hafter. unfold dotenv_values. rewrite fold_left_app. cbn [fold_left fst snd].
  assert (Hgen : forall values : gmap pystr (option pystr),
    values !! key = Some value -> ~ In key (List.map fst after) ->
    fold_left (fun values kv => <[fst kv := snd kv]> values) after values !! key
    = Some value).
  { clear Hafter. induction after as [|[k v] after IH]; intros values Hvalues Hafter; [done|].
    cbn [fold_left fst snd]. apply IH.
    - rewrite lookup_insert_ne; [done|]. intros ->. apply Hafter. by left.
    - intros Hin. apply Hafter. by right. }
  apply Hgen; [apply lookup_insert_eq | done].
Qed.

(** X20: when the environment does not have the credential, the last
    binding of the variable in the [.env] file decides: with a value that
    is not empty the agent is created with it; with the empty value, or
    with no value, construction raises the configuration error, whatever
    the earlier bindings say. *)
Theorem init_dotenv_last (w : world) (before after : list (pystr * option pystr))
    (value : option pystr) (model_name : pystr) (temperature_value : pyfloat) :
  environ w !! str "GEMINI_API_KEY" = None ->
  dotenv_file w = before ++ (str "GEMINI_API_KEY", value) :: after ->
  ~ In (str "GEMINI_API_KEY") (List.map fst after) ->
  exists w',
    __init__ model_name temperature_value w =
      (match value with
       | Some (c :: t) =>
           Ok {| model := model_name; temperature := temperature_value;
                 _client := {| client_api_key := c :: t |} |}
       | Some [] | None =>
           Raise (RuntimeError
                    (str "GEMINI_API_KEY not set. Add it to your environment or .env"))
       end, w') /\
    events w' =
      events w ++ DotenvLoaded ::
      match value with
      | Some (c :: t) => [ClientCreated (c :: t)]
      | Some [] | None => []
      end.
Proof.
  intros Henv Hfile Hafter. unfold __init__, _load_env_once.
  assert (Hkey : getenv (str "GEMINI_API_KEY") (load_dotenv w) = value).
  { unfold getenv, load_dotenv. cbn [environ]. rewrite lookup_union_r by done.
    rewrite lookup_omap, Hfile, (dotenv_values_found _ _ _ _ Hafter). done. }
  rewrite Hkey. destruct value as [[|c t]|]; eexists; (split; [reflexivity|]); [done| |done].
  cbn. by rewrite <- app_assoc.
Qed.

End InitMore.

Lemma init_environment_first_witness :
  exists w',
    __init__ default_model default_temperature (doubly_configured (str "env-key")) =
      (Ok {| model := default_model; temperature := default_temperature;
             _client := {| client_api_key := str "env-key" |} |}, w') /\
    events w' = [DotenvLoaded; ClientCreated (str "env-key")].
Proof.
  apply (init_environment_first (doubly_configured (str "env-key")) default_model
           (str "env-key") default_temperature); [apply lookup_singleton_eq | done].
Defined.

Lemma init_dotenv_last_witness :
  (exists w',
     __init__ default_model default_temperature (twice_defined (Some [])) =
       (Raise (RuntimeError
                 (str "GEMINI_API_KEY not set. Add it to your environment or .env")),
        w') /\
     events w' = [DotenvLoaded]) /\
  (exists w',
     __init__ default_model default_temperature (twice_defined (Some (str "last-key"))) =
       (Ok {| model := default_model; temperature := default_temperature;
              _client := {| client_api_key := str "last-key" |} |}, w') /\
     events w' = [DotenvLoaded; ClientCreated (str "last-key")]).
Proof.
  split.
  - apply (init_dotenv_last (twice_defined (Some []))
             [(str "GEMINI_API_KEY", Some (str "first-key")); (str "OTHER", None)] []
             (Some []) default_model default_temperature);
      [apply lookup_empty | reflexivity | intros []].
  - apply (init_dotenv_last (twice_defined (Some (str "last-key")))
             [(str "GEMINI_API_KEY", Some (str "first-key")); (str "OTHER", None)] []
             (Some (str "last-key")) default_model default_temperature);
      [apply lookup_empty | reflexivity | intros []].
Defined.

Lemma init_empty_credential_witness :
  exists w',
    __init__ default_model default_temperature (doubly_configured []) =
      (Raise (RuntimeError
                (str "GEMINI_API_KEY not set. Add it to your environment or .env")),
       w') /\
    events w' = [DotenvLoaded].
Proof.
  apply (init_empty_credential (doubly_configured []) default_model default_temperature).
  apply lookup_singleton_eq.
Defined.

(** ** The command line *)

Section CliFacts.
Context `{FloatOps} {limits : Interpreter}.

(** What [cli_payload] does: it opens the file it reads and nothing else,
    and gives the selected input, or fails on the file. *)
Lemma cli_payload_process (args : arguments) (p p1 : process) (r : failure + pyval) :
  cli_payload args p = (r, p1) ->
  the_world p1 = the_world p /\ stdout p1 = stdout p /\ printable p1 = printable p /\
  opened p1 = opened p ++ source_files args /\
  match selected_input args p with
  | Some application => r = inr application
  | None =>
      exists path, r = inl (FileFailure path) /\ source_files args = [path] /\
                   files p path = None
  end.
Proof.
  unfold cli_payload, source_files, selected_input.
  destruct (truthy (json_str args)) as [text|].
  { intros [= <- <-]. rewrite app_nil_r. by repeat split. }
  destruct (truthy (file_path args)) as [path|].
  - destruct (files p path) as [text|] eqn:Hfile; intros [= <- <-]; cbn.
    + by repeat split.
    + do 4 (split; [done|]). by exists path.
  - intros [= <- <-]. rewrite app_nil_r. by repeat split.
Qed.

(** The input that the script selects is a string or the sample. *)
Lemma selected_input_cases (args : arguments) (p : process) (application : pyval) :
  selected_input args p = Some application ->
  (exists text, application = PStr text) \/ application = sample_application.
Proof.
  unfold selected_input. destruct (truthy (json_str args)) as [text|].
  { intros [= <-]. left. by exists text. }
  destruct (truthy (file_path args)) as [path|]; [|intros [= <-]; by right].
  destruct (files p path) as [text|]; [|done]. intros [= <-]. left. by exists text.
Qed.

(** What the builder raises on the input that the script selects. *)
Lemma selected_input_raises (args : arguments) (p : process) (application : pyval)
    (e : exception) :
  selected_input args p = Some application ->
  app_payload application = Raise e -> e = ValueError \/ e = RecursionError.
Proof.
  intros Hselected. destruct (selected_input_cases _ _ _ Hselected) as [[text ->] | ->].
  - apply app_payload_str_raises.
  - intros He.
    destruct (proj2 (encode_serializable sample_application dumps_room) e He)
      as [[_ Hkeys] | [[-> _] | [-> _]]]; [done | by left | by right].
Qed.

(** X11: without the credential the script does not get to its work.  When
    [parse_args] returns, the script ends with the configuration error
    before it opens a file, prints or sends anything.  When [parse_args]
    exits, for [--help] or for a wrong command line, the script ends there
    with its status, before it looks for the credential: the [.env] file
    is not loaded. *)
Theorem main_without_credential (command_line : parse_result) (p : process) :
  credential_absent (the_world p) ->
  exists p',
    match command_line with
    | Parsed args =>
        main command_line p = (Some credential_error, p') /\
        opened p' = opened p /\ stdout p' = stdout p /\
        events (the_world p') = events (the_world p) ++ [DotenvLoaded]
    | Exited status printed =>
        main command_line p = (Some (SystemExit status), p') /\
        opened p' = opened p /\ stdout p' = stdout p ++ printed /\
        the_world p' = the_world p
    end.
Proof.
  intros [Henv Hfile]. destruct command_line as [args | status printed].
  - unfold main, __init__, _load_env_once.
    rewrite (load_dotenv_absent _ _ Henv Hfile). by eexists.
  - by eexists.
Qed.

(** X12: when [parse_args] returns, the credential is there, the selected
    input is one on which the builder returns a payload, the service
    answers every request with at least one choice and [print] can write
    every text, the script ends normally and has printed exactly one
    report, which has one of the section labels; it has opened the file of
    [--file] only when [--json] is absent or empty, and no file when both
    are. *)
Theorem main_prints_report (args : arguments) (p : process) (api_key : pystr)
    (application : pyval) (payload : pystr) :
  getenv (str "GEMINI_API_KEY") (load_dotenv (the_world p)) = Some api_key ->
  api_key <> [] ->
  selected_input args p = Some application ->
  app_payload application = Ok payload ->
  (forall history key request,
     exists c rest, service (the_world p) history key request = Ok {| choices := c :: rest |}) ->
  (forall text, printable p text = true) ->
  exists report p',
    main (Parsed args) p = (None, p') /\
    stdout p' = stdout p ++ [report ++ [NL]] /\
    has_section report = true /\
    opened p' = opened p ++ source_files args.
Proof.
  intros Hkey Hne Hselected Hbuilt Hservice Hprint. unfold main, __init__, _load_env_once.
  rewrite Hkey. destruct api_key as [|k0 key]; [done|]. cbn [OpenAI].
  match goal with
  | |- context [cli_payload args ?q] => set (p0 := q)
  end.
  destruct (cli_payload args p0) as [r p1] eqn:Hpayload.
  apply cli_payload_process in Hpayload as (Hworld & Hout & Hprintable & Hopened & Hr).
  change (selected_input args p0) with (selected_input args p) in Hr.
  rewrite Hselected in Hr. subst r.
  assert (Hservice1 : forall history key request, exists c rest,
            service (the_world p1) history key request = Ok {| choices := c :: rest |}).
  { rewrite Hworld. exact Hservice. }
  unfold generate_report, create. rewrite Hbuilt.
  match goal with
  | |- context [service (the_world p1) ?h ?k ?r] =>
      destruct (Hservice1 h k r) as (c & rest & Hanswer)
  end.
  rewrite Hanswer. cbn [choices]. rewrite Hprintable.
  change (printable p0) with (printable p). rewrite Hprint.
  eexists _, _. split; [reflexivity|].
  cbn [stdout opened]. rewrite Hout, Hopened.
  split; [done|]. split; [apply ensure_sections_has_section | done].
Qed.

(** X13: the ways in which the script ends without having printed a report:
    the exit of [parse_args], which has printed what [parse_args] had to
    say; and, with nothing printed, the missing credential, a file that
    cannot be read, the [ValueError] of the digit limit or a
    [RecursionError] of the request builder, an error of the remote call,
    a completion without choices, and a report that [print] cannot write.
    The builder raises neither [JSONDecodeError] nor [TypeError]: a text
    that is not JSON is no failure. *)
Theorem main_failures (command_line : parse_result) (p p' : process) (f : failure) :
  main command_line p = (Some f, p') ->
  (exists status printed,
     command_line = Exited status printed /\ f = SystemExit status /\
     stdout p' = stdout p ++ printed) \/
  (exists args,
     command_line = Parsed args /\ stdout p' = stdout p /\
     (f = credential_error
      \/ (exists path, f = FileFailure path /\ source_files args = [path] /\
                        files p path = None)
      \/ (exists application,
            selected_input args p = Some application /\
            (app_payload application = Raise ValueError /\ f = Uncaught ValueError \/
             app_payload application = Raise RecursionError /\
             f = Uncaught RecursionError))
      \/ f = Uncaught IndexError
      \/ (exists e history key request,
            f = Uncaught e /\ service (the_world p) history key request = Raise e)
      \/ (exists report,
            f = PrintFailure report /\ printable p report = false /\
            has_section report = true))).
Proof.
  destruct command_line as [args | status printed];
    [|intros [= <- <-]; left; by eexists _, _].
  intros Hmain. right. exists args. split; [done|]. revert Hmain.
  unfold main, __init__, _load_env_once.
  destruct (getenv _ _) as [[|k0 key]|]; try (intros [= <- <-]; split; [done | by left]).
  cbn [OpenAI].
  match goal with
  | |- context [cli_payload args ?q] => set (p0 := q)
  end.
  destruct (cli_payload args p0) as [r p1] eqn:Hpayload.
  apply cli_payload_process in Hpayload as (Hworld & Hout & Hprintable & _ & Hr).
  change (selected_input args p0) with (selected_input args p) in Hr.
  change (files p0) with (files p) in Hr.
  destruct (selected_input args p) as [application|] eqn:Hselected.
  - subst r. unfold generate_report, create.
    destruct (app_payload application) as [payload|e] eqn:Hbuilt.
    + destruct (service (the_world p1) _ _ _) as [resp|e] eqn:Hanswer.
      * destruct (choices resp) as [|c rest].
        { intros [= <- <-]. split; [done|]. do 3 right. by left. }
        rewrite Hprintable. change (printable p0) with (printable p).
        destruct (printable p _) eqn:Hprint; [done|].
        intros [= <- <-]. split; [done|]. do 5 right.
        eexists. split; [reflexivity|]. split; [exact Hprint|].
        apply ensure_sections_has_section.
      * intros [= <- <-]. split; [done|]. do 4 right. left.
        rewrite Hworld in Hanswer. by eexists e, _, _, _.
    + intros [= <- <-]. split; [done|]. do 2 right. left. exists application.
      split; [done|].
      destruct (selected_input_raises _ _ _ _ Hselected Hbuilt) as [-> | ->];
        [by left | by right].
  - destruct Hr as (path & -> & Hsrc & Hnone).
    intros [= <- <-]. split; [done|]. right. left. by exists path.
Qed.

End CliFacts.

Section CliExamples.
#[local] Existing Instance cpython.

Lemma main_without_credential_witness :
  (exists p',
     main (Parsed {| json_str := None; file_path := Some (str "app.json");
                     model_option := default_model |}) offline_process =
       (Some credential_error, p') /\
     opened p' = [] /\ stdout p' = [] /\ events (the_world p') = [DotenvLoaded]) /\
  (exists p',
     main (Exited 0 [str "usage: narrative_agent.py [-h]"]) offline_process =
       (Some (SystemExit 0), p') /\
     opened p' = [] /\ stdout p' = [str "usage: narrative_agent.py [-h]"] /\
     the_world p' = answering None).
Proof.
  split.
  - apply (main_without_credential (limits := cpython)
             (Parsed {| json_str := None; file_path := Some (str "app.json");
                        model_option := default_model |}) offline_process).
    split; [apply lookup_empty | intros []].
  - apply (main_without_credential (limits := cpython)
             (Exited 0 [str "usage: narrative_agent.py [-h]"]) offline_process).
    split; [apply lookup_empty | intros []].
Defined.

Lemma main_prints_report_witness :
  exists report p',
    main (Parsed {| json_str := Some []; file_path := Some (str "app.json");
                    model_option := default_model |}) sample_process = (None, p') /\
    stdout p' = [report ++ [NL]] /\
    has_section report = true /\
    opened p' = [str "app.json"].
Proof.
  apply (main_prints_report (limits := cpython)
           {| json_str := Some []; file_path := Some (str "app.json");
              model_option := default_model |} sample_process (str "env-key")
           (PStr (str "{}")) (str "{}")).
  - apply (load_dotenv_keeps (doubly_configured (str "env-key"))). apply lookup_singleton_eq.
  - done.
  - reflexivity.
  - reflexivity.
  - intros history key request. by eexists _, _.
  - done.
Defined.

Lemma main_failures_witness :
  exists path,
    FileFailure (str "missing.json") = FileFailure path /\
    source_files
      {| json_str := None; file_path := Some (str "missing.json");
         model_option := default_model |} = [path] /\
    files sample_process path = None.
Proof.
  set (args := {| json_str := None; file_path := Some (str "missing.json");
                  model_option := default_model |}).
  destruct (main_failures (limits := cpython) (Parsed args) sample_process
              (snd (main (Parsed args) sample_process))
              (FileFailure (str "missing.json")))
    as [(status & printed & Hexit & _) |
        (args' & Hargs & _ & [Hcred | [Hfile | [Hbuilder | [Hindex | [Hremote | Hprint]]]]])].
  - rewrite (surjective_pairing (main _ sample_process)) at 1. f_equal.
  - discriminate.
  - discriminate.
  - injection Hargs as <-. exact Hfile.
  - by destruct Hbuilder as (application & _ & [[_ ?] | [_ ?]]).
  - discriminate.
  - by destruct Hremote as (e & ? & ? & ? & ? & ?).
  - by destruct Hprint as (report & ? & _).
Defined.

End CliExamples.

(** ** The records, beyond the claim *)

Section SchemaMore.
Context `{FieldTypes} {instances : data_schemas.Instances}.
Import data_schemas.

Lemma bind_Raise {A B} (r : result A) (k : A -> result B) (e : exception) :
  r = Raise e -> (r ≫= k) = Raise e.
Proof. by intros ->. Qed.

(** A nested record is built from a dict, or it is the instance that was
    given. *)
Lemma validate_model_Some {A} (instance : pyval -> option A)
    (validate : gmap pystr pyval -> result A) (v : pyval) (a : A) :
  validate_model instance validate v = Some a ->
  (exists items, v = PDict items /\ validate (kwargs items) = Ok a) \/
  (is_dict v = false /\ instance v = Some a).
Proof.
  destruct v as [| | | | | | | items |]; try (by right). cbn.
  destruct (validate (kwargs items)) as [a'|] eqn:Hv; [|done].
  intros [= <-]. left. by exists items.
Qed.

Lemma list_field_Ok {A} (name : string) (validate : pyval -> option A)
    (data : gmap pystr pyval) (l : list A) :
  list_field name validate data = Ok l ->
  match data !! str name with
  | None => l = []
  | Some v => exists items, sequence_items v = Some items /\ mapM validate items = Some l
  end.
Proof.
  unfold list_field. destruct (data !! str name) as [v|]; [|by intros [= <-]].
  destruct (sequence_items v) as [items|]; [|done].
  destruct (mapM validate items) as [l'|] eqn:Hitems; [|done].
  intros [= <-]. by exists items.
Qed.

Lemma new_Employment_frequency (data : gmap pystr pyval) (e : Employment) :
  new_Employment data = Ok e ->
  match pay_frequency e with
  | None => data !! str "pay_frequency" = None \/ data !! str "pay_frequency" = Some PNone
  | Some f => data !! str "pay_frequency" = Some (PStr f) /\ In f PAY_FREQUENCIES
  end.
Proof.
  intros Hnew. unfold new_Employment in Hnew.
  apply bind_Ok in Hnew as (a & _ & Hnew).
  apply bind_Ok in Hnew as (b & _ & Hnew).
  apply bind_Ok in Hnew as (c & Hc & Hnew).
  apply bind_Ok in Hnew as (d & _ & Hnew).
  injection Hnew as <-. cbn [pay_frequency]. destruct c as [f|].
  - apply optional_Ok in Hc as (v & Hv & Hlit).
    apply validate_literal_Some in Hlit as [-> Hin]. done.
  - unfold optional in Hc. destruct (data !! str "pay_frequency") as [v|]; [|by left].
    destruct v; try (by right); by destruct (validate_literal _ _).
Qed.

Lemma new_DocumentEvidence_type (data : gmap pystr pyval) (d : DocumentEvidence) :
  new_DocumentEvidence data = Ok d ->
  data !! str "doc_type" = Some (PStr (doc_type d)) /\ In (doc_type d) DOC_TYPES.
Proof.
  intros Hnew. unfold new_DocumentEvidence in Hnew.
  apply bind_Ok in Hnew as (a & Ha & Hnew).
  repeat (apply bind_Ok in Hnew as (? & _ & Hnew)).
  injection Hnew as <-. cbn [doc_type].
  apply required_Ok in Ha as (v & Hv & Hlit).
  apply validate_literal_Some in Hlit as [-> Hin]. done.
Qed.

Lemma documents_valid (items : list pyval) (docs : list DocumentEvidence) :
  mapM (validate_model as_DocumentEvidence new_DocumentEvidence) items = Some docs ->
  Forall (fun d =>
            (exists v, In v items /\ is_dict v = false /\ as_DocumentEvidence v = Some d) \/
            In (doc_type d) DOC_TYPES) docs.
Proof.
  intros Hitems. apply mapM_Some_1 in Hitems.
  induction Hitems as [|v d items docs Hv _ IH]; [constructor|]. constructor.
  - apply validate_model_Some in Hv as [(its & _ & Hd) | [Hdict Hinstance]].
    + right. by apply new_DocumentEvidence_type in Hd as [_ Hin].
    + left. exists v. split; [by left | done].
  - eapply Forall_impl; [exact IH|]. intros d' [(v' & Hin & Hv') | Hlit]; [|by right].
    left. exists v'. split; [by right | done].
Qed.

(** X14: a [DocumentEvidence] is built only from a [doc_type] that is one of
    the eight literals, which it keeps as given; without a [doc_type], or
    with any other value, construction fails on that field. *)
Theorem document_validated :
  (forall data document,
     new_DocumentEvidence data = Ok document ->
     data !! str "doc_type" = Some (PStr (doc_type document)) /\
     In (doc_type document)
        [str "driver_license"; str "passport"; str "ssn_card"; str "utility_bill";
         str "bank_statement"; str "paystub"; str "w2"; str "other"]) /\
  (forall data,
     data !! str "doc_type" = None ->
     new_DocumentEvidence data = Raise (ValidationError (str "doc_type"))) /\
  (forall data v,
     data !! str "doc_type" = Some v ->
     (forall t, In t [str "driver_license"; str "passport"; str "ssn_card";
                      str "utility_bill"; str "bank_statement"; str "paystub";
                      str "w2"; str "other"] -> v <> PStr t) ->
     new_DocumentEvidence data = Raise (ValidationError (str "doc_type"))).
Proof.
  split; [|split].
  - intros data document. apply new_DocumentEvidence_type.
  - intros data Hmissing. unfold new_DocumentEvidence.
    by rewrite (required_missing _ _ _ Hmissing).
  - intros data v Hv Hother. unfold new_DocumentEvidence, required.
    rewrite Hv, (validate_literal_None DOC_TYPES v Hother). done.
Qed.

(** X15: the other required fields: a [PaystubItem] is not built without
    [net_pay], nor an [Employment] without [employer_name]; the error names
    the field, and a record that was built holds the validated value of
    the field it was given. *)
Theorem required_fields :
  (forall data,
     data !! str "net_pay" = None ->
     new_PaystubItem data = Raise (ValidationError (str "net_pay"))) /\
  (forall data,
     data !! str "employer_name" = None ->
     new_Employment data = Raise (ValidationError (str "employer_name"))) /\
  (forall data item,
     new_PaystubItem data = Ok item ->
     exists v, data !! str "net_pay" = Some v /\ validate_float v = Some (net_pay item)) /\
  (forall data employment,
     new_Employment data = Ok employment ->
     exists v, data !! str "employer_name" = Some v /\
               validate_str v = Some (employer_name employment)).
Proof.
  split; [|split; [|split]].
  - intros data Hmissing. unfold new_PaystubItem.
    by rewrite (required_missing _ _ _ Hmissing).
  - intros data Hmissing. unfold new_Employment.
    by rewrite (required_missing _ _ _ Hmissing).
  - intros data item Hnew. unfold new_PaystubItem in Hnew.
    apply bind_Ok in Hnew as (a & Ha & Hnew).
    repeat (apply bind_Ok in Hnew as (? & _ & Hnew)).
    injection Hnew as <-. by apply required_Ok.
  - intros data employment Hnew. unfold new_Employment in Hnew.
    apply bind_Ok in Hnew as (a & Ha & Hnew).
    repeat (apply bind_Ok in Hnew as (? & _ & Hnew)).
    injection Hnew as <-. by apply required_Ok.
Qed.

(** X16: the records inside a profile are validated with it, unless they
    were given as instances of their model, which are taken as they are: in
    every [ApplicantProfile] that was built, the employment, when there is
    one, is the instance that was given, or it has no [pay_frequency] or
    one of the four literals; and every document is an instance that was
    given among the documents, or has one of the eight document types.
    In particular the records given as dicts are validated. *)
Theorem profile_nested_valid (data : gmap pystr pyval) (profile : ApplicantProfile) :
  new_ApplicantProfile data = Ok profile ->
  (forall e, employment profile = Some e ->
     (exists v, data !! str "employment" = Some v /\ is_dict v = false /\
                as_Employment v = Some e) \/
     pay_frequency e = None \/
     exists f, pay_frequency e = Some f /\
               In f [str "weekly"; str "biweekly"; str "semimonthly"; str "monthly"]) /\
  (forall d, In d (documents profile) ->
     (exists v items x,
        data !! str "documents" = Some v /\ sequence_items v = Some items /\
        In x items /\ is_dict x = false /\ as_DocumentEvidence x = Some d) \/
     In (doc_type d)
        [str "driver_license"; str "passport"; str "ssn_card"; str "utility_bill";
         str "bank_statement"; str "paystub"; str "w2"; str "other"]).
Proof.
  intros Hnew. unfold new_ApplicantProfile in Hnew.
  do 10 (apply bind_Ok in Hnew as (? & _ & Hnew)).
  apply bind_Ok in Hnew as (k & Hk & Hnew).
  apply bind_Ok in Hnew as (l & _ & Hnew).
  apply bind_Ok in Hnew as (m & Hm & Hnew).
  injection Hnew as <-. cbn [employment documents]. split.
  - intros e ->. apply optional_Ok in Hk as (v & Hgiven & Hv).
    apply validate_model_Some in Hv as [(items & _ & Hnew) | [Hdict Hinstance]].
    + right. apply new_Employment_frequency in Hnew.
      destruct (pay_frequency e) as [f|]; [right | by left].
      exists f. by destruct Hnew.
    + left. by exists v.
  - intros d Hd. apply list_field_Ok in Hm.
    destruct (data !! str "documents") as [v|]; [|by subst].
    destruct Hm as (items & Hseq & Hitems).
    apply documents_valid in Hitems. rewrite List.Forall_forall in Hitems.
    destruct (Hitems d Hd) as [(element & Hin & Hdict & Hinstance) | Hlit]; [|by right].
    left. by exists v, items, element.
Qed.

(** X17: defaults: a profile built from data without [paystubs],
    [documents] or [employment] has the empty list of paystubs, the empty
    list of documents and no employment; an [employment] given as [None] is
    no employment either. *)
Theorem profile_defaults (data : gmap pystr pyval) (profile : ApplicantProfile) :
  new_ApplicantProfile data = Ok profile ->
  (data !! str "paystubs" = None -> paystubs profile = []) /\
  (data !! str "documents" = None -> documents profile = []) /\
  (data !! str "employment" = None \/ data !! str "employment" = Some PNone ->
   employment profile = None).
Proof.
  intros Hnew. unfold new_ApplicantProfile in Hnew.
  do 10 (apply bind_Ok in Hnew as (? & _ & Hnew)).
  apply bind_Ok in Hnew as (k & Hk & Hnew).
  apply bind_Ok in Hnew as (l & Hl & Hnew).
  apply bind_Ok in Hnew as (m & Hm & Hnew).
  injection Hnew as <-. cbn [employment documents paystubs].
  split; [|split].
  - intros Hnone. apply list_field_Ok in Hl. by rewrite Hnone in Hl.
  - intros Hnone. apply list_field_Ok in Hm. by rewrite Hnone in Hm.
  - intros Hnone. unfold optional in Hk.
    destruct Hnone as [Hn | Hn]; rewrite Hn in Hk; by injection Hk as <-.
Qed.

Lemma kwargs_other_key (k x : pyval) (items : list (pyval * pyval)) :
  is_str k = false -> kwargs ((k, x) :: items) = kwargs items.
Proof. by destruct k. Qed.


Lemma required_insert {A} (name : string) (validate : pyval -> option A)
    (data : gmap pystr pyval) (k : pystr) (v : pyval) :
  k <> str name -> required name validate (<[k := v]> data) = required name validate data.
Proof. intros Hk. unfold required. by rewrite lookup_insert_ne. Qed.

Lemma optional_insert {A} (name : string) (validate : pyval -> option A)
    (data : gmap pystr pyval) (k : pystr) (v : pyval) :
  k <> str name -> optional name validate (<[k := v]> data) = optional name validate data.
Proof. intros Hk. unfold optional. by rewrite lookup_insert_ne. Qed.

Lemma list_field_insert {A} (name : string) (validate : pyval -> option A)
    (data : gmap pystr pyval) (k : pystr) (v : pyval) :
  k <> str name ->
  list_field name validate (<[k := v]> data) = list_field name validate data.
Proof. intros Hk. unfold list_field. by rewrite lookup_insert_ne. Qed.

Ltac other_field Hk :=
  let Heq := fresh in
  intros Heq; apply Hk; rewrite Heq; cbn [List.map In];
  repeat (try (left; reflexivity); right).

(** X19: a key that is not a field of the record is ignored: adding it to
    the data, with any value, changes nothing in what construction
    returns. *)
Theorem unknown_field_ignored (data : gmap pystr pyval) (k : pystr) (v : pyval) :
  (~ In k (List.map str ApplicantProfile_fields) ->
   new_ApplicantProfile (<[k := v]> data) = new_ApplicantProfile data) /\
  (~ In k (List.map str Employment_fields) ->
   new_Employment (<[k := v]> data) = new_Employment data) /\
  (~ In k (List.map str PaystubItem_fields) ->
   new_PaystubItem (<[k := v]> data) = new_PaystubItem data) /\
  (~ In k (List.map str DocumentEvidence_fields) ->
   new_DocumentEvidence (<[k := v]> data) = new_DocumentEvidence data).
Proof.
  split; [|split; [|split]]; intros Hk.
  - unfold new_ApplicantProfile.
    rewrite !required_insert, !optional_insert, !list_field_insert
      by other_field Hk. done.
  - unfold new_Employment.
    rewrite !required_insert, !optional_insert by other_field Hk. done.
  - unfold new_PaystubItem.
    rewrite !required_insert, !optional_insert by other_field Hk. done.
  - unfold new_DocumentEvidence.
    rewrite !required_insert, !optional_insert by other_field Hk. done.
Qed.

End SchemaMore.

Lemma document_validated_witness :
  (exists document,
     @data_schemas.new_DocumentEvidence _ strict_fields
       (<[str "doc_type" := PStr (str "passport")]> ∅) = Ok document /\
     data_schemas.doc_type document = str "passport") /\
  @data_schemas.new_DocumentEvidence _ strict_fields
    (<[str "doc_type" := PStr (str "id_card")]> ∅)
  = Raise (ValidationError (str "doc_type")).
Proof.
  destruct (@document_validated _ strict_fields) as (Hbuilt & Hmissing & Hother).
  split.
  - eexists. split; [reflexivity|]. reflexivity.
  - apply (Hother _ (PStr (str "id_card"))).
    + apply lookup_insert_eq.
    + intros t Ht. cbn in Ht. intros [= <-].
      repeat (destruct Ht as [Ht | Ht]; [discriminate|]). done.
Defined.

Lemma required_fields_witness :
  @data_schemas.new_PaystubItem _ strict_fields
    (<[str "hours" := @PFloat text_floats (str "80.0")]> ∅)
  = Raise (ValidationError (str "net_pay")) /\
  @data_schemas.new_Employment _ strict_fields
    (<[str "pay_frequency" := PStr (str "weekly")]> ∅)
  = Raise (ValidationError (str "employer_name")).
Proof.
  destruct (@required_fields _ strict_fields) as (Hpay & Hemp & _).
  split.
  - apply Hpay. by rewrite lookup_insert_ne, lookup_empty.
  - apply Hemp. by rewrite lookup_insert_ne, lookup_empty.
Defined.

Lemma profile_nested_valid_witness :
  exists profile,
    @data_schemas.new_ApplicantProfile _ strict_fields no_instances sample_profile_data
    = Ok profile /\
    (forall e, data_schemas.employment profile = Some e ->
       data_schemas.pay_frequency e = None \/
       exists f, data_schemas.pay_frequency e = Some f /\
                 In f [str "weekly"; str "biweekly"; str "semimonthly"; str "monthly"]) /\
    (forall d, In d (data_schemas.documents profile) ->
       In (data_schemas.doc_type d)
          [str "driver_license"; str "passport"; str "ssn_card"; str "utility_bill";
           str "bank_statement"; str "paystub"; str "w2"; str "other"]).
Proof.
  eexists. split; [reflexivity|].
  destruct (@profile_nested_valid _ strict_fields no_instances sample_profile_data _ eq_refl)
    as [Hemployment Hdocuments].
  split.
  - intros e He. destruct (Hemployment e He) as [(v & _ & _ & Hinstance) | Hvalid];
      [discriminate | exact Hvalid].
  - intros d Hd.
    destruct (Hdocuments d Hd) as [(v & items & x & _ & _ & _ & _ & Hinstance) | Hvalid];
      [discriminate | exact Hvalid].
Defined.

Lemma profile_defaults_witness :
  exists profile,
    @data_schemas.new_ApplicantProfile _ strict_fields no_instances sample_profile_data = Ok profile /\
    data_schemas.paystubs profile = [].
Proof.
  eexists. split; [reflexivity|].
  apply (@profile_defaults _ strict_fields no_instances sample_profile_data _ eq_refl).
  reflexivity.
Defined.


Lemma unknown_field_ignored_witness :
  @data_schemas.new_ApplicantProfile _ strict_fields no_instances
    (<[str "nickname" := PStr (str "JD")]> sample_profile_data)
  = @data_schemas.new_ApplicantProfile _ strict_fields no_instances sample_profile_data.
Proof.
  apply (@unknown_field_ignored _ strict_fields no_instances sample_profile_data
           (str "nickname")).
  cbn. intros Hin. repeat (destruct Hin as [Hin | Hin]; [discriminate|]). done.
Defined.
